(** * WorkWeaver: the tiered summary scheduler and its helpers

    A shallow embedding of the summary engine of [ai_summary]:
    - [ScreenshotComparer]  (ai_summary/src/screenshot-comparer.js),
    - [GeminiClient]        (ai_summary/src/gemini-client.js),
    - [SummaryScheduler]    (the scheduler module, with its three tier
                             pipelines, [start], [stop], [_detectTimeGap]
                             and [_parseResponse]),
    - [EventLoop]           (the interleavings of timer fires, settled
                             [generate] promises and [stop] polls that the
                             Node.js event loop allows).

    [Notions] holds the notions the properties are stated with, [Sample]
    the concrete inputs of the runs evaluated at the end.

    The collaborators the scheduler calls follow: [ActiveWindowCollector],
    [SummaryStore], [ScreenshotReader] with the naming of [Storage] it
    reads back, [TokenTracker], the escaping of [PromptBuilder] and
    [TodoWriter], over the string built-ins of [Text]; [Shapes] holds
    the notions their properties are stated with, [Fixture] their
    concrete inputs.

    JavaScript values are modelled by the JSON trees the code reads and
    writes; strings are UTF-8 byte strings; a [Buffer] is a list of bytes.
    Built-ins whose full behaviour is outside the repository ([JSON.parse],
    the [Date] constructor applied to a stored value, [toLocaleTimeString])
    are section variables: every theorem holds for whatever they compute. *)

From Stdlib Require Import ZArith List String Ascii Bool Lia Sorted.
From Stdlib.Strings Require Import Byte.
From Stdlib Require Import DecimalString.
Import ListNotations.

Set Warnings "-register-all".

Local Open Scope Z_scope.
Local Open Scope string_scope.

(* ================================================================== *)
(** ** JavaScript values and the built-ins the code relies on          *)
(* ================================================================== *)

Module Js.

(** A JSON tree. An object keeps its fields in insertion order, each key
    once; numbers are the integers the records hold (minutes, counts). *)
Inductive json : Type :=
| JNull
| JBool (b : bool)
| JNum (n : Z)
| JStr (s : string)
| JArr (items : list json)
| JObj (fields : list (string * json)).

(** [o.k]: [None] is JavaScript's [undefined]. *)
Fixpoint obj_get (k : string) (fields : list (string * json)) : option json :=
  match fields with
  | [] => None
  | (k', v) :: rest => if String.eqb k k' then Some v else obj_get k rest
  end.

(** ToBoolean on a JSON value. *)
Definition truthy (v : json) : bool :=
  match v with
  | JNull => false
  | JBool b => b
  | JNum n => negb (n =? 0)%Z
  | JStr s => negb (String.eqb s "")
  | JArr _ | JObj _ => true
  end.

(** ToBoolean on a property that may be missing. *)
Definition truthy_opt (v : option json) : bool :=
  match v with
  | None => false
  | Some x => truthy x
  end.

(** [String(n)] for an integer. *)
Definition string_of_Z (n : Z) : string :=
  NilZero.string_of_int (Z.to_int n).

(** ToString, as [Array.prototype.join] applies it to an element: [null]
    prints as the empty string inside an array, an object as
    [[object Object]]. *)
Fixpoint toString (v : json) : string :=
  match v with
  | JNull => "null"
  | JBool true => "true"
  | JBool false => "false"
  | JNum n => string_of_Z n
  | JStr s => s
  | JArr items =>
      (fix join (l : list json) : string :=
         match l with
         | [] => ""
         | x :: rest =>
             let sx := match x with JNull => "" | _ => toString x end in
             match rest with
             | [] => sx
             | _ => sx ++ "," ++ join rest
             end
         end) items
  | JObj _ => "[object Object]"
  end.

(** [arr.join(sep)] on an array of values none of which is null. *)
Fixpoint join (sep : string) (l : list json) : string :=
  match l with
  | [] => ""
  | [x] => toString x
  | x :: rest => toString x ++ sep ++ join sep rest
  end.

(** SameValueZero, the equality of [Set]: primitives by value; two arrays
    or objects that come from different parsed records are never the same
    reference. *)
Definition sameValueZero (a b : json) : bool :=
  match a, b with
  | JNull, JNull => true
  | JBool x, JBool y => Bool.eqb x y
  | JNum x, JNum y => (x =? y)%Z
  | JStr x, JStr y => String.eqb x y
  | _, _ => false
  end.

(** [[...new Set(l)]]: first occurrences, in order. *)
Fixpoint dedup_from (seen : list json) (l : list json) : list json :=
  match l with
  | [] => []
  | x :: rest =>
      if existsb (sameValueZero x) seen then dedup_from seen rest
      else x :: dedup_from (seen ++ [x])%list rest
  end.

Definition set_spread (l : list json) : list json := dedup_from [] l.

(** *** Strings *)

Definition string_of_codes (l : list N) : string :=
  string_of_list_ascii (map ascii_of_N l).

(** The white space of [String.prototype.trim] and of the regular
    expression class [\s] (WhiteSpace and LineTerminator code points), in
    UTF-8: TAB, LF, VT, FF, CR, SP, U+00A0, U+1680, U+2000..U+200A,
    U+2028, U+2029, U+202F, U+205F, U+3000, U+FEFF. *)
Definition whitespace_codes : list (list N) :=
  [ [9]; [10]; [11]; [12]; [13]; [32]; [194; 160]; [225; 154; 128];
    [226; 128; 128]; [226; 128; 129]; [226; 128; 130]; [226; 128; 131];
    [226; 128; 132]; [226; 128; 133]; [226; 128; 134]; [226; 128; 135];
    [226; 128; 136]; [226; 128; 137]; [226; 128; 138];
    [226; 128; 168]; [226; 128; 169]; [226; 128; 175];
    [226; 129; 159]; [227; 128; 128]; [239; 187; 191] ]%N.

Definition whitespace : list string := map string_of_codes whitespace_codes.

(** [strip_prefix p s]: what follows [p] when [s] starts with [p]. *)
Fixpoint strip_prefix (p s : string) : option string :=
  match p with
  | EmptyString => Some s
  | String a p' =>
      match s with
      | EmptyString => None
      | String b s' => if Ascii.eqb a b then strip_prefix p' s' else None
      end
  end.

(** The rest of [s] after one leading pattern of [pats], if any. *)
Fixpoint strip_one (pats : list string) (s : string) : option string :=
  match pats with
  | [] => None
  | p :: rest =>
      match strip_prefix p s with
      | Some s' => Some s'
      | None => strip_one rest s
      end
  end.

Fixpoint strip_many (fuel : nat) (pats : list string) (s : string) : string :=
  match fuel with
  | O => s
  | S n =>
      match strip_one pats s with
      | Some s' => strip_many n pats s'
      | None => s
      end
  end.

Definition string_rev (s : string) : string :=
  string_of_list_ascii (rev (list_ascii_of_string s)).

(** [s.trimStart()]: every pattern is non-empty, so [length s] rounds are
    enough. *)
Definition trimStart (s : string) : string :=
  strip_many (String.length s) whitespace s.

Definition trimEnd (s : string) : string :=
  string_rev (strip_many (String.length s) (map string_rev whitespace)
                         (string_rev s)).

(** [s.trim()]. *)
Definition trim (s : string) : string := trimEnd (trimStart s).

(** [s.split('\n')[0]]. *)
Fixpoint first_line (s : string) : string :=
  match s with
  | EmptyString => EmptyString
  | String c rest =>
      if Ascii.eqb c (ascii_of_N 10) then EmptyString
      else String c (first_line rest)
  end.

(** The longest prefix without a double quote, and the rest. *)
Fixpoint span_not_quote (s : string) : string * string :=
  match s with
  | EmptyString => (EmptyString, EmptyString)
  | String c rest =>
      if Ascii.eqb c (ascii_of_N 34) then (EmptyString, s)
      else let '(a, b) := span_not_quote rest in (String c a, b)
  end.

(** Group 1 of [s.match(re)], where [re] is: start of input, a double
    quote, one or more characters other than a double quote (the group),
    a double quote. *)
Definition match_leading_quoted (s : string) : option string :=
  match s with
  | String c rest =>
      if Ascii.eqb c (ascii_of_N 34) then
        match span_not_quote rest with
        | (EmptyString, _) => None
        | (name, String _ _) => Some name
        | (_, EmptyString) => None
        end
      else None
  | EmptyString => None
  end.

(** A [Date], by the observations the code makes of it. *)
Record Date : Type := mkDate {
  getTime : Z;      (* milliseconds since the epoch *)
  getDay : Z;       (* local day of the week, 0 = Sunday *)
  getHours : Z;     (* local hours *)
  getMinutes : Z    (* local minutes *)
}.

(** A thrown value: an [Error] with its message, or the [TypeError] of a
    property read on [null] or [undefined]. *)
Inductive error : Type :=
| Error (message : string)
| TypeError (message : string).

Definition message (e : error) : string :=
  match e with
  | Error m => m
  | TypeError m => m
  end.

(** A [Buffer] and [Buffer.prototype.equals]. *)
Definition Buffer : Type := list byte.

Fixpoint Buffer_equals (a b : Buffer) : bool :=
  match a, b with
  | [], [] => true
  | x :: a', y :: b' => Byte.eqb x y && Buffer_equals a' b'
  | _, _ => false
  end.

End Js.

(* ================================================================== *)
(** ** Effects the modules have on the outside world                   *)
(* ================================================================== *)

Module Effects.
Import Js.

(** The three tiers, which the code names by the strings 2min, 10min, 1h. *)
Inductive granularity : Type := G2min | G10min | G1h.

Definition granularity_name (g : granularity) : string :=
  match g with
  | G2min => "2min"
  | G10min => "10min"
  | G1h => "1h"
  end.

Inductive level : Type := LDebug | LInfo | LWarn | LError.

(** A timer handle, as [setInterval] returns it. *)
Definition handle : Type := nat.

(** One element of the [contents] array sent to the analysis service. *)
Inductive part : Type :=
| TextPart (s : string)
| InlineData (data : Buffer) (mimeType : string).

Definition contents : Type := list part.

(** What a run does to its collaborators, in program order. *)
Inductive event : Type :=
| Log (l : level) (msg : string)                       (* logger.debug/info/warn/error *)
| GenerateContent (attempt : Z) (c : contents)         (* genai.models.generateContent *)
| SetTimeout (ms : Z)                                  (* setTimeout(resolve, ms) *)
| SetInterval (h : handle) (g : granularity) (ms : Z)  (* setInterval(run of g, ms) *)
| ClearInterval (h : handle)                           (* clearInterval(h) *)
| PromptLog (g : granularity) (ts : Date) (c : contents) (* promptLogger.log *)
| Save (g : granularity) (ts : Date) (data : json)     (* summaryStore.save, written *)
| SaveThrew (g : granularity) (ts : Date) (data : json) (* summaryStore.save, threw *)
| TokenRecord (g : granularity) (usage : json)         (* tokenTracker.record *)
| TodoWrite (parsed : json).                           (* todoWriter.processResponse *)

(** The records written to the store, in order. *)
Fixpoint saves (evs : list event) : list (granularity * Date * json) :=
  match evs with
  | [] => []
  | Save g ts data :: rest => (g, ts, data) :: saves rest
  | _ :: rest => saves rest
  end.

(** The requests sent to the analysis service, in order. *)
Fixpoint requests (evs : list event) : list (Z * contents) :=
  match evs with
  | [] => []
  | GenerateContent attempt c :: rest => (attempt, c) :: requests rest
  | _ :: rest => requests rest
  end.

(** The requests and the waits between them, without the log lines. *)
Fixpoint calls_and_waits (evs : list event) : list event :=
  match evs with
  | [] => []
  | GenerateContent attempt c :: rest => GenerateContent attempt c :: calls_and_waits rest
  | SetTimeout ms :: rest => SetTimeout ms :: calls_and_waits rest
  | _ :: rest => calls_and_waits rest
  end.

(** The waits, in order. *)
Fixpoint timeouts (evs : list event) : list Z :=
  match evs with
  | [] => []
  | SetTimeout ms :: rest => ms :: timeouts rest
  | _ :: rest => timeouts rest
  end.

(** A computation that returns or throws. *)
Inductive result (A : Type) : Type :=
| Ret (a : A)
| Throw (e : error).

Arguments Ret {A} a.
Arguments Throw {A} e.

End Effects.

(* ================================================================== *)
(** ** ScreenshotComparer (ai_summary/src/screenshot-comparer.js)      *)
(* ================================================================== *)

Module ScreenshotComparer.
Import Js Effects.

(** An element of the array [getRecentScreenshotBuffers] returns. *)
Record Screenshot : Type := mkScreenshot {
  buffer : Buffer;
  timestamp : Date
}.

(** A summary record as read back from the store: a JSON object. *)
Definition Summary : Type := list (string * json).

(** The loop of [allIdentical], from index 1: stop at the first buffer
    that differs from [baseBuffer]. *)
Fixpoint compare_with (baseBuffer : Buffer) (rest : list Screenshot) : bool :=
  match rest with
  | [] => true
  | s :: rest' =>
      if negb (Buffer_equals baseBuffer (buffer s)) then false
      else compare_with baseBuffer rest'
  end.

Definition allIdentical (screenshots : list Screenshot) : bool :=
  match screenshots with
  | [] => false
  | [_] => false
  | first :: rest => compare_with (buffer first) rest
  end.

(** The line [allIdentical] logs before it returns true. *)
Definition allIdentical_log (screenshots : list Screenshot) : list event :=
  if allIdentical screenshots then
    [Log LInfo ("[截图比对] " ++ string_of_Z (Z.of_nat (List.length screenshots))
                ++ " 张截图完全一致，判定为无变化")]
  else [].

Definition _extractWindowNameFromWindowText (windowText : string) : string :=
  if String.eqb windowText "" then "不确定"
  else
    let firstLine := first_line windowText in
    match match_leading_quoted firstLine with
    | Some name => name
    | None => trim firstLine
    end.

(** [screenshots[screenshots.length - 1].timestamp] throws on an empty
    array; its [toLocaleTimeString] is computed and not used. *)
Definition buildNoChange2minRecord (screenshots : list Screenshot)
    (activeWindowText : string) : result json :=
  match last (map Some screenshots) None with
  | None =>
      Throw (TypeError "Cannot read properties of undefined (reading 'timestamp')")
  | Some lastShot =>
      Ret (JObj [
        ("no_change", JBool true);
        ("skip_reason", JStr "截图完全一致，屏幕无变化");
        ("category_type", JArr [JStr "行为"]);
        ("category_name", JArr [JStr "屏幕无变化"]);
        ("subtask_name", JArr [JStr ""]);
        ("task_status", JStr "继续");
        ("interaction_mode", JStr "无操作");
        ("browse_content", JStr "不确定");
        ("operate_action", JStr "无");
        ("core_action", JStr "屏幕无变化");
        ("context", JStr (if String.eqb activeWindowText "" then "不确定"
                          else _extractWindowNameFromWindowText activeWindowText));
        ("content_change", JStr "无明确变化");
        ("progress", JStr "无明显进展");
        ("blockers", JStr "无");
        ("next_intent", JStr "不确定");
        ("confidence", JStr "高");
        ("duration_minutes", JNum 2);
        ("screenshots_compared", JNum (Z.of_nat (List.length screenshots)))
      ])
  end.

(** [c && c !== '不确定'] on the [context] of a child record. *)
Definition usable_context (c : option json) : option json :=
  match c with
  | Some v =>
      if truthy v
         && negb (match v with JStr s => String.eqb s "不确定" | _ => false end)
      then Some v else None
  | None => None
  end.

Fixpoint contexts_of (recent2min : list Summary) : list json :=
  match recent2min with
  | [] => []
  | s :: rest =>
      match usable_context (obj_get "context" s) with
      | Some v => v :: contexts_of rest
      | None => contexts_of rest
      end
  end.

Definition buildNoChange10minRecord (recent2min : list Summary) : json :=
  let contexts := contexts_of recent2min in
  let contextStr :=
    match contexts with
    | [] => "不确定"
    | _ => join ", " (set_spread contexts)
    end in
  JObj [
    ("no_change", JBool true);
    ("skip_reason", JStr "所有2min子级均为无变化，跳过API请求");
    ("task_main", JStr "无活动 — 屏幕持续无变化");
    ("activity_timeline", JArr []);
    ("key_progress", JStr "无明显进展");
    ("key_objects", JStr contextStr);
    ("content_change", JStr "无明确变化");
    ("blockers", JStr "无");
    ("next_step", JStr "不确定");
    ("confidence", JStr "高");
    ("no_change_2min_count", JNum (Z.of_nat (List.length recent2min)))
  ].

Definition buildNoChange1hRecord (recent10min : list Summary) : json :=
  JObj [
    ("no_change", JBool true);
    ("skip_reason", JStr "所有10min子级均为无变化，跳过API请求");
    ("achievements", JArr []);
    ("task_chain", JStr "无活动 — 屏幕持续无变化");
    ("time_distribution", JArr []);
    ("miscellaneous", JArr []);
    ("key_output", JStr "无");
    ("blockers", JStr "无");
    ("next_direction", JStr "不确定");
    ("confidence", JStr "高");
    ("no_change_10min_count", JNum (Z.of_nat (List.length recent10min)))
  ].

(** [s.no_change === true]. *)
Definition no_change_is_true (s : Summary) : bool :=
  match obj_get "no_change" s with
  | Some (JBool true) => true
  | _ => false
  end.

Definition allNoChange (summaries : list Summary) : bool :=
  match summaries with
  | [] => false
  | _ => forallb no_change_is_true summaries
  end.

End ScreenshotComparer.

(* ================================================================== *)
(** ** GeminiClient (ai_summary/src/gemini-client.js)                  *)
(* ================================================================== *)

Module GeminiClient.
Import Js Effects.

(** The [gemini] section of the configuration (the fields the retry loop
    reads; both are integers). *)
Record Config : Type := mkConfig {
  max_retries : Z;
  retry_delay : Z      (* seconds *)
}.

Record t : Type := mkClient {
  maxRetries : Z;
  retryDelay : Z       (* milliseconds *)
}.

(** [config.max_retries || 3] and [(config.retry_delay || 2) * 1000]. *)
Definition constructor (config : Config) : t :=
  {| maxRetries := if (max_retries config =? 0)%Z then 3 else max_retries config;
     retryDelay := ((if (retry_delay config =? 0)%Z then 2 else retry_delay config)
                    * 1000)%Z |}.

(** What [genai.models.generateContent] resolves to: [response.text] may
    be undefined. *)
Record Response : Type := mkResponse {
  text : option string;
  usageMetadata : option json
}.

(** What [generate] resolves to. *)
Record Generated : Type := mkGenerated {
  g_text : string;
  g_usageMetadata : option json      (* [None] is null *)
}.

(** [text.length]: UTF-16 code units of a UTF-8 string (one per code point,
    two for a code point outside the basic plane). *)
Fixpoint utf16_length (s : string) : Z :=
  match s with
  | EmptyString => 0%Z
  | String c rest =>
      let b := N_of_ascii c in
      ((if (b <? 128)%N then 1
        else if (b <? 192)%N then 0
        else if (b <? 240)%N then 1
        else 2) + utf16_length rest)%Z
  end.

Definition empty_response : error := Error "Gemini 返回空响应".

(** From [const text = response.text] to the [return] of the try block. *)
Definition check_response (response : Response) : result Generated :=
  match text response with
  | None => Throw empty_response
  | Some t =>
      if String.eqb t "" || String.eqb (trim t) "" then Throw empty_response
      else Ret {| g_text := t;
                  g_usageMetadata :=
                    match usageMetadata response with
                    | Some u => if truthy u then Some u else None
                    | None => None
                    end |}
  end.

Section Generate.

(** The service: what the call of the given attempt settles to. *)
Variable api : Z -> result Response.
Variable client : t.
Variable c : contents.

Definition attempt_tag (attempt : Z) : string :=
  "(尝试 " ++ string_of_Z attempt ++ "/" ++ string_of_Z (maxRetries client) ++ ")".

(** The body of the try block for one attempt. *)
Definition try_once (attempt : Z) : result Generated :=
  match api attempt with
  | Ret response => check_response response
  | Throw e => Throw e
  end.

(** The for loop, entered at [attempt] with [fuel] iterations left
    ([maxRetries - attempt + 1] of them), and what follows it. *)
Fixpoint generate_from (fuel : nat) (attempt : Z) (lastError : option error)
  : list event * result Generated :=
  match fuel with
  | O =>
      match lastError with
      | Some e => ([Log LError ("Gemini API 调用全部失败: " ++ message e)], Throw e)
      | None =>
          ([], Throw (TypeError "Cannot read properties of null (reading 'message')"))
      end
  | S fuel' =>
      let called := [Log LDebug ("Gemini API 调用 " ++ attempt_tag attempt);
                     GenerateContent attempt c] in
      match try_once attempt with
      | Ret g =>
          ((called ++ [Log LDebug ("Gemini API 响应成功，长度: "
                                   ++ string_of_Z (utf16_length (g_text g)))])%list,
           Ret g)
      | Throw err =>
          let warned := [Log LWarn ("Gemini API 调用失败 " ++ attempt_tag attempt
                                    ++ ": " ++ message err)] in
          let slept := if (attempt <? maxRetries client)%Z
                       then [SetTimeout (retryDelay client * attempt)%Z]
                       else [] in
          let '(later, r) := generate_from fuel' (attempt + 1)%Z (Some err) in
          ((called ++ warned ++ slept ++ later)%list, r)
      end
  end.

Definition generate : list event * result Generated :=
  generate_from (Z.to_nat (maxRetries client)) 1%Z None.

End Generate.

End GeminiClient.

(* ================================================================== *)
(** ** SummaryScheduler (the scheduler module of ai_summary)           *)
(* ================================================================== *)

Module SummaryScheduler.
Import Js Effects ScreenshotComparer.
Local Open Scope Z_scope.

(** A value per tier: the objects [_executing] and [stats], keyed by the
    tier's name. *)
Record per_tier (A : Type) : Type := mkPerTier {
  at2min : A;
  at10min : A;
  at1h : A
}.

Arguments mkPerTier {A} _ _ _.
Arguments at2min {A} _.
Arguments at10min {A} _.
Arguments at1h {A} _.

Definition get {A : Type} (g : granularity) (m : per_tier A) : A :=
  match g with
  | G2min => at2min m
  | G10min => at10min m
  | G1h => at1h m
  end.

Definition set {A : Type} (g : granularity) (v : A) (m : per_tier A) : per_tier A :=
  match g with
  | G2min => mkPerTier v (at10min m) (at1h m)
  | G10min => mkPerTier (at2min m) v (at1h m)
  | G1h => mkPerTier (at2min m) (at10min m) v
  end.

Record Stats : Type := mkStats {
  count : Z;
  errors : Z;
  skipped : Z
}.

(** [summary.granularity[baseGranularity]]. *)
Record BaseConfig : Type := mkBaseConfig {
  enabled : bool;
  screenshots_per_minute : Z;   (* 0 when not set *)
  history_minutes : Z           (* 0 when not set *)
}.

(** The configuration the scheduler reads. [start_time] and [end_time]
    hold the two numbers that [split(':').map(Number)] yields for the
    validated HH:MM strings; [screenshot_interval] is validated to lie in
    1..3600. *)
Record Config : Type := mkConfig {
  schedule_enabled : bool;
  schedule_days : list string;
  schedule_start_time : Z * Z;
  schedule_end_time : Z * Z;
  granularity_base : option BaseConfig;
  granularity_10min_enabled : bool;
  granularity_10min_history_count : Z;
  granularity_1h_enabled : bool;
  granularity_1h_recent_10min_count : Z;
  granularity_1h_earlier_10min_count : Z;
  screenshot_interval : Z;
  screenshot_format : string
}.

(** The scheduler object. The optional collaborators are recorded by
    whether they were given ([options.x || null]). *)
Record t : Type := mkScheduler {
  config : Config;
  geminiClient : GeminiClient.t;
  tokenTracker : bool;
  activeWindowCollector : bool;
  promptLogger : bool;
  screenshotComparer : bool;
  todoWriter : bool;
  _timer2min : option handle;
  _timer10min : option handle;
  _timer1h : option handle;
  isRunning : bool;
  _executing : per_tier bool;
  stats : per_tier Stats
}.

Definition baseGranularity : granularity := G2min.
Definition baseMinutes : Z := 2.

Definition constructor (cfg : Config) (client : GeminiClient.t)
    (tracker collector plogger comparer writer : bool) : t :=
  {| config := cfg;
     geminiClient := client;
     tokenTracker := tracker;
     activeWindowCollector := collector;
     promptLogger := plogger;
     screenshotComparer := comparer;
     todoWriter := writer;
     _timer2min := None;
     _timer10min := None;
     _timer1h := None;
     isRunning := false;
     _executing := mkPerTier false false false;
     stats := mkPerTier (mkStats 0 0 0) (mkStats 0 0 0) (mkStats 0 0 0) |}.

(** *** Field updates *)

Definition with_executing (g : granularity) (b : bool) (s : t) : t :=
  {| config := config s; geminiClient := geminiClient s;
     tokenTracker := tokenTracker s;
     activeWindowCollector := activeWindowCollector s;
     promptLogger := promptLogger s;
     screenshotComparer := screenshotComparer s;
     todoWriter := todoWriter s;
     _timer2min := _timer2min s; _timer10min := _timer10min s;
     _timer1h := _timer1h s;
     isRunning := isRunning s;
     _executing := set g b (_executing s);
     stats := stats s |}.

Definition with_stats (g : granularity) (f : Stats -> Stats) (s : t) : t :=
  {| config := config s; geminiClient := geminiClient s;
     tokenTracker := tokenTracker s;
     activeWindowCollector := activeWindowCollector s;
     promptLogger := promptLogger s;
     screenshotComparer := screenshotComparer s;
     todoWriter := todoWriter s;
     _timer2min := _timer2min s; _timer10min := _timer10min s;
     _timer1h := _timer1h s;
     isRunning := isRunning s;
     _executing := _executing s;
     stats := set g (f (get g (stats s))) (stats s) |}.

Definition with_timers (t2 t10 t1h : option handle) (running : bool) (s : t) : t :=
  {| config := config s; geminiClient := geminiClient s;
     tokenTracker := tokenTracker s;
     activeWindowCollector := activeWindowCollector s;
     promptLogger := promptLogger s;
     screenshotComparer := screenshotComparer s;
     todoWriter := todoWriter s;
     _timer2min := t2; _timer10min := t10; _timer1h := t1h;
     isRunning := running;
     _executing := _executing s;
     stats := stats s |}.

Definition count_incr (st : Stats) : Stats :=
  mkStats (count st + 1) (errors st) (skipped st).
Definition errors_incr (st : Stats) : Stats :=
  mkStats (count st) (errors st + 1) (skipped st).
Definition skipped_incr (st : Stats) : Stats :=
  mkStats (count st) (errors st) (skipped st + 1).

(** *** Arithmetic built-ins on integers *)

(** [Math.round(a / b)] for integers [a] and [b > 0]: the nearest
    integer, a tie going up. *)
Definition Math_round_div (a b : Z) : Z := (2 * a + b) / (2 * b).

(** [Math.ceil(a / b)] for integers [a] and [b > 0]. *)
Definition Math_ceil_div (a b : Z) : Z := - ((- a) / b).

(** *** The time gate *)

Definition dayNames : list string :=
  ["Sun"; "Mon"; "Tue"; "Wed"; "Thu"; "Fri"; "Sat"].

Definition includes (l : list string) (x : string) : bool :=
  existsb (String.eqb x) l.

(** [_isAllowed], at the instant [now]. *)
Definition _isAllowed (s : t) (now : Date) : bool :=
  let cfg := config s in
  if negb (schedule_enabled cfg) then true
  else
    let currentDay := nth (Z.to_nat (getDay now)) dayNames "" in
    if negb (includes (schedule_days cfg) currentDay) then false
    else
      let currentMinutes := getHours now * 60 + getMinutes now in
      let '(startH, startM) := schedule_start_time cfg in
      let '(endH, endM) := schedule_end_time cfg in
      (currentMinutes >=? startH * 60 + startM)
      && (currentMinutes <=? endH * 60 + endM).

(** *** Gap detection and response parsing *)

Record GapInfo : Type := mkGapInfo {
  gapMinutes : Z;
  lastSummaryTime : string
}.

Section Builtins.

(** [JSON.parse]. *)
Variable JSON_parse : string -> result json.
(** [new Date(str).getTime()], [None] for NaN. *)
Variable Date_parse : string -> option Z.
(** [new Date(ms).toLocaleTimeString('zh-CN')]. *)
Variable toLocaleTimeString : Z -> string.

(** [new Date(v).getTime()] for a value read from a record: a number is
    the time itself (within the range of [Date]), a string is parsed, any
    other value is converted to a primitive first. [None] is NaN. *)
Definition new_Date_getTime (v : json) : option Z :=
  match v with
  | JNum n => if Z.abs n <=? 8640000000000000 then Some n else None
  | JStr str => Date_parse str
  | JBool true => Some 1
  | JBool false => Some 0
  | JNull => Some 0
  | JArr _ | JObj _ => Date_parse (toString v)
  end.

(** [_detectTimeGap], at the instant [now] (milliseconds). A NaN
    difference fails the comparison. *)
Definition _detectTimeGap (historySummaries : list Summary)
    (intervalMinutes : Z) (now : Z) : option GapInfo :=
  match last (map Some historySummaries) None with
  | None => None
  | Some lastSummary =>
      match obj_get "timestamp" lastSummary with
      | None => None
      | Some ts =>
          if negb (truthy ts) then None
          else
            match new_Date_getTime ts with
            | None => None
            | Some lastTime =>
                let diffMs := now - lastTime in
                let diffMinutes := Math_round_div diffMs 60000 in
                if diffMinutes >? intervalMinutes * 2 then
                  Some {| gapMinutes := diffMinutes;
                          lastSummaryTime := toLocaleTimeString lastTime |}
                else None
            end
      end
  end.

Definition fence : string := "```".

(** What follows the first fence of [s]. *)
Fixpoint after_fence (s : string) : option string :=
  match strip_prefix fence s with
  | Some r => Some r
  | None =>
      match s with
      | EmptyString => None
      | String _ s' => after_fence s'
      end
  end.

(** What precedes the first fence of [s]. *)
Fixpoint before_fence (s : string) : option string :=
  match strip_prefix fence s with
  | Some _ => Some EmptyString
  | None =>
      match s with
      | EmptyString => None
      | String ch s' =>
          match before_fence s' with
          | Some b => Some (String ch b)
          | None => None
          end
      end
  end.

(** Group 1 of the leftmost match of the fence expression: a fence, an
    optional [json], white space, then lazily everything up to the next
    fence. No match when no fence closes the first one. *)
Definition fenced_body (s : string) : option string :=
  match after_fence s with
  | None => None
  | Some r =>
      let r1 := match strip_prefix "json" r with
                | Some r' => r'
                | None => r
                end in
      before_fence (trimStart r1)
  end.

Definition _parseResponse (responseText : string) : list event * json :=
  let jsonStr := trim responseText in
  let jsonStr := match fenced_body jsonStr with
                 | Some body => trim body
                 | None => jsonStr
                 end in
  match JSON_parse jsonStr with
  | Ret v => ([], v)
  | Throw err =>
      ([Log LWarn ("响应解析为JSON失败，保存原始文本: " ++ message err)],
       JObj [("raw_response", JStr responseText)])
  end.

(** *** What the collaborators answer *)

(** An entry of the focus-window timeline. *)
Record WindowEntry : Type := mkWindowEntry {
  app : string;
  title : string;
  startTime : Z;
  endTime : Z
}.

(** The answers of the injected collaborators and of the clock during the
    synchronous part of one timer fire: the screenshot reader, the summary
    store (whose directory other runs and processes also write), the
    focus-window collector and the prompt builder. *)
Record TickEnv : Type := mkTickEnv {
  gate_now : Date;                       (* new Date() in _isAllowed *)
  getRecentScreenshotBuffers : Z -> Z -> list Screenshot;
  getRecentSummaries : granularity -> Z -> list Summary;
  getEarlierSummaries : granularity -> Z -> Z -> list Summary;
  Date_now : Z;                          (* Date.now() *)
  getTimelineInRange : Z -> Z -> list WindowEntry;
  formatForPrompt : list WindowEntry -> string;
  gap_now : Z;                           (* new Date() in _detectTimeGap *)
  build2min : list Screenshot -> list Summary -> string -> option GapInfo
              -> string -> contents;
  build10min : list Summary -> list Summary -> string -> contents;
  build1h : list Summary -> list Summary -> string -> contents;
  stamp : Date;                          (* new Date() for the record *)
  save_throws : option error             (* does summaryStore.save throw? *)
}.

(** The same for the part of a run that follows the awaited [generate]. *)
Record SettleEnv : Type := mkSettleEnv {
  api : Z -> result GeminiClient.Response;
  settle_save_throws : option error;
  processResponse_throws : option error  (* does todoWriter.processResponse throw? *)
}.

(** A run suspended at [await this.geminiClient.generate(contents)]. *)
Record Pending : Type := mkPending {
  p_granularity : granularity;
  p_stamp : Date;
  p_contents : contents
}.

(** How the try block was left. *)
Inductive completion : Type :=
| Returned
| Threw (e : error)
| Awaiting (p : Pending).

(** How a call of a tier's pipeline stands when control returns to the
    event loop. *)
Inductive outcome : Type :=
| Dropped                 (* the return before the try block *)
| Completed               (* the finally block has run *)
| Suspended (p : Pending).

Definition tag (g : granularity) : string := "[" ++ granularity_name g ++ "] ".

Definition newline : string := String (ascii_of_N 10) EmptyString.

(** [summaryStore.save(g, ts, data)]. *)
Definition save (throws : option error) (g : granularity) (ts : Date)
    (data : json) : list event * completion :=
  match throws with
  | Some e => ([SaveThrew g ts data], Threw e)
  | None => ([Save g ts data], Returned)
  end.

(** The catch and finally blocks of a pipeline, or its suspension. *)
Definition leave_try (g : granularity) (r : t * list event * completion)
  : t * list event * outcome :=
  let '(s, evs, c) := r in
  match c with
  | Returned => (with_executing g false s, evs, Completed)
  | Threw err =>
      (with_executing g false (with_stats g errors_incr s),
       (evs ++ [Log LError (tag g ++ "总结失败: " ++ message err)])%list,
       Completed)
  | Awaiting p => (s, evs, Suspended p)
  end.

(** The focus-window text of the last [windowMs] milliseconds. *)
Definition window_text (env : TickEnv) (windowMs : Z) : list WindowEntry * string :=
  let endMs := Date_now env in
  let startMs := endMs - windowMs in
  let timeline := getTimelineInRange env startMs endMs in
  (timeline, formatForPrompt env timeline).

(** Steps 4/5 of a pipeline: the text, and the debug line when it is not
    empty. *)
Definition window_step (s : t) (env : TickEnv) (g : granularity) (windowMs : Z)
  : string * list event :=
  if activeWindowCollector s then
    let '(timeline, text) := window_text env windowMs in
    (text,
     if negb (String.eqb text "") then
       [Log LDebug (tag g ++ "焦点窗口信息: "
                    ++ string_of_Z (Z.of_nat (List.length timeline)) ++ " 条记录")]
     else [])
  else ("", []).

(** *** The 2-minute pipeline *)

(** The try block of [_run2min] up to the awaited call. *)
Definition _run2min_try (s : t) (env : TickEnv) : t * list event * completion :=
  let started := [Log LInfo "[2min] 开始总结..."] in
  let disabled := (s, (started ++ [Log LWarn "[2min] 未启用基础粒度，总结跳过"])%list,
                   Returned) in
  match granularity_base (config s) with
  | None => disabled
  | Some baseConfig =>
    if negb (enabled baseConfig) then disabled
    else
      let screenshotsPerMinute :=
        if screenshots_per_minute baseConfig =? 0
        then 60 / screenshot_interval (config s)
        else screenshots_per_minute baseConfig in
      let maxScreenshots := Z.max 1 (screenshotsPerMinute * baseMinutes) in
      let screenshots := getRecentScreenshotBuffers env baseMinutes maxScreenshots in
      match screenshots with
      | [] => (s, (started ++ [Log LWarn "[2min] 没有可用的截图，跳过"])%list, Returned)
      | _ =>
        if screenshotComparer s && allIdentical screenshots then
          let compared := allIdentical_log screenshots in
          let activeWindowTextForSkip :=
            if activeWindowCollector s
            then snd (window_text env (baseMinutes * 60 * 1000))
            else "" in
          match buildNoChange2minRecord screenshots activeWindowTextForSkip with
          | Throw e => (s, (started ++ compared)%list, Threw e)
          | Ret noChangeRecord =>
              let nowSkip := stamp env in
              let logged :=
                if promptLogger s then
                  [PromptLog G2min nowSkip
                     [TextPart ("[截图无变化 - 跳过API请求]" ++ newline
                        ++ "截图数量: "
                        ++ string_of_Z (Z.of_nat (List.length screenshots)) ++ newline
                        ++ "焦点窗口: "
                        ++ (if String.eqb activeWindowTextForSkip "" then "无"
                            else activeWindowTextForSkip))]]
                else [] in
              match save (save_throws env) baseGranularity nowSkip noChangeRecord with
              | (saved, Returned) =>
                  (with_stats G2min skipped_incr s,
                   (started ++ compared ++ logged ++ saved
                    ++ [Log LInfo "[2min] 截图无变化，已使用模板记录（跳过API）"])%list,
                   Returned)
              | (saved, c) => (s, (started ++ compared ++ logged ++ saved)%list, c)
              end
          end
        else
          let historyMinutes := history_minutes baseConfig in
          let historyCount := Z.max 0 (Math_ceil_div historyMinutes baseMinutes) in
          let historySummaries :=
            if historyCount >? 0
            then getRecentSummaries env baseGranularity historyCount
            else [] in
          let gapInfo := _detectTimeGap historySummaries baseMinutes (gap_now env) in
          let gap_logged :=
            match gapInfo with
            | Some gi =>
                [Log LInfo ("[2min] 检测到时间断档: 上次总结在 " ++ lastSummaryTime gi
                            ++ "，中断了约 " ++ string_of_Z (gapMinutes gi) ++ " 分钟")]
            | None => []
            end in
          let '(activeWindowText, window_logged) :=
            window_step s env G2min (baseMinutes * 60 * 1000) in
          let c := build2min env screenshots historySummaries
                     (screenshot_format (config s)) gapInfo activeWindowText in
          let now2min := stamp env in
          let logged := if promptLogger s then [PromptLog G2min now2min c] else [] in
          (s, (started ++ gap_logged ++ window_logged ++ logged)%list,
           Awaiting (mkPending G2min now2min c))
      end
  end.

(** [_run2min], from the timer fire to the first time control returns to
    the event loop. *)
Definition _run2min (s : t) (env : TickEnv) : t * list event * outcome :=
  if get G2min (_executing s) || negb (_isAllowed s (gate_now env)) then (s, [], Dropped)
  else leave_try G2min (_run2min_try (with_executing G2min true s) env).

(** *** The 10-minute pipeline *)

Definition _run10min_try (s : t) (env : TickEnv) : t * list event * completion :=
  let started := [Log LInfo "[10min] 开始总结..."] in
  let recentCount := Z.max 1 (Math_ceil_div 10 baseMinutes) in
  let recent2min := getRecentSummaries env baseGranularity recentCount in
  match recent2min with
  | [] => (s, (started ++ [Log LWarn "[10min] 没有可用的2min总结，跳过"])%list, Returned)
  | _ =>
    if screenshotComparer s && allNoChange recent2min then
      let noChangeRecord := buildNoChange10minRecord recent2min in
      let nowSkip10 := stamp env in
      let n := string_of_Z (Z.of_nat (List.length recent2min)) in
      let logged :=
        if promptLogger s then
          [PromptLog G10min nowSkip10
             [TextPart ("[全部2min子级无变化 - 跳过API请求]" ++ newline
                        ++ "无变化2min记录数: " ++ n)]]
        else [] in
      match save (save_throws env) G10min nowSkip10 noChangeRecord with
      | (saved, Returned) =>
          (with_stats G10min skipped_incr s,
           (started ++ logged ++ saved
            ++ [Log LInfo ("[10min] 所有2min子级均无变化（" ++ n
                           ++ "条），已使用模板记录（跳过API）")])%list,
           Returned)
      | (saved, c) => (s, (started ++ logged ++ saved)%list, c)
      end
    else
      let historyCount := granularity_10min_history_count (config s) in
      let history10min := getRecentSummaries env G10min historyCount in
      let '(activeWindowText10, window_logged) :=
        window_step s env G10min (10 * 60 * 1000) in
      let c := build10min env recent2min history10min activeWindowText10 in
      let now10min := stamp env in
      let logged := if promptLogger s then [PromptLog G10min now10min c] else [] in
      (s, (started ++ window_logged ++ logged)%list,
       Awaiting (mkPending G10min now10min c))
  end.

Definition _run10min (s : t) (env : TickEnv) : t * list event * outcome :=
  if get G10min (_executing s) || negb (_isAllowed s (gate_now env)) then (s, [], Dropped)
  else leave_try G10min (_run10min_try (with_executing G10min true s) env).

(** *** The 1-hour pipeline *)

Definition _run1h_try (s : t) (env : TickEnv) : t * list event * completion :=
  let started := [Log LInfo "[1h] 开始总结..."] in
  let recentCount := granularity_1h_recent_10min_count (config s) in
  let recent10min := getRecentSummaries env G10min recentCount in
  match recent10min with
  | [] => (s, (started ++ [Log LWarn "[1h] 没有可用的10min总结，跳过"])%list, Returned)
  | _ =>
    if screenshotComparer s && allNoChange recent10min then
      let noChangeRecord := buildNoChange1hRecord recent10min in
      let nowSkip1h := stamp env in
      let n := string_of_Z (Z.of_nat (List.length recent10min)) in
      let logged :=
        if promptLogger s then
          [PromptLog G1h nowSkip1h
             [TextPart ("[全部10min子级无变化 - 跳过API请求]" ++ newline
                        ++ "无变化10min记录数: " ++ n)]]
        else [] in
      match save (save_throws env) G1h nowSkip1h noChangeRecord with
      | (saved, Returned) =>
          (with_stats G1h skipped_incr s,
           (started ++ logged ++ saved
            ++ [Log LInfo ("[1h] 所有10min子级均无变化（" ++ n
                           ++ "条），已使用模板记录（跳过API）")])%list,
           Returned)
      | (saved, c) => (s, (started ++ logged ++ saved)%list, c)
      end
    else
      let earlierCount := granularity_1h_earlier_10min_count (config s) in
      let earlier10min := getEarlierSummaries env G10min earlierCount recentCount in
      let '(activeWindowText1h, window_logged) :=
        window_step s env G1h (60 * 60 * 1000) in
      let c := build1h env recent10min earlier10min activeWindowText1h in
      let now1h := stamp env in
      let logged := if promptLogger s then [PromptLog G1h now1h c] else [] in
      (s, (started ++ window_logged ++ logged)%list,
       Awaiting (mkPending G1h now1h c))
  end.

Definition _run1h (s : t) (env : TickEnv) : t * list event * outcome :=
  if get G1h (_executing s) || negb (_isAllowed s (gate_now env)) then (s, [], Dropped)
  else leave_try G1h (_run1h_try (with_executing G1h true s) env).

(** *** After the awaited call *)

(** The rest of the try block of tier [g] once [generate] has settled:
    token record, parse, save, count and, at the base tier ([write_back]),
    the todo write-back inside its own try. The requests, waits and log
    lines of [generate] itself are recorded here, when it settles. *)
Definition after_generate (g : granularity) (write_back : bool) (s : t)
    (p : Pending) (renv : SettleEnv) : t * list event * completion :=
  match GeminiClient.generate (api renv) (geminiClient s) (p_contents p) with
  | (called, Throw err) => (s, called, Threw err)
  | (called, Ret generated) =>
      let responseText := GeminiClient.g_text generated in
      let recorded :=
        match GeminiClient.g_usageMetadata generated with
        | Some usage => if tokenTracker s then [TokenRecord g usage] else []
        | None => []
        end in
      let '(parse_logged, parsed) := _parseResponse responseText in
      match save (settle_save_throws renv) g (p_stamp p) parsed with
      | (saved, Returned) =>
          let written :=
            if write_back && todoWriter s then
              (TodoWrite parsed ::
               match processResponse_throws renv with
               | Some writeErr =>
                   [Log LWarn (tag g ++ "Todo 回写失败: " ++ message writeErr)]
               | None => []
               end)
            else [] in
          (with_stats g count_incr s,
           (called ++ recorded ++ parse_logged ++ saved ++ written
            ++ [Log LInfo (tag g ++ "总结完成")])%list,
           Returned)
      | (saved, c) => (s, (called ++ recorded ++ parse_logged ++ saved)%list, c)
      end
  end.

(** [_run2min], [_run10min] and [_run1h] from the settled [generate] to
    their end. *)
Definition _run2min_resumed (s : t) (p : Pending) (renv : SettleEnv)
  : t * list event * outcome :=
  leave_try G2min (after_generate G2min true s p renv).

Definition _run10min_resumed (s : t) (p : Pending) (renv : SettleEnv)
  : t * list event * outcome :=
  leave_try G10min (after_generate G10min false s p renv).

Definition _run1h_resumed (s : t) (p : Pending) (renv : SettleEnv)
  : t * list event * outcome :=
  leave_try G1h (after_generate G1h false s p renv).

(** The pipeline of a tier, as its timer calls it, and its resumption. *)
Definition run (g : granularity) : t -> TickEnv -> t * list event * outcome :=
  match g with
  | G2min => _run2min
  | G10min => _run10min
  | G1h => _run1h
  end.

Definition resumed (g : granularity)
  : t -> Pending -> SettleEnv -> t * list event * outcome :=
  match g with
  | G2min => _run2min_resumed
  | G10min => _run10min_resumed
  | G1h => _run1h_resumed
  end.

(** *** start and stop *)

(** [start], where [fresh] is the first handle [setInterval] has not yet
    returned. A tier that is not enabled keeps its timer field. *)
Definition start (s : t) (fresh : handle) : t * list event :=
  if isRunning s then (s, [Log LWarn "总结调度器已在运行中"])
  else
    let cfg := config s in
    let base_on := match granularity_base cfg with
                   | Some baseConfig => enabled baseConfig
                   | None => false
                   end in
    let '(t2, ev2, fresh2) :=
      if base_on then
        (Some fresh,
         [Log LInfo ("启用 " ++ granularity_name baseGranularity
                     ++ " 级别总结，间隔: " ++ string_of_Z (baseMinutes * 60) ++ "秒");
          SetInterval fresh G2min (baseMinutes * 60 * 1000)],
         S fresh)
      else (_timer2min s, [], fresh) in
    let '(t10, ev10, fresh10) :=
      if granularity_10min_enabled cfg then
        (Some fresh2,
         [Log LInfo "启用 10min 级别总结，间隔: 600秒";
          SetInterval fresh2 G10min (10 * 60 * 1000)],
         S fresh2)
      else (_timer10min s, [], fresh2) in
    let '(t1h, ev1h) :=
      if granularity_1h_enabled cfg then
        (Some fresh10,
         [Log LInfo "启用 1h 级别总结，间隔: 3600秒";
          SetInterval fresh10 G1h (60 * 60 * 1000)])
      else (_timer1h s, []) in
    (with_timers t2 t10 t1h true s,
     ([Log LInfo "总结调度器启动"] ++ ev2 ++ ev10 ++ ev1h)%list).

(** How a call of [stop] stands when control returns to the event loop. *)
Inductive stop_outcome : Type :=
| StopReturned
| StopSleeping.      (* awaiting the 100 ms timeout of the drain loop *)

Definition stats_line (s : t) : string :=
  let show (g : granularity) :=
    let st := get g (stats s) in
    granularity_name g ++ "=" ++ string_of_Z (count st) ++ "次("
    ++ string_of_Z (errors st) ++ "错误," ++ string_of_Z (skipped st) ++ "跳过)" in
  "总结调度器已停止。统计: " ++ show G2min ++ ", " ++ show G10min ++ ", " ++ show G1h.

(** The drain loop of [stop], from its test: entered when [stop] has
    cleared the timers and again each time the 100 ms timeout fires. *)
Definition stop_poll (s : t) : t * list event * stop_outcome :=
  if get G2min (_executing s) || get G10min (_executing s) || get G1h (_executing s)
  then (s, [SetTimeout 100], StopSleeping)
  else (with_timers (_timer2min s) (_timer10min s) (_timer1h s) false s,
        [Log LInfo (stats_line s)], StopReturned).

Definition clear (timer : option handle) : list event :=
  match timer with
  | Some h => [ClearInterval h]
  | None => []
  end.

(** [stop], from the call to the first time control returns to the event
    loop. *)
Definition stop (s : t) : t * list event * stop_outcome :=
  if negb (isRunning s) then (s, [], StopReturned)
  else
    let cleared := (clear (_timer2min s) ++ clear (_timer10min s)
                    ++ clear (_timer1h s))%list in
    let '(s', polled, o) := stop_poll (with_timers None None None (isRunning s) s) in
    (s', ([Log LInfo "正在停止总结调度器..."] ++ cleared ++ polled)%list, o).

End Builtins.

End SummaryScheduler.

(* ================================================================== *)
(** ** The event loop around one scheduler                             *)
(* ================================================================== *)

Module EventLoop.
Import Js Effects ScreenshotComparer SummaryScheduler.

Section Loop.

Variable JSON_parse : string -> result json.
Variable Date_parse : string -> option Z.
Variable toLocaleTimeString : Z -> string.

(** The process between two turns of the event loop: the scheduler
    object, the live interval timers, the runs suspended at their awaited
    [generate], the calls of [stop] asleep in the drain loop, and all that
    has been done to the collaborators so far. *)
Record World : Type := mkWorld {
  sched : t;
  intervals : list (handle * granularity);
  next_handle : handle;
  awaiting : list Pending;
  stopping : nat;
  trace : list event
}.

Definition init (s : t) : World :=
  {| sched := s; intervals := []; next_handle := O; awaiting := [];
     stopping := O; trace := [] |}.

(** The live timers after the [setInterval] and [clearInterval] calls of
    [evs]. *)
Fixpoint apply_timers (evs : list event) (live : list (handle * granularity))
  : list (handle * granularity) :=
  match evs with
  | [] => live
  | SetInterval h g _ :: rest => apply_timers rest (live ++ [(h, g)])%list
  | ClearInterval h :: rest =>
      apply_timers rest (filter (fun x => negb (Nat.eqb (fst x) h)) live)
  | _ :: rest => apply_timers rest live
  end.

Definition same_tier (g g' : granularity) : bool :=
  match g, g' with
  | G2min, G2min | G10min, G10min | G1h, G1h => true
  | _, _ => false
  end.

Definition is_live (h : handle) (g : granularity) (live : list (handle * granularity))
  : bool :=
  existsb (fun x => Nat.eqb (fst x) h && same_tier (snd x) g) live.

Fixpoint remove_nth {A : Type} (i : nat) (l : list A) : list A :=
  match l, i with
  | [], _ => []
  | _ :: rest, O => rest
  | x :: rest, S i' => x :: remove_nth i' rest
  end.

(** What the event loop may run next. *)
Inductive label : Type :=
| Fire (h : handle) (g : granularity) (env : TickEnv)  (* an interval timer fires *)
| Settle (i : nat) (renv : SettleEnv)    (* the generate of the i-th suspended run settles *)
| CallStart                              (* the host calls start() *)
| CallStop                               (* the host calls stop() *)
| StopWake.                              (* a 100 ms timeout of a drain loop fires *)

(** One turn of the event loop; [None] when the turn is not enabled. *)
Definition step (l : label) (w : World) : option World :=
  match l with
  | Fire h g env =>
      if is_live h g (intervals w) then
        let '(s', evs, o) :=
          run Date_parse toLocaleTimeString g (sched w) env in
        Some {| sched := s';
                intervals := intervals w;
                next_handle := next_handle w;
                awaiting := match o with
                            | Suspended p => (awaiting w ++ [p])%list
                            | _ => awaiting w
                            end;
                stopping := stopping w;
                trace := (trace w ++ evs)%list |}
      else None
  | Settle i renv =>
      match nth_error (awaiting w) i with
      | Some p =>
          let '(s', evs, _) :=
            resumed JSON_parse (p_granularity p) (sched w) p renv in
          Some {| sched := s';
                  intervals := intervals w;
                  next_handle := next_handle w;
                  awaiting := remove_nth i (awaiting w);
                  stopping := stopping w;
                  trace := (trace w ++ evs)%list |}
      | None => None
      end
  | CallStart =>
      let '(s', evs) := start (sched w) (next_handle w) in
      Some {| sched := s';
              intervals := apply_timers evs (intervals w);
              next_handle := (next_handle w + 3)%nat;
              awaiting := awaiting w;
              stopping := stopping w;
              trace := (trace w ++ evs)%list |}
  | CallStop =>
      let '(s', evs, o) := stop (sched w) in
      Some {| sched := s';
              intervals := apply_timers evs (intervals w);
              next_handle := next_handle w;
              awaiting := awaiting w;
              stopping := match o with
                          | StopSleeping => S (stopping w)
                          | StopReturned => stopping w
                          end;
              trace := (trace w ++ evs)%list |}
  | StopWake =>
      match stopping w with
      | O => None
      | S n =>
          let '(s', evs, o) := stop_poll (sched w) in
          Some {| sched := s';
                  intervals := intervals w;
                  next_handle := next_handle w;
                  awaiting := awaiting w;
                  stopping := match o with
                              | StopSleeping => S n
                              | StopReturned => n
                              end;
                  trace := (trace w ++ evs)%list |}
      end
  end.

(** The worlds the process can be in, from a freshly constructed
    scheduler. *)
Inductive reachable : World -> Prop :=
| reach_init : forall cfg client tracker collector plogger comparer writer,
    reachable (init (constructor cfg client tracker collector plogger comparer writer))
| reach_step : forall w l w',
    reachable w -> step l w = Some w' -> reachable w'.

(** The suspended runs of tier [g]. *)
Definition in_flight (g : granularity) (w : World) : nat :=
  List.length (filter (fun p => same_tier (p_granularity p) g) (awaiting w)).

End Loop.

End EventLoop.

(* ================================================================== *)
(** ** Notions the properties are stated with                          *)
(* ================================================================== *)

Module Notions.
Import Js Effects ScreenshotComparer SummaryScheduler EventLoop.

(** *** White space *)

(** The concatenation of a list of strings. *)
Fixpoint sconcat (l : list string) : string :=
  match l with
  | [] => EmptyString
  | w :: rest => w ++ sconcat rest
  end.

(** A string made of white space only (the empty string included). *)
Definition whitespace_only (s : string) : Prop :=
  exists ws, Forall (fun w => In w whitespace) ws /\ s = sconcat ws.

(** [prefixb p q]: [p] is a prefix of [q]. *)
Definition prefixb (p q : string) : bool :=
  match strip_prefix p q with
  | Some _ => true
  | None => false
  end.

(** No pattern of a list is a proper prefix of another one. *)
Definition prefix_free (pats : list string) : bool :=
  forallb (fun p => forallb (fun q => implb (prefixb p q) (String.eqb p q)) pats) pats.

(** Every pattern of a list is non-empty. *)
Definition nonempty_all (pats : list string) : bool :=
  forallb (fun p => negb (String.eqb p "")) pats.

(** *** The retry loop *)

(** A response text that is missing, empty or made of white space only. *)
Definition blank (text : option string) : Prop :=
  match text with
  | None => True
  | Some t => whitespace_only t
  end.

(** The attempts [a, a+1, ..., a+n-1]. *)
Definition range (a : Z) (n : nat) : list Z :=
  map (fun i => (a + Z.of_nat i)%Z) (seq 0 n).

(** One failed attempt, as the service and the timers see it: the request
    and, unless it was the last attempt allowed, the wait that follows. *)
Definition failed_attempt (client : GeminiClient.t) (c : contents) (k : Z)
  : list event :=
  GenerateContent k c ::
  (if (k <? GeminiClient.maxRetries client)%Z
   then [SetTimeout (GeminiClient.retryDelay client * k)%Z]
   else []).

(** What is thrown when the loop is left with [lastError]. *)
Definition exit_error (lastError : option error) : error :=
  match lastError with
  | Some e => e
  | None => TypeError "Cannot read properties of null (reading 'message')"
  end.

(** The error of attempt [k], when it fails. *)
Definition error_of (api : Z -> result GeminiClient.Response) (k : Z) : error :=
  match GeminiClient.try_once api k with
  | Throw e => e
  | Ret _ => GeminiClient.empty_response
  end.

(** *** Gap detection *)

(** The time of a record's timestamp, when the record has a timestamp
    that is truthy and that [Date] can read. *)
Definition record_time (Date_parse : string -> option Z) (r : Summary)
  : option Z :=
  match obj_get "timestamp" r with
  | Some ts => if truthy ts then new_Date_getTime Date_parse ts else None
  | None => None
  end.

(** *** The change detector *)

(** The screenshots the 2-minute pipeline reads. *)
Definition screenshots_read (s : t) (env : TickEnv) (baseConfig : BaseConfig)
  : list Screenshot :=
  getRecentScreenshotBuffers env baseMinutes
    (Z.max 1 ((if (screenshots_per_minute baseConfig =? 0)%Z
               then (60 / screenshot_interval (config s))%Z
               else screenshots_per_minute baseConfig) * baseMinutes)%Z).

(** The child records a parent pipeline reads. *)
Definition children_read (g : granularity) (s : t) (env : TickEnv) : list Summary :=
  match g with
  | G2min => []
  | G10min => getRecentSummaries env baseGranularity
                (Z.max 1 (Math_ceil_div 10 baseMinutes))
  | G1h => getRecentSummaries env G10min
             (granularity_1h_recent_10min_count (config s))
  end.

(** The change detector reports no change: the comparer is there and, at
    the base tier, the tier is enabled and [allIdentical] holds of the
    screenshots read; at the other tiers [allNoChange] holds of the child
    records read. *)
Definition reports_no_change (g : granularity) (s : t) (env : TickEnv) : bool :=
  screenshotComparer s
  && match g with
     | G2min =>
         match granularity_base (config s) with
         | Some baseConfig =>
             enabled baseConfig && allIdentical (screenshots_read s env baseConfig)
         | None => false
         end
     | _ => allNoChange (children_read g s env)
     end.

(** The record of the skip path, where the detector reports no change
    (with no base configuration the base tier has no skip path, and the
    value given here is not used). *)
Definition no_change_record (g : granularity) (s : t) (env : TickEnv) : result json :=
  match g with
  | G2min =>
      match granularity_base (config s) with
      | Some baseConfig =>
          buildNoChange2minRecord (screenshots_read s env baseConfig)
            (if activeWindowCollector s
             then snd (window_text env (baseMinutes * 60 * 1000)%Z)
             else "")
      | None => Throw (Error "")
      end
  | G10min => Ret (buildNoChange10minRecord (children_read G10min s env))
  | G1h => Ret (buildNoChange1hRecord (children_read G1h s env))
  end.

(** *** The event loop *)

(** The suspended runs of tier [g] among [l]. *)
Definition count_tier (g : granularity) (l : list Pending) : nat :=
  List.length (filter (fun p => same_tier (p_granularity p) g) l).

(** The flag of a tier is up exactly while one run of that tier is
    suspended. *)
Definition flags_count (w : World) : Prop :=
  forall g, count_tier g (awaiting w)
            = if get g (_executing (sched w)) then 1%nat else 0%nat.

(** The timer field of a tier. *)
Definition timer_of (g : granularity) (s : t) : option handle :=
  match g with
  | G2min => _timer2min s
  | G10min => _timer10min s
  | G1h => _timer1h s
  end.



End Notions.

(* ================================================================== *)
(** ** Concrete inputs                                                *)
(* ================================================================== *)

Module Sample.
Import Js Effects ScreenshotComparer SummaryScheduler EventLoop.

Definition quote : string := String (ascii_of_N 34) EmptyString.

(** Two texts the analysis service may answer with: the empty object, and
    an object with one timeline entry, a meeting of ten minutes. *)
Definition empty_object_text : string := "{}".

Definition timeline_text : string :=
  "{" ++ quote ++ "activity_timeline" ++ quote ++ ":[{"
  ++ quote ++ "label" ++ quote ++ ":" ++ quote ++ "会议" ++ quote ++ ","
  ++ quote ++ "minutes" ++ quote ++ ":10}]}".

Definition timeline_value : json :=
  JObj [("activity_timeline",
         JArr [JObj [("label", JStr "会议"); ("minutes", JNum 10)]])].

(** [JSON.parse] on the two texts above. On every other text this
    stand-in throws; the runs below parse no other text. *)
Definition JSON_parse (text : string) : result json :=
  if String.eqb text empty_object_text then Ret (JObj [])
  else if String.eqb text timeline_text then Ret timeline_value
  else Throw (Error "Unexpected token").

(** [new Date(str).getTime()] on the two timestamps used below, written
    as [toISOString] writes them. *)
Definition Date_parse (str : string) : option Z :=
  if String.eqb str "2026-02-10T10:02:00.000Z" then Some 1770717720000%Z
  else if String.eqb str "2026-02-10T10:04:00.000Z" then Some 1770717840000%Z
  else None.

(** [toLocaleTimeString('zh-CN')] of those two instants, in the time zone
    of Shanghai. *)
Definition toLocaleTimeString (ms : Z) : string :=
  if (ms =? 1770717720000)%Z then "18:02:00"
  else if (ms =? 1770717840000)%Z then "18:04:00"
  else "".

Definition config : Config :=
  {| schedule_enabled := false;
     schedule_days := ["Mon"; "Tue"; "Wed"; "Thu"; "Fri"];
     schedule_start_time := (9, 0)%Z;
     schedule_end_time := (18, 0)%Z;
     granularity_base := Some (mkBaseConfig true 0 9);
     granularity_10min_enabled := true;
     granularity_10min_history_count := 5;
     granularity_1h_enabled := true;
     granularity_1h_recent_10min_count := 6;
     granularity_1h_earlier_10min_count := 6;
     screenshot_interval := 10;
     screenshot_format := "jpeg" |}.

Definition client : GeminiClient.t :=
  GeminiClient.constructor (GeminiClient.mkConfig 3 2).

(** The scheduler as the service entry point builds it, without a todo
    writer. *)
Definition scheduler : t := constructor config client true true true true false.

(** Tuesday 10 February 2026, 18:06 local time. *)
Definition now : Date := mkDate 1770717960000 2 18 6.

Definition shot (payload : list byte) (ms : Z) : Screenshot :=
  mkScreenshot payload (mkDate ms 2 18 5).

Definition unchanged_screenshots : list Screenshot :=
  [shot [x01; x02; x03] 1770717900000; shot [x01; x02; x03] 1770717910000].

Definition changed_screenshots : list Screenshot :=
  [shot [x01; x02; x03] 1770717900000; shot [x01; x02; x04] 1770717910000].

(** Two base records of consecutive windows, both classified as coding. *)
Definition child (iso : string) : Summary :=
  [("timestamp", JStr iso);
   ("granularity", JStr "2min");
   ("category_type", JArr [JStr "任务"]);
   ("category_name", JArr [JStr "编码"]);
   ("subtask_name", JArr [JStr ""]);
   ("duration_minutes", JNum 2)].

Definition children : list Summary :=
  [child "2026-02-10T10:02:00.000Z"; child "2026-02-10T10:04:00.000Z"].

Definition env (screenshots : list Screenshot) (write_fails : option error) : TickEnv :=
  {| gate_now := now;
     getRecentScreenshotBuffers := fun _ _ => screenshots;
     getRecentSummaries := fun g _ => match g with G2min => children | _ => [] end;
     getEarlierSummaries := fun _ _ _ => [];
     Date_now := 1770717960000;
     getTimelineInRange := fun _ _ => [];
     formatForPrompt := fun _ => "";
     gap_now := 1770717960000;
     build2min := fun _ _ _ _ _ => [TextPart "2min prompt"];
     build10min := fun _ _ _ => [TextPart "10min prompt"];
     build1h := fun _ _ _ => [TextPart "1h prompt"];
     stamp := now;
     save_throws := write_fails |}.

Definition env_unchanged : TickEnv := env unchanged_screenshots None.
Definition env_disk_full : TickEnv :=
  env unchanged_screenshots (Some (Error "ENOSPC: no space left on device")).
Definition env_changed : TickEnv := env changed_screenshots None.


(** The service fails every request. *)
Definition always_fails : SettleEnv :=
  {| api := fun _ => Throw (Error "503 Service Unavailable");
     settle_save_throws := None;
     processResponse_throws := None |}.


(** The process after [start], and after a first 2-minute fire that
    found the screen changed and is awaiting the analysis. *)
Definition world_started : World :=
  match step JSON_parse Date_parse toLocaleTimeString CallStart (init scheduler) with
  | Some w => w
  | None => init scheduler
  end.

Definition world_awaiting : World :=
  match step JSON_parse Date_parse toLocaleTimeString
             (Fire 0%nat G2min env_changed) world_started with
  | Some w => w
  | None => world_started
  end.

End Sample.

(* ================================================================== *)
(** ** Further string built-ins                                        *)
(* ================================================================== *)

Module Text.
Import Js.

Definition dquote : ascii := ascii_of_N 34.
Definition backslash : ascii := ascii_of_N 92.
Definition linefeed : ascii := ascii_of_N 10.

Fixpoint repeat_char (c : ascii) (n : nat) : string :=
  match n with
  | O => EmptyString
  | S n' => String c (repeat_char c n')
  end.

(** [s.padStart(targetLength, c)] for a string [s] of ASCII characters
    (the decimal numerals the code pads). *)
Definition padStart (targetLength : nat) (c : ascii) (s : string) : string :=
  repeat_char c (targetLength - String.length s) ++ s.

(** [s.replace(/c/g, by)] for an ASCII character [c] and a replacement
    text without a dollar sign. *)
Fixpoint replace_char (c : ascii) (replacement : string) (s : string) : string :=
  match s with
  | EmptyString => EmptyString
  | String x rest =>
      if Ascii.eqb x c then replacement ++ replace_char c replacement rest
      else String x (replace_char c replacement rest)
  end.

(** [s.replace(/\s+/g, ' ')], scanning [s] from the left with [fuel]
    steps: a run of white space becomes one space, any other byte is
    kept. *)
Fixpoint collapse (fuel : nat) (s : string) : string :=
  match fuel with
  | O => s
  | S n =>
      match strip_one whitespace s with
      | Some r => String " " (collapse n (strip_many (String.length r) whitespace r))
      | None =>
          match s with
          | EmptyString => EmptyString
          | String x rest => String x (collapse n rest)
          end
      end
  end.

Definition collapse_whitespace (s : string) : string :=
  collapse (String.length s) s.

(** [lines.join(sep)] for an array of strings. *)
Fixpoint join_strings (sep : string) (l : list string) : string :=
  match l with
  | [] => ""
  | [x] => x
  | x :: rest => x ++ sep ++ join_strings sep rest
  end.

(** [s.split('\n')]. *)
Fixpoint split_lines (s : string) : list string :=
  match s with
  | EmptyString => [EmptyString]
  | String c rest =>
      if Ascii.eqb c linefeed then EmptyString :: split_lines rest
      else match split_lines rest with
           | [] => [String c EmptyString]
           | l :: ls => String c l :: ls
           end
  end.

(** [s.replace(pattern, replacement)] for a pattern that is a string and
    a replacement text without a dollar sign: the first occurrence. *)
Fixpoint replace_first (pattern replacement s : string) : string :=
  match strip_prefix pattern s with
  | Some r => replacement ++ r
  | None =>
      match s with
      | EmptyString => EmptyString
      | String c rest => String c (replace_first pattern replacement rest)
      end
  end.

(** The classes [\d] and [\w] of a regular expression. *)
Definition is_digit (c : ascii) : bool :=
  let n := N_of_ascii c in (48 <=? n)%N && (n <=? 57)%N.

Definition is_word (c : ascii) : bool :=
  let n := N_of_ascii c in
  is_digit c || ((65 <=? n)%N && (n <=? 90)%N) || ((97 <=? n)%N && (n <=? 122)%N)
  || (n =? 95)%N.

Fixpoint all_chars (p : ascii -> bool) (s : string) : bool :=
  match s with
  | EmptyString => true
  | String c rest => p c && all_chars p rest
  end.

(** [\d{n}] at the start of [s]: the digits and what follows them. *)
Fixpoint take_digits (n : nat) (s : string) : option (string * string) :=
  match n with
  | O => Some (EmptyString, s)
  | S n' =>
      match s with
      | String c rest =>
          if is_digit c then
            match take_digits n' rest with
            | Some (ds, r) => Some (String c ds, r)
            | None => None
            end
          else None
      | EmptyString => None
      end
  end.

(** The longest run of digits at the start of [s], and what follows. *)
Fixpoint span_digits (s : string) : string * string :=
  match s with
  | String c rest =>
      if is_digit c then let '(ds, r) := span_digits rest in (String c ds, r)
      else (EmptyString, s)
  | EmptyString => (EmptyString, EmptyString)
  end.

(** One given character at the start of [s]. *)
Definition expect (c : ascii) (s : string) : option string :=
  match s with
  | String x rest => if Ascii.eqb x c then Some rest else None
  | EmptyString => None
  end.

(** [Number(s)] for a string of digits. *)
Fixpoint number_from (acc : Z) (s : string) : Z :=
  match s with
  | EmptyString => acc
  | String c rest => number_from (acc * 10 + (Z.of_N (N_of_ascii c) - 48)) rest
  end.

Definition Number (digits : string) : Z := number_from 0 digits.

End Text.

(* ================================================================== *)
(** ** ActiveWindowCollector (in ai_summary/src/screenshot-comparer.js) *)
(* ================================================================== *)

Module ActiveWindowCollector.
Import Js Effects SummaryScheduler Text.
Local Open Scope Z_scope.

(** What the monitor reports of the window in focus. *)
Record WindowInfo : Type := mkWindowInfo {
  info_app : string;
  info_title : string;
  info_timestamp : Z
}.

(** The collector: the closed entries, oldest first, their bound and the
    entry in progress. *)
Record t : Type := mkCollector {
  _timeline : list WindowEntry;
  _maxTimelineSize : Z;
  _currentEntry : option WindowEntry
}.

(** [options.maxHistorySize || 5000], where 0 stands for an option that
    is not given. *)
Definition constructor (maxHistorySize : Z) : t :=
  {| _timeline := [];
     _maxTimelineSize := if maxHistorySize =? 0 then 5000 else maxHistorySize;
     _currentEntry := None |}.

Definition with_endTime (e : WindowEntry) (ms : Z) : WindowEntry :=
  {| app := app e; title := title e; startTime := startTime e; endTime := ms |}.

Definition with_startTime (e : WindowEntry) (ms : Z) : WindowEntry :=
  {| app := app e; title := title e; startTime := ms; endTime := endTime e |}.

Definition entry_of (w : WindowInfo) : WindowEntry :=
  {| app := info_app w; title := info_title w;
     startTime := info_timestamp w; endTime := info_timestamp w |}.

Definition _onPoll (c : t) (windowInfo : WindowInfo) : t :=
  match _currentEntry c with
  | Some cur =>
      {| _timeline := _timeline c;
         _maxTimelineSize := _maxTimelineSize c;
         _currentEntry := Some (with_endTime cur (info_timestamp windowInfo)) |}
  | None =>
      {| _timeline := _timeline c;
         _maxTimelineSize := _maxTimelineSize c;
         _currentEntry := Some (entry_of windowInfo) |}
  end.

(** [push], then [shift] when the bound is exceeded. *)
Definition _closeCurrentEntry (c : t) : t :=
  match _currentEntry c with
  | Some cur =>
      let pushed := (_timeline c ++ [cur])%list in
      {| _timeline := if Z.of_nat (List.length pushed) >? _maxTimelineSize c
                      then tl pushed else pushed;
         _maxTimelineSize := _maxTimelineSize c;
         _currentEntry := None |}
  | None => c
  end.

(** [_onChange(data)], which reads [data.current] only. *)
Definition _onChange (c : t) (current : WindowInfo) : t :=
  let c' := _closeCurrentEntry c in
  {| _timeline := _timeline c';
     _maxTimelineSize := _maxTimelineSize c';
     _currentEntry := Some (entry_of current) |}.

(** What [stop] does to the collector's own state. *)
Definition stop (c : t) : t := _closeCurrentEntry c.

(** The loop of [getTimelineInRange] over the closed entries. *)
Fixpoint closed_in_range (timeline : list WindowEntry) (startMs endMs : Z)
  : list WindowEntry :=
  match timeline with
  | [] => []
  | entry :: rest =>
      if (endTime entry >=? startMs) && (startTime entry <=? endMs) then
        {| app := app entry; title := title entry;
           startTime := Z.max (startTime entry) startMs;
           endTime := Z.min (endTime entry) endMs |}
        :: closed_in_range rest startMs endMs
      else closed_in_range rest startMs endMs
  end.

Definition getTimelineInRange (c : t) (startMs endMs : Z) : list WindowEntry :=
  let results := closed_in_range (_timeline c) startMs endMs in
  match _currentEntry c with
  | Some cur =>
      if startTime cur <=? endMs then
        let entry := with_endTime cur (Z.min (endTime cur) endMs) in
        if endTime entry >=? startMs then
          (results ++ [with_startTime entry (Z.max (startTime entry) startMs)])%list
        else results
      else results
  | None => results
  end.

Definition isSameWindow (current last : WindowEntry) : bool :=
  String.eqb (app current) (app last) && String.eqb (title current) (title last).

(** The loop of [_mergeConsecutiveEntries] from index 1, where [last] is
    the last element of [merged] and what precedes it is already
    returned. *)
Fixpoint merge_from (last : WindowEntry) (rest : list WindowEntry)
  : list WindowEntry :=
  match rest with
  | [] => [last]
  | current :: rest' =>
      if isSameWindow current last && (startTime current - endTime last <=? 2000)
      then merge_from (with_endTime last (endTime current)) rest'
      else last :: merge_from current rest'
  end.

Definition _mergeConsecutiveEntries (timeline : list WindowEntry)
  : list WindowEntry :=
  match timeline with
  | [] => []
  | first :: rest => merge_from first rest
  end.

Definition _buildFullWindowName (entry : WindowEntry) : string :=
  let app := if String.eqb (trim (app entry)) "" then "未知应用"
             else trim (app entry) in
  let title := trim (title entry) in
  if String.eqb title "" then app
  else if String.eqb title app then app
  else app ++ " - " ++ title.

Definition _escapeQuotedText (text : string) : string :=
  trim (collapse_whitespace
          (replace_char dquote (String backslash (String dquote EmptyString))
             (replace_char backslash (String backslash (String backslash EmptyString))
                text))).

Section Clock.

(** [getHours], [getMinutes] and [getSeconds] of [new Date(ms)], in the
    time zone of the host. *)
Variable local_hours : Z -> Z.
Variable local_minutes : Z -> Z.
Variable local_seconds : Z -> Z.

Definition _formatTimestamp (timestampMs : Z) : string :=
  let h := padStart 2 "0" (string_of_Z (local_hours timestampMs)) in
  let m := padStart 2 "0" (string_of_Z (local_minutes timestampMs)) in
  let s := padStart 2 "0" (string_of_Z (local_seconds timestampMs)) in
  h ++ ":" ++ m ++ ":" ++ s.

(** The line of one merged entry. *)
Definition format_entry (entry : WindowEntry) : string :=
  let startStr := _formatTimestamp (startTime entry) in
  let endStr := _formatTimestamp (endTime entry) in
  let windowName := _buildFullWindowName entry in
  let escapedWindowName := _escapeQuotedText windowName in
  String dquote escapedWindowName ++ String dquote " " ++ startStr ++ "-" ++ endStr.

Definition formatForPrompt (timeline : list WindowEntry) : string :=
  match timeline with
  | [] => ""
  | _ =>
      let merged := _mergeConsecutiveEntries timeline in
      join_strings (String linefeed EmptyString) (map format_entry merged)
  end.

End Clock.

(** What reaches the collector, in order: the two events of the monitor
    it listens to, and the call of [stop]. *)
Inductive input : Type :=
| Poll (windowInfo : WindowInfo)
| Change (current : WindowInfo)
| Stop.

Definition handle (c : t) (i : input) : t :=
  match i with
  | Poll w => _onPoll c w
  | Change w => _onChange c w
  | Stop => stop c
  end.

Definition drive (c : t) (inputs : list input) : t := fold_left handle inputs c.

End ActiveWindowCollector.

(* ================================================================== *)
(** ** SummaryStore (in ai_summary/src/token-tracker.js)               *)
(* ================================================================== *)

Module SummaryStore.
Import Js Effects Text.
Local Open Scope Z_scope.

(** An index of [Array.prototype.slice], made relative to the length. *)
Definition relative_index (len i : Z) : Z :=
  if i <? 0 then Z.max (len + i) 0 else Z.min i len.

(** [l.slice(start)] and [l.slice(start, end)]. *)
Definition slice {A : Type} (l : list A) (start : Z) (final : option Z) : list A :=
  let len := Z.of_nat (List.length l) in
  let k := relative_index len start in
  let e := match final with
           | Some i => relative_index len i
           | None => len
           end in
  firstn (Z.to_nat (e - k)) (skipn (Z.to_nat k) l).

(** [s.endsWith(suffix)]. *)
Definition endsWith (s suffix : string) : bool :=
  match strip_prefix (string_rev suffix) (string_rev s) with
  | Some _ => true
  | None => false
  end.

(** The directory of one tier and one day, as a call finds it: whether it
    exists, the names it lists and what reading a file of it as UTF-8
    text gives. *)
Record Dir : Type := mkDir {
  dir_path : string;
  existsSync : bool;
  readdirSync : list string;
  readFileSync : string -> result string
}.

Section Store.

(** [Array.prototype.sort] without a comparison function. *)
Variable sort : list string -> list string.
Variable JSON_parse : string -> result json.

(** The loop over the selected files: a file that cannot be read or
    parsed is reported and left out. *)
Fixpoint read_selected (dir : Dir) (selected : list string)
  : list event * list json :=
  match selected with
  | [] => ([], [])
  | file :: rest =>
      let '(later, summaries) := read_selected dir rest in
      let failed (err : error) :=
        (Log LError ("读取总结文件失败: " ++ file ++ " - " ++ message err) :: later,
         summaries) in
      match readFileSync dir file with
      | Ret content =>
          match JSON_parse content with
          | Ret v => (later, v :: summaries)
          | Throw err => failed err
          end
      | Throw err => failed err
      end
  end.

(** The files of a directory the store reads, in the order of their
    names. *)
Definition json_files (dir : Dir) : list string :=
  sort (filter (fun f => endsWith f ".json") (readdirSync dir)).

(** [getRecentSummaries(granularity, count)], where [dir] is the
    directory of the granularity for the current day. *)
Definition getRecentSummaries (dir : Dir) (count : Z) : list event * list json :=
  if negb (existsSync dir) then
    ([Log LDebug ("总结目录不存在: " ++ dir_path dir)], [])
  else
    let files := json_files dir in
    let selected := slice files (- count) None in
    read_selected dir selected.

(** [getEarlierSummaries(granularity, count, skip)]. *)
Definition getEarlierSummaries (dir : Dir) (count skip : Z)
  : list event * list json :=
  if negb (existsSync dir) then ([], [])
  else
    let files := json_files dir in
    let endIndex := Z.max 0 (Z.of_nat (List.length files) - skip) in
    let startIndex := Z.max 0 (endIndex - count) in
    let selected := slice files startIndex (Some endIndex) in
    read_selected dir selected.

End Store.

(** [o[k] = v] on the fields of an object: the value of an existing key
    is replaced where it stands, a new key is added at the end. *)
Fixpoint obj_set (k : string) (v : json) (fields : list (string * json))
  : list (string * json) :=
  match fields with
  | [] => [(k, v)]
  | (k', v') :: rest =>
      if String.eqb k k' then (k, v) :: rest else (k', v') :: obj_set k v rest
  end.

(** The record [save] writes for a [data] that is an object:
    [{ timestamp: timestamp.toISOString(), granularity, ...data }]. *)
Definition record_of (iso : string) (granularity : string)
    (data : list (string * json)) : list (string * json) :=
  fold_left (fun fields kv => obj_set (fst kv) (snd kv) fields) data
    [("timestamp", JStr iso); ("granularity", JStr granularity)].

End SummaryStore.

(* ================================================================== *)
(** ** Storage (auto_screenshot/src/storage.js), the naming of files   *)
(* ================================================================== *)

Module Storage.
Import Js Text.
Local Open Scope Z_scope.

(** The pattern of [config.naming] when none is configured. *)
Definition default_pattern : string := "{date}_{time}_{monitor}".

(** [format === 'png' ? 'png' : 'jpeg']. *)
Definition constructor_format (format : string) : string :=
  if String.eqb format "png" then "png" else "jpeg".

Section Clock.

(** [getFullYear], [getMonth], [getDate] and [getSeconds] of a [Date],
    in the time zone of the host. *)
Variable getFullYear : Date -> Z.
Variable getMonth : Date -> Z.
Variable getDate : Date -> Z.
Variable getSeconds : Date -> Z.

(** [getCurrentDate] and [getCurrentTime], each at the instant of its own
    [new Date()]. *)
Definition getCurrentDate (now : Date) : string :=
  let year := getFullYear now in
  let month := padStart 2 "0" (string_of_Z (getMonth now + 1)) in
  let day := padStart 2 "0" (string_of_Z (getDate now)) in
  string_of_Z year ++ "-" ++ month ++ "-" ++ day.

Definition getCurrentTime (now : Date) : string :=
  let hours := padStart 2 "0" (string_of_Z (getHours now)) in
  let minutes := padStart 2 "0" (string_of_Z (getMinutes now)) in
  let seconds := padStart 2 "0" (string_of_Z (getSeconds now)) in
  hours ++ "-" ++ minutes ++ "-" ++ seconds.

(** [generateFileName(monitorIndex)] of a storage with the naming
    pattern [pattern] and the format [format], where [date_now] and
    [time_now] are the instants of the two [new Date()] and [Date_now] is
    [Date.now()]. *)
Definition generateFileName (pattern format : string)
    (date_now time_now : Date) (Date_now : Z) (monitorIndex : Z) : string :=
  let date := getCurrentDate date_now in
  let time := getCurrentTime time_now in
  let monitor := string_of_Z monitorIndex in
  let timestamp := Date_now in
  let fileName :=
    replace_first "{timestamp}" (string_of_Z timestamp)
      (replace_first "{monitor}" monitor
         (replace_first "{time}" time
            (replace_first "{date}" date pattern))) in
  fileName ++ "." ++ format.

End Clock.

End Storage.

(* ================================================================== *)
(** ** ScreenshotReader (ai_summary/src/screenshot-reader.js)          *)
(* ================================================================== *)

Module ScreenshotReader.
Import Js Effects ScreenshotComparer Text.
Local Open Scope Z_scope.

(** A file found in the directory of a day. *)
Record ShotFile : Type := mkShotFile {
  path : string;
  shot_timestamp : Date
}.

(** The directory of the day of a query, as the call finds it, and what
    reading a file gives. *)
Record Dir : Type := mkDir {
  dateDir : string;
  existsSync : bool;
  readdirSync : list string;
  readFileSync : string -> result Buffer
}.

Section Reader.

(** [new Date(year, monthIndex, day, hours, minutes, seconds)], in the
    time zone of the host. *)
Variable Date_local : Z -> Z -> Z -> Z -> Z -> Z -> Date.
(** [path.join(dir, file)]. *)
Variable path_join : string -> string -> string.

(** The match of the file name against
    [^(\d{4}-\d{2}-\d{2})_(\d{2})-(\d{2})-(\d{2})_\d+\.\w+$] and the date
    built from its groups. *)
Definition _parseTimestamp (fileName : string) : option Date :=
  match take_digits 4 fileName with
  | None => None
  | Some (year, s1) =>
  match expect "-" s1 with None => None | Some s2 =>
  match take_digits 2 s2 with None => None | Some (month, s3) =>
  match expect "-" s3 with None => None | Some s4 =>
  match take_digits 2 s4 with None => None | Some (day, s5) =>
  match expect "_" s5 with None => None | Some s6 =>
  match take_digits 2 s6 with None => None | Some (hours, s7) =>
  match expect "-" s7 with None => None | Some s8 =>
  match take_digits 2 s8 with None => None | Some (minutes, s9) =>
  match expect "-" s9 with None => None | Some s10 =>
  match take_digits 2 s10 with None => None | Some (seconds, s11) =>
  match expect "_" s11 with None => None | Some s12 =>
  match span_digits s12 with
  | (EmptyString, _) => None
  | (_, s13) =>
  match expect "." s13 with None => None | Some extension =>
    if negb (String.eqb extension "") && all_chars is_word extension then
      Some (Date_local (Number year) (Number month - 1) (Number day)
              (Number hours) (Number minutes) (Number seconds))
    else None
  end end end end end end end end end end end end end
  end.

(** The loop of [getScreenshotsInRange] over the names of the directory,
    where the two dates are given by their [getTime]. *)
Fixpoint in_range (format : string) (dir : Dir) (files : list string)
    (startTime endTime : Z) : list ShotFile :=
  match files with
  | [] => []
  | file :: rest =>
      let ext := if String.eqb format "png" then ".png" else ".jpeg" in
      let later := in_range format dir rest startTime endTime in
      if negb (SummaryStore.endsWith file ext) then later
      else
        match _parseTimestamp file with
        | None => later
        | Some timestamp =>
            if (getTime timestamp >=? startTime) && (getTime timestamp <=? endTime)
            then mkShotFile (path_join (dateDir dir) file) timestamp :: later
            else later
        end
  end.

(** [sort((a, b) => a.timestamp - b.timestamp)]: the order of time, two
    files of the same instant staying in the order they had. *)
Fixpoint insert_by_time (x : ShotFile) (sorted : list ShotFile) : list ShotFile :=
  match sorted with
  | [] => [x]
  | y :: rest =>
      if getTime (shot_timestamp x) <=? getTime (shot_timestamp y)
      then x :: y :: rest
      else y :: insert_by_time x rest
  end.

Definition sort_by_time (l : list ShotFile) : list ShotFile :=
  fold_right insert_by_time [] l.

Definition getScreenshotsInRange (format : string) (dir : Dir)
    (startTime endTime : Z) : list event * list ShotFile :=
  if negb (existsSync dir) then
    ([Log LWarn ("截图目录不存在: " ++ dateDir dir)], [])
  else
    ([], sort_by_time (in_range format dir (readdirSync dir) startTime endTime)).

(** [getRecentScreenshots(minutes)] at the instant [now], where [dir] is
    the directory of the day of [now]. *)
Definition getRecentScreenshots (format : string) (dir : Dir) (now : Z)
    (minutes : Z) : list event * list ShotFile :=
  getScreenshotsInRange format dir (now - minutes * 60 * 1000) now.

(** The loop of [getRecentScreenshotBuffers] over the selected files: a
    file that cannot be read is reported and left out. *)
Fixpoint read_buffers (dir : Dir) (selected : list ShotFile)
  : list event * list Screenshot :=
  match selected with
  | [] => ([], [])
  | shot :: rest =>
      let '(later, results) := read_buffers dir rest in
      match readFileSync dir (path shot) with
      | Ret data => (later, mkScreenshot data (shot_timestamp shot) :: results)
      | Throw err =>
          (Log LError ("读取截图文件失败: " ++ path shot ++ " - " ++ message err)
           :: later, results)
      end
  end.

Definition getRecentScreenshotBuffers (format : string) (dir : Dir) (now : Z)
    (minutes maxCount : Z) : list event * list Screenshot :=
  let '(found, screenshots) := getRecentScreenshots format dir now minutes in
  let selected := SummaryStore.slice screenshots (- maxCount) None in
  let '(read, results) := read_buffers dir selected in
  let short :=
    if Z.of_nat (List.length results) <? maxCount then
      [Log LWarn ("截图数量不足: 期望 " ++ string_of_Z maxCount ++ " 张，实际 "
                  ++ string_of_Z (Z.of_nat (List.length results)) ++ " 张")]
    else [] in
  ((found ++ read ++ short)%list, results).

End Reader.

End ScreenshotReader.

(* ================================================================== *)
(** ** TokenTracker (ai_summary/src/token-tracker.js), the session     *)
(* ================================================================== *)

Module TokenTracker.
Import Js Effects Text.
Local Open Scope Z_scope.

(** The six token counts a record and a bucket both hold. *)
Record Counts : Type := mkCounts {
  prompt_tokens : Z;
  candidates_tokens : Z;
  thoughts_tokens : Z;
  total_tokens : Z;
  prompt_text_tokens : Z;
  prompt_image_tokens : Z
}.

(** A bucket: the number of calls and the sums of their counts. *)
Record Bucket : Type := mkBucket {
  count : Z;
  sums : Counts
}.

(** A record of one call. *)
Record Record_ : Type := mkRecord {
  time : string;
  minute : string;
  granularity_of : granularity;
  counts : Counts
}.

(** An element of [usageMetadata.promptTokensDetails]; [tokenCount] is 0
    when the element has none. *)
Record Detail : Type := mkDetail {
  modality : string;
  tokenCount : Z
}.

(** The [usageMetadata] of a response, as the API declares it: four
    counts, each 0 when it is absent, and the details, which may be
    absent. *)
Record UsageMetadata : Type := mkUsageMetadata {
  promptTokenCount : Z;
  candidatesTokenCount : Z;
  thoughtsTokenCount : Z;
  totalTokenCount : Z;
  promptTokensDetails : option (list Detail)
}.

(** The tracker: the records of the session and the bucket of each
    tier. *)
Record t : Type := mkTracker {
  sessionId : string;
  records : list Record_;
  summaryByGranularity : SummaryScheduler.per_tier Bucket
}.

Definition _emptyBucket : Bucket := mkBucket 0 (mkCounts 0 0 0 0 0 0).

Definition constructor (sessionId : string) : t :=
  {| sessionId := sessionId;
     records := [];
     summaryByGranularity :=
       SummaryScheduler.mkPerTier _emptyBucket _emptyBucket _emptyBucket |}.

(** What a call of [record] does outside the tracker. *)
Inductive output : Type :=
| Logged (l : level) (msg : string)
| Persisted (date : string) (r : Record_).    (* the day's file, rewritten *)

(** The loop over the details: the count of the last element of each of
    the two modalities. *)
Fixpoint text_and_image (details : list Detail) (text image : Z) : Z * Z :=
  match details with
  | [] => (text, image)
  | detail :: rest =>
      if String.eqb (modality detail) "TEXT"
      then text_and_image rest (tokenCount detail) image
      else if String.eqb (modality detail) "IMAGE"
      then text_and_image rest text (tokenCount detail)
      else text_and_image rest text image
  end.

Definition add_to (bucket : Bucket) (r : Record_) : Bucket :=
  {| count := count bucket + 1;
     sums :=
       {| prompt_tokens := prompt_tokens (sums bucket) + prompt_tokens (counts r);
          candidates_tokens :=
            candidates_tokens (sums bucket) + candidates_tokens (counts r);
          thoughts_tokens := thoughts_tokens (sums bucket) + thoughts_tokens (counts r);
          total_tokens := total_tokens (sums bucket) + total_tokens (counts r);
          prompt_text_tokens :=
            prompt_text_tokens (sums bucket) + prompt_text_tokens (counts r);
          prompt_image_tokens :=
            prompt_image_tokens (sums bucket) + prompt_image_tokens (counts r) |} |}.

Section Clock.

Variable toISOString : Date -> string.
Variable getFullYear : Date -> Z.
Variable getMonth : Date -> Z.
Variable getDate : Date -> Z.

Definition _formatDate (date : Date) : string :=
  let y := getFullYear date in
  let m := padStart 2 "0" (string_of_Z (getMonth date + 1)) in
  let d := padStart 2 "0" (string_of_Z (getDate date)) in
  string_of_Z y ++ "-" ++ m ++ "-" ++ d.

Definition _formatMinute (date : Date) : string :=
  let h := padStart 2 "0" (string_of_Z (getHours date)) in
  let m := padStart 2 "0" (string_of_Z (getMinutes date)) in
  h ++ ":" ++ m.

(** [record(granularity, usageMetadata)] at the instant [now];
    [persist_fails] tells whether reading or writing the day's file
    throws, which [_persistRecord] catches. *)
Definition record (tr : t) (now : Date) (g : granularity)
    (usageMetadata : option UsageMetadata) (persist_fails : option error)
  : t * list output :=
  match usageMetadata with
  | None => (tr, [Logged LWarn "TokenTracker: usageMetadata 为空，跳过记录"])
  | Some usage =>
      let '(promptTextTokens, promptImageTokens) :=
        match promptTokensDetails usage with
        | Some details => text_and_image details 0 0
        | None => (0, 0)
        end in
      let r :=
        {| time := toISOString now;
           minute := _formatMinute now;
           granularity_of := g;
           counts :=
             {| prompt_tokens := promptTokenCount usage;
                candidates_tokens := candidatesTokenCount usage;
                thoughts_tokens := thoughtsTokenCount usage;
                total_tokens := totalTokenCount usage;
                prompt_text_tokens := promptTextTokens;
                prompt_image_tokens := promptImageTokens |} |} in
      let bucket := SummaryScheduler.get g (summaryByGranularity tr) in
      let persisted :=
        match persist_fails with
        | Some err => Logged LError ("TokenTracker 持久化失败: " ++ message err)
        | None => Persisted (_formatDate now) r
        end in
      ({| sessionId := sessionId tr;
          records := (records tr ++ [r])%list;
          summaryByGranularity :=
            SummaryScheduler.set g (add_to bucket r) (summaryByGranularity tr) |},
       [persisted;
        Logged LDebug
          ("TokenTracker: [" ++ granularity_name g ++ "] "
           ++ "prompt=" ++ string_of_Z (prompt_tokens (counts r))
           ++ " (text=" ++ string_of_Z promptTextTokens
           ++ ", image=" ++ string_of_Z promptImageTokens ++ "), "
           ++ "output=" ++ string_of_Z (candidates_tokens (counts r))
           ++ ", thoughts=" ++ string_of_Z (thoughts_tokens (counts r)) ++ ", "
           ++ "total=" ++ string_of_Z (total_tokens (counts r)))])
  end.

End Clock.




End TokenTracker.

(* ================================================================== *)
(** ** PromptBuilder (ai_summary/src/prompt-builder.js), the escaping  *)
(* ================================================================== *)

Module PromptBuilder.
Import Js Text.

(** [_escapeXml(str)] for a string, or for the [undefined] of a field
    that is missing. *)
Definition _escapeXml (str : option string) : string :=
  match str with
  | None => ""
  | Some s =>
      if String.eqb s "" then ""
      else
        replace_char "'" "&apos;"
          (replace_char dquote "&quot;"
             (replace_char ">" "&gt;"
                (replace_char "<" "&lt;"
                   (replace_char "&" "&amp;" s))))
  end.

End PromptBuilder.

(* ================================================================== *)
(** ** TodoWriter (ai_summary/src/todo-writer.js)                       *)
(* ================================================================== *)

Module TodoWriter.
Import Js Effects Text.

(** What reading a file and parsing its text gives. *)
Inductive file : Type :=
| Missing                       (* existsSync is false *)
| Unreadable (err : error)      (* readFileSync or JSON.parse throws *)
| Content (data : json).

(** The two files, and the number of calls made so far of what the
    writer does not decide itself: [uuidv4()], [new Date()] and
    [_writeJSON]. *)
Record World : Type := mkWorld {
  todos_json : file;
  behaviors_json : file;
  calls : nat
}.

Record t : Type := mkTodoWriter {
  todoDataDir : string;
  todosFile : string;
  behaviorsFile : string
}.

Definition after_calls (n : nat) (w : World) : World :=
  {| todos_json := todos_json w;
     behaviors_json := behaviors_json w;
     calls := (calls w + n)%nat |}.

Definition with_todos (f : file) (w : World) : World :=
  {| todos_json := f; behaviors_json := behaviors_json w; calls := calls w |}.

Definition with_behaviors (f : file) (w : World) : World :=
  {| todos_json := todos_json w; behaviors_json := f; calls := calls w |}.

(** [l[i] = x] for an index inside the array. *)
Fixpoint replace_at {A : Type} (i : nat) (x : A) (l : list A) {struct l} : list A :=
  match l, i with
  | [], _ => []
  | _ :: rest, O => x :: rest
  | y :: rest, S i' => y :: replace_at i' x rest
  end.

(** [item[key] === value], as the callbacks of [find] evaluate it: the
    property read throws on [null], and gives [undefined] on a value that
    is not an object. *)
Definition has_field (key value : string) (item : json) : result bool :=
  match item with
  | JNull =>
      Throw (TypeError ("Cannot read properties of null (reading '" ++ key ++ "')"))
  | JObj fields =>
      Ret (match obj_get key fields with
           | Some (JStr s) => String.eqb s value
           | _ => false
           end)
  | _ => Ret false
  end.

(** The index of the first element the callback accepts. *)
Fixpoint find_index (key value : string) (items : list json) : result (option nat) :=
  match items with
  | [] => Ret None
  | item :: rest =>
      match has_field key value item with
      | Throw e => Throw e
      | Ret true => Ret (Some O)
      | Ret false =>
          match find_index key value rest with
          | Ret (Some i) => Ret (Some (S i))
          | other => other
          end
      end
  end.

(** [v.find(x => x[key] === value)] for the value [v] the expression
    [expr] has: only an array has a [find]. *)
Definition find (expr key value : string) (v : option json) : result (option nat) :=
  match v with
  | Some (JArr items) => find_index key value items
  | Some JNull => Throw (TypeError "Cannot read properties of null (reading 'find')")
  | None => Throw (TypeError "Cannot read properties of undefined (reading 'find')")
  | Some _ => Throw (TypeError (expr ++ ".find is not a function"))
  end.

Definition items_of (v : json) : list json :=
  match v with
  | JArr items => items
  | _ => []
  end.

(** The elements of a property that holds an array. *)
Definition elements (v : option json) : list json :=
  match v with
  | Some (JArr items) => items
  | _ => []
  end.

Definition fields_of (v : option json) : list (string * json) :=
  match v with
  | Some (JObj fields) => fields
  | _ => []
  end.

Definition _readJSON (filePath : string) (f : file) (defaultValue : json)
  : json * list event :=
  match f with
  | Missing => (defaultValue, [])
  | Unreadable err =>
      (defaultValue,
       [Log LWarn ("读取文件失败: " ++ filePath ++ " - " ++ message err)])
  | Content data => (data, [])
  end.


Section Host.

Variable path_join : string -> string -> string.
(** The results of the n-th call: the identifier [uuidv4()] returns, the
    text of [new Date().toISOString()], and what [_writeJSON] throws
    when it does, in which case the file is left as it was. *)
Variable uuidv4 : nat -> string.
Variable now_toISOString : nat -> string.
Variable write_throws : nat -> option error.

Definition constructor (todoDataDir : string) : t :=
  {| todoDataDir := todoDataDir;
     todosFile := path_join todoDataDir "todos.json";
     behaviorsFile := path_join todoDataDir "behaviors.json" |}.

(** [_writeJSON] of the todos and of the behaviors. *)
Definition write_todos (w : World) (data : json) : World * option error :=
  match write_throws (calls w) with
  | Some err => (after_calls 1 w, Some err)
  | None => (after_calls 1 (with_todos (Content data) w), None)
  end.

Definition write_behaviors (w : World) (data : json) : World * option error :=
  match write_throws (calls w) with
  | Some err => (after_calls 1 w, Some err)
  | None => (after_calls 1 (with_behaviors (Content data) w), None)
  end.

(** The subtask object, made with the calls [n], [n + 1] and [n + 2]. *)
Definition new_subtask (n : nat) (subtaskName : string) : json :=
  JObj [("id", JStr (uuidv4 n));
        ("title", JStr subtaskName);
        ("completed", JBool false);
        ("createdAt", JStr (now_toISOString (n + 1)));
        ("updatedAt", JStr (now_toISOString (n + 2)));
        ("source", JStr "ai")].

(** [task.children.push(child); task.updatedAt = stamp] on the fields of
    a task whose children are [children]. *)
Definition with_child (fields : list (string * json)) (children : list json)
    (child : json) (stamp : string) : list (string * json) :=
  SummaryStore.obj_set "updatedAt" (JStr stamp)
    (SummaryStore.obj_set "children" (JArr (children ++ [child])%list) fields).

Definition subtask_created (taskName subtaskName : string) : event :=
  Log LInfo ("[Todo回写] 在任务"
             ++ String dquote (taskName
             ++ String dquote ("下创建子任务: " ++ subtaskName))).

(** What a call gives: the world after it, what it logged, and what it
    threw if it did not return. *)
Definition outcome : Type := (World * list event * option error)%type.

Definition _ensureTask (tw : t) (w : World) (taskName subtaskName : string)
  : outcome :=
  if String.eqb taskName "" then (w, [], None)
  else
    let '(todos, read_logged) := _readJSON (todosFile tw) (todos_json w) (JArr []) in
    match find "todos" "title" taskName (Some todos) with
    | Throw e => (w, read_logged, Some e)
    | Ret found =>
        let '(w1, items, index, created) :=
          match found with
          | Some i => (w, items_of todos, i, [])
          | None =>
              let n := calls w in
              let task :=
                JObj [("id", JStr (uuidv4 n));
                      ("title", JStr taskName);
                      ("description", JStr "");
                      ("type", JStr "normal");
                      ("completed", JBool false);
                      ("createdAt", JStr (now_toISOString (n + 1)));
                      ("updatedAt", JStr (now_toISOString (n + 2)));
                      ("source", JStr "ai");
                      ("children", JArr [])] in
              (after_calls 3 w, (items_of todos ++ [task])%list,
               List.length (items_of todos),
               [Log LInfo ("[Todo回写] 创建新任务: " ++ taskName)])
          end in
        let task := fields_of (nth_error items index) in
        let added :=
          if String.eqb subtaskName "" then Ret None
          else
            match find "task.children" "title" subtaskName (obj_get "children" task) with
            | Throw e => Throw e
            | Ret (Some _) => Ret None
            | Ret None => Ret (Some (elements (obj_get "children" task)))
            end in
        match added with
        | Throw e => (w1, (read_logged ++ created)%list, Some e)
        | Ret None =>
            let '(w2, thrown) := write_todos w1 (JArr items) in
            (w2, (read_logged ++ created)%list, thrown)
        | Ret (Some children) =>
            let n := calls w1 in
            let child := new_subtask n subtaskName in
            let task' :=
              JObj (with_child task children child (now_toISOString (n + 3))) in
            let '(w2, thrown) :=
              write_todos (after_calls 4 w1) (JArr (replace_at index task' items)) in
            (w2,
             (read_logged ++ created ++ [subtask_created taskName subtaskName])%list,
             thrown)
        end
    end.






End Host.

End TodoWriter.

(* ================================================================== *)
(** ** Further concrete inputs                                         *)
(* ================================================================== *)

Module Fixture.
Import Js Effects ScreenshotComparer SummaryScheduler EventLoop.
Local Open Scope Z_scope.

(** A schedule meant to run over night, from 22:00 to 06:00. *)
Definition night_config : Config :=
  {| schedule_enabled := true;
     schedule_days := ["Mon"; "Tue"; "Wed"; "Thu"; "Fri"];
     schedule_start_time := (22, 0);
     schedule_end_time := (6, 0);
     granularity_base := Some (mkBaseConfig true 0 9);
     granularity_10min_enabled := true;
     granularity_10min_history_count := 5;
     granularity_1h_enabled := true;
     granularity_1h_recent_10min_count := 6;
     granularity_1h_earlier_10min_count := 6;
     screenshot_interval := 10;
     screenshot_format := "jpeg" |}.

Definition night_scheduler : SummaryScheduler.t :=
  SummaryScheduler.constructor night_config Sample.client true true true true false.

(** The process after [start] and a first 2-minute fire that found the
    screen unchanged. *)
Definition world_skipped : World :=
  match step Sample.JSON_parse Sample.Date_parse Sample.toLocaleTimeString
             (Fire 0%nat G2min Sample.env_unchanged) Sample.world_started with
  | Some w => w
  | None => Sample.world_started
  end.

(** An answer with text around a fenced block. *)
Definition fenced_text : string := "结果如下 ```json {} ``` 以上。".

(** Three reports of the monitor and a stop. *)
Definition editor (ms : Z) : ActiveWindowCollector.WindowInfo :=
  ActiveWindowCollector.mkWindowInfo "Code" "main.js" ms.

Definition browser (ms : Z) : ActiveWindowCollector.WindowInfo :=
  ActiveWindowCollector.mkWindowInfo "Chrome" "文档" ms.

Definition inputs : list ActiveWindowCollector.input :=
  [ActiveWindowCollector.Poll (editor 1000);
   ActiveWindowCollector.Change (browser 2000);
   ActiveWindowCollector.Poll (browser 3000);
   ActiveWindowCollector.Stop].

(** [Array.prototype.sort] on file names: insertion by the order of
    their bytes. *)
Fixpoint insert_name (x : string) (sorted : list string) : list string :=
  match sorted with
  | [] => [x]
  | y :: rest => if String.leb x y then x :: y :: rest else y :: insert_name x rest
  end.

Definition sort (l : list string) : list string := fold_right insert_name [] l.

(** The directory of the 10-minute records of a day: three records and a
    file that is not one. *)
Definition summaries : SummaryStore.Dir :=
  {| SummaryStore.dir_path := "summaries/10min/2026-02-10";
     SummaryStore.existsSync := true;
     SummaryStore.readdirSync := ["10-20.json"; "10-00.json"; "notes.txt"; "10-10.json"];
     SummaryStore.readFileSync :=
       fun file =>
         if String.eqb file "10-10.json" then Ret Sample.timeline_text
         else Ret Sample.empty_object_text |}.

(** An answer that carries a time of its own. *)
Definition answer : list (string * json) :=
  [("timestamp", JStr "2026-02-10T09:00:00.000Z"); ("summary", JStr "写代码")].

(** The getters the naming reads of its dates, for 10 February 2026,
    18:05:07 local time. *)
Definition getFullYear (d : Date) : Z := 2026.
Definition getMonth (d : Date) : Z := 1.
Definition getDate (d : Date) : Z := 10.
Definition getSeconds (d : Date) : Z := 7.

Definition local_now : Date := mkDate 1770717907000 2 18 5.

(** [new Date(year, monthIndex, day, hours, minutes, seconds)] for the
    days of February 2026 in the time zone of Shanghai. *)
Definition Date_local (year monthIndex day hours minutes seconds : Z) : Date :=
  mkDate (1769875200000 + ((((day - 1) * 24 + hours) * 60 + minutes) * 60 + seconds) * 1000)
         ((day - 1) mod 7) hours minutes.

Definition path_join (a b : string) : string := (a ++ "/" ++ b)%string.

(** The screenshots of the day: three of the last minutes, listed out of
    order, one of which cannot be read, and a file of another kind. *)
Definition screenshots : ScreenshotReader.Dir :=
  {| ScreenshotReader.dateDir := "screenshots/2026-02-10";
     ScreenshotReader.existsSync := true;
     ScreenshotReader.readdirSync :=
       ["2026-02-10_18-05-40_0.jpeg"; "2026-02-10_18-05-20_0.jpeg";
        "thumbs.db"; "2026-02-10_18-05-30_0.jpeg"];
     ScreenshotReader.readFileSync :=
       fun file =>
         if String.eqb file "screenshots/2026-02-10/2026-02-10_18-05-30_0.jpeg"
         then Throw (Error "EACCES: permission denied")
         else Ret [x01; x02; x03] |}.

(** 18:06:00 of that day. *)
Definition reader_now : Z := 1770717960000.

(** The host of the todo writer: identifiers by the number of the call,
    one instant, and writes that succeed. *)
Definition uuidv4 (n : nat) : string := ("id-" ++ string_of_Z (Z.of_nat n))%string.
Definition now_toISOString (n : nat) : string := "2026-02-10T10:06:00.000Z".
Definition write_throws (n : nat) : option error := None.

Definition writer : TodoWriter.t := TodoWriter.constructor path_join "todo-data".

Definition empty_disk : TodoWriter.World := TodoWriter.mkWorld TodoWriter.Missing TodoWriter.Missing 0.

End Fixture.

(* ================================================================== *)
(** ** Further notions the properties are stated with                  *)
(* ================================================================== *)

Module Shapes.
Import Js Effects ScreenshotComparer SummaryScheduler EventLoop.
Local Open Scope Z_scope.

(** *** The ledger of a tier *)

(** The number of records of tier [g] written to the store. *)
Definition written (g : granularity) (evs : list event) : Z :=
  Z.of_nat (List.length (filter (fun r => same_tier (fst (fst r)) g) (saves evs))).

(** The ticks of tier [g] the scheduler counts as done: analysed or
    skipped. *)
Definition recorded (g : granularity) (s : t) : Z :=
  count (get g (stats s)) + skipped (get g (stats s)).

(** [h * 60 + m] for a configured time of day. *)
Definition minutes_of (hm : Z * Z) : Z := fst hm * 60 + snd hm.

(** How a try block stands with the store: it has saved nothing and
    counted nothing, or it has saved one record of its tier, counted it
    under [count] or [skipped] and returned. *)
Definition booked (g : granularity) (s : t) (r : t * list event * completion) : Prop :=
  let '(s1, evs, c) := r in
  (stats s1 = stats s /\ saves evs = [])
  \/ (c = Returned
      /\ exists ts data f,
           (f = skipped_incr \/ f = count_incr)
           /\ stats s1 = set g (f (get g (stats s))) (stats s)
           /\ saves evs = [(g, ts, data)]).

(** *** Timers *)

(** Whether the configuration enables a tier. *)
Definition tier_enabled (g : granularity) (cfg : Config) : bool :=
  match g with
  | G2min => match granularity_base cfg with
             | Some baseConfig => enabled baseConfig
             | None => false
             end
  | G10min => granularity_10min_enabled cfg
  | G1h => granularity_1h_enabled cfg
  end.

(** The period of a tier, in milliseconds. *)
Definition period (g : granularity) : Z :=
  match g with
  | G2min => 120000
  | G10min => 600000
  | G1h => 3600000
  end.

(** The interval timers created, in order. *)
Fixpoint intervals_set (evs : list event) : list (handle * granularity * Z) :=
  match evs with
  | [] => []
  | SetInterval h g ms :: rest => (h, g, ms) :: intervals_set rest
  | _ :: rest => intervals_set rest
  end.

(** *** Characters of a string *)

Fixpoint occurs (c : ascii) (s : string) : bool :=
  match s with
  | EmptyString => false
  | String x rest => Ascii.eqb x c || occurs c rest
  end.

Definition backtick : ascii := ascii_of_N 96.

(** *** Focus-window entries *)

(** The entries of [l] are well formed and follow one another in time,
    the first starting at [t0] or later. *)
Fixpoint in_order_from (t0 : Z) (l : list WindowEntry) : Prop :=
  match l with
  | [] => True
  | e :: rest =>
      t0 <= startTime e /\ startTime e <= endTime e /\ in_order_from (endTime e) rest
  end.

(** The closed entries of a collector followed by its entry in progress. *)
Definition all_entries (c : ActiveWindowCollector.t) : list WindowEntry :=
  (ActiveWindowCollector._timeline c
   ++ match ActiveWindowCollector._currentEntry c with
      | Some cur => [cur]
      | None => []
      end)%list.

(** The time stamps the monitor hands to the collector, in order. *)
Definition timestamps (inputs : list ActiveWindowCollector.input) : list Z :=
  flat_map (fun i => match i with
                     | ActiveWindowCollector.Poll w
                     | ActiveWindowCollector.Change w =>
                         [ActiveWindowCollector.info_timestamp w]
                     | ActiveWindowCollector.Stop => []
                     end) inputs.

(** The test [_mergeConsecutiveEntries] makes of two neighbours. *)
Definition mergeable (last current : WindowEntry) : bool :=
  ActiveWindowCollector.isSameWindow current last
  && (startTime current - endTime last <=? 2000).

Fixpoint no_mergeable_neighbours (l : list WindowEntry) : Prop :=
  match l with
  | x :: rest =>
      match rest with
      | y :: _ => mergeable x y = false
      | [] => True
      end /\ no_mergeable_neighbours rest
  | [] => True
  end.

(** What holds of a collector fed with time stamps that never go back,
    the last of which is [tnow]. *)
Definition kept_in_order (c : ActiveWindowCollector.t) (tnow : Z) : Prop :=
  (exists t0, in_order_from t0 (all_entries c))
  /\ Forall (fun e => endTime e <= tnow) (all_entries c).

(** Every double quote of [s] follows a backslash, where [escaped] tells
    whether a backslash stands right before [s]. *)
Fixpoint quotes_escaped_after (escaped : bool) (s : string) : bool :=
  match s with
  | EmptyString => true
  | String c rest =>
      (if Ascii.eqb c Text.dquote then escaped else true)
      && quotes_escaped_after (Ascii.eqb c Text.backslash) rest
  end.

(** A string that is not empty and starts with no white space. *)
Definition starts_plain (s : string) : Prop :=
  s <> "" /\ strip_one whitespace s = None.

(** A numeral of two digits and its value: what [padStart(2, '0')] makes
    of a number between 0 and 99. *)
Definition two_digits (n : Z) : bool :=
  match Text.padStart 2 "0" (string_of_Z n) with
  | String a (String b EmptyString) =>
      Text.is_digit a && Text.is_digit b
      && (Text.Number (String a (String b EmptyString)) =? n)
  | _ => false
  end.

(** A numeral of four digits and its value. *)
Definition four_digits (n : Z) : bool :=
  match string_of_Z n with
  | String a (String b (String c (String d EmptyString))) =>
      Text.is_digit a && Text.is_digit b && Text.is_digit c && Text.is_digit d
      && (Text.Number (string_of_Z n) =? n)
  | _ => false
  end.

(** The order of time on screenshots. *)
Definition not_later (a b : Screenshot) : Prop :=
  getTime (timestamp a) <= getTime (timestamp b).

(** *** Token records *)



(** A call of [record]: the instant, the tier, the usage and whether
    persisting fails. *)
Definition record_call : Type :=
  (Date * granularity * option TokenTracker.UsageMetadata * option error)%type.

(** The tracker of a session after the calls [calls] of [record], in
    order. *)
Definition after_calls (toISOString : Date -> string)
    (getFullYear getMonth getDate : Date -> Z) (sessionId : string)
    (calls : list record_call) : TokenTracker.t :=
  fold_left
    (fun tr (c : record_call) =>
       let '(now, g, usageMetadata, persist_fails) := c in
       fst (TokenTracker.record toISOString getFullYear getMonth getDate
              tr now g usageMetadata persist_fails))
    calls (TokenTracker.constructor sessionId).


(** *** Escaped text *)

(** What stands for one character in escaped text. *)
Definition entity_of (c : ascii) : string :=
  if Ascii.eqb c "&" then "&amp;"
  else if Ascii.eqb c "<" then "&lt;"
  else if Ascii.eqb c ">" then "&gt;"
  else if Ascii.eqb c (ascii_of_N 34) then "&quot;"
  else if Ascii.eqb c "'" then "&apos;"
  else String c EmptyString.

Fixpoint each_escaped (s : string) : string :=
  match s with
  | EmptyString => EmptyString
  | String c rest => entity_of c ++ each_escaped rest
  end.

(** *** The files of the todo list *)

(** The elements of the array a file holds. *)
Definition entries (f : TodoWriter.file) : list json :=
  match f with
  | TodoWriter.Content (JArr items) => items
  | _ => []
  end.

(** The element is an object whose field [key] is the string [value]. *)
Definition named (key value : string) (item : json) : bool :=
  match item with
  | JObj fields =>
      match obj_get key fields with
      | Some (JStr s) => String.eqb s value
      | _ => false
      end
  | _ => false
  end.

Definition count_named (key value : string) (items : list json) : nat :=
  List.length (filter (named key value) items).

(** The subtasks of a task. *)
Definition children_of (item : json) : list json :=
  match item with
  | JObj fields =>
      match obj_get "children" fields with
      | Some (JArr children) => children
      | _ => []
      end
  | _ => []
  end.






(** The characters of a decimal numeral. *)
Definition decimal_chars : list ascii :=
  list_ascii_of_string "0123456789-".

End Shapes.

(* ================================================================== *)
(** * Properties                                                       *)
(* ================================================================== *)

Import Js Effects Notions.

(** ** ScreenshotComparer *)

Section ComparerFacts.
Import ScreenshotComparer.

Lemma Buffer_equals_eq : forall a b : Buffer, Buffer_equals a b = true <-> a = b.
Proof.
  induction a as [| x a IH]; intros [| y b]; simpl; split; intro H;
    try reflexivity; try discriminate.
  - apply andb_true_iff in H. destruct H as [Hxy Hab].
    apply Byte.byte_dec_bl in Hxy. apply IH in Hab. now subst.
  - inversion H; subst. apply andb_true_iff. split.
    + now apply Byte.byte_dec_lb.
    + now apply IH.
Qed.

Lemma compare_with_Forall : forall baseBuffer rest,
  compare_with baseBuffer rest = true
  <-> Forall (fun s => buffer s = baseBuffer) rest.
Proof.
  intros baseBuffer rest. induction rest as [| s rest IH]; simpl.
  - split; [constructor | reflexivity].
  - destruct (Buffer_equals baseBuffer (buffer s)) eqn:E; simpl.
    + apply Buffer_equals_eq in E. rewrite IH. split.
      * intro H. constructor; [now symmetry | exact H].
      * intro H. now inversion H.
    + split; [discriminate |].
      intro H. apply Forall_inv in H. symmetry in H.
      apply Buffer_equals_eq in H. rewrite H in E. discriminate.
Qed.

(** C7. [allIdentical] answers false for the empty list and for a list of
    one screenshot; for a list of two or more it answers true exactly when
    every later buffer equals the first one byte for byte, so that one
    differing screenshot anywhere after the first makes it answer false. *)
Theorem allIdentical_iff_all_equal_first :
  allIdentical [] = false
  /\ (forall only, allIdentical [only] = false)
  /\ (forall first second rest,
        allIdentical (first :: second :: rest) = true
        <-> Forall (fun s => buffer s = buffer first) (second :: rest))
  /\ (forall first before differing after,
        buffer differing <> buffer first ->
        allIdentical (first :: before ++ differing :: after) = false).
Proof.
  split; [reflexivity |]. split; [reflexivity |].
  assert (forall first second rest,
            allIdentical (first :: second :: rest) = true
            <-> Forall (fun s => buffer s = buffer first) (second :: rest)) as Hiff.
  { intros first second rest. unfold allIdentical. apply compare_with_Forall. }
  split; [exact Hiff |].
  intros first before differing after Hneq.
  destruct (allIdentical (first :: before ++ differing :: after)%list) eqn:E;
    [| reflexivity].
  exfalso. apply Hneq.
  assert (Forall (fun s => buffer s = buffer first) (before ++ differing :: after)%list)
    as Hall.
  { destruct before as [| b before]; simpl in *; now apply Hiff. }
  rewrite Forall_forall in Hall. apply Hall.
  apply in_or_app. right. now left.
Qed.

End ComparerFacts.

(** ** Projections of an event list *)

Lemma saves_app : forall a b, saves (a ++ b)%list = (saves a ++ saves b)%list.
Proof.
  induction a as [| e a IH]; intro b; [reflexivity |].
  destruct e; simpl; rewrite IH; reflexivity.
Qed.

Lemma requests_app : forall a b,
  requests (a ++ b)%list = (requests a ++ requests b)%list.
Proof.
  induction a as [| e a IH]; intro b; [reflexivity |].
  destruct e; simpl; rewrite IH; reflexivity.
Qed.

Lemma calls_and_waits_app : forall a b,
  calls_and_waits (a ++ b)%list = (calls_and_waits a ++ calls_and_waits b)%list.
Proof.
  induction a as [| e a IH]; intro b; [reflexivity |].
  destruct e; simpl; rewrite IH; reflexivity.
Qed.

Lemma allIdentical_log_quiet : forall screenshots,
  saves (ScreenshotComparer.allIdentical_log screenshots) = []
  /\ requests (ScreenshotComparer.allIdentical_log screenshots) = [].
Proof.
  intro screenshots. unfold ScreenshotComparer.allIdentical_log.
  destruct (ScreenshotComparer.allIdentical screenshots); split; reflexivity.
Qed.

Lemma window_step_quiet : forall s env g windowMs,
  saves (snd (SummaryScheduler.window_step s env g windowMs)) = []
  /\ requests (snd (SummaryScheduler.window_step s env g windowMs)) = [].
Proof.
  intros s env g windowMs. unfold SummaryScheduler.window_step.
  destruct (SummaryScheduler.activeWindowCollector s); [| split; reflexivity].
  destruct (SummaryScheduler.window_text env windowMs) as [timeline text].
  cbn [snd]. destruct (negb (text =? "")%string); split; reflexivity.
Qed.

(** Reads the fields of an updated scheduler. *)
Ltac fields :=
  cbn [SummaryScheduler.config SummaryScheduler.geminiClient
       SummaryScheduler.tokenTracker SummaryScheduler.activeWindowCollector
       SummaryScheduler.promptLogger SummaryScheduler.screenshotComparer
       SummaryScheduler.todoWriter SummaryScheduler._timer2min
       SummaryScheduler._timer10min SummaryScheduler._timer1h
       SummaryScheduler.isRunning SummaryScheduler._executing
       SummaryScheduler.stats SummaryScheduler.with_executing
       SummaryScheduler.with_stats SummaryScheduler.with_timers] in *.

(** Computes [saves] and [requests] of a concatenation of event lists,
    splitting on the tests that decide optional events. *)
Ltac project_events :=
  repeat first
    [ rewrite saves_app
    | rewrite requests_app
    | rewrite (proj1 (allIdentical_log_quiet _))
    | rewrite (proj2 (allIdentical_log_quiet _))
    | progress cbn [saves requests app fst snd]
    | match goal with
      | |- context [saves (if ?b then _ else _)] => destruct b
      | |- context [requests (if ?b then _ else _)] => destruct b
      | |- context [saves (match ?x with Some _ => _ | None => _ end)] => destruct x
      | |- context [requests (match ?x with Some _ => _ | None => _ end)] => destruct x
      end ].

(** ** The pipelines, path by path *)

Section PipelineFacts.
Import ScreenshotComparer SummaryScheduler.

Variable JSON_parse : string -> result json.
Variable Date_parse : string -> option Z.
Variable toLocaleTimeString : Z -> string.

Let run := SummaryScheduler.run Date_parse toLocaleTimeString.
Let resumed := SummaryScheduler.resumed JSON_parse.

(** Case analysis on every test of the goal. *)
Ltac break_tests :=
  repeat match goal with
         | |- context [match ?x with _ => _ end] => destruct x eqn:?
         end.

Lemma get_set_same : forall (A : Type) g (v : A) m, get g (set g v m) = v.
Proof. intros A [] v m; reflexivity. Qed.

Lemma get_set_other : forall (A : Type) g g' (v : A) m,
  g <> g' -> get g' (set g v m) = get g' m.
Proof. intros A [] [] v m H; try reflexivity; now contradiction H. Qed.

Lemma set_set : forall (A : Type) g (v v' : A) m, set g v' (set g v m) = set g v' m.
Proof. intros A [] v v' [a b c]; reflexivity. Qed.

Lemma set_get : forall (A : Type) g (m : per_tier A), set g (get g m) m = m.
Proof. intros A [] [a b c]; reflexivity. Qed.

(** Raising the flag of a tier and lowering it again gives back a
    scheduler whose flag was down. *)
Lemma with_executing_cancel : forall g s,
  get g (_executing s) = false ->
  with_executing g false (with_executing g true s) = s.
Proof.
  intros g s H. destruct s. unfold with_executing. fields.
  rewrite set_set. rewrite <- H. cbn [SummaryScheduler._executing].
  rewrite set_get. reflexivity.
Qed.

Lemma with_executing_stats_cancel : forall g f s,
  get g (_executing s) = false ->
  with_executing g false (with_stats g f (with_executing g true s))
  = with_stats g f s.
Proof.
  intros g f s H. destruct s. unfold with_executing, with_stats. fields.
  rewrite set_set. rewrite <- H. cbn [SummaryScheduler._executing].
  rewrite set_get. reflexivity.
Qed.

(** The try blocks never touch the flags; a suspended run belongs to the
    tier of its pipeline. *)
Lemma _run2min_try_flags : forall s env,
  _executing (fst (fst (_run2min_try Date_parse toLocaleTimeString s env)))
  = _executing s
  /\ forall p, snd (_run2min_try Date_parse toLocaleTimeString s env) = Awaiting p ->
               p_granularity p = G2min.
Proof.
  intros s env. unfold _run2min_try, save.
  destruct (save_throws env); cbv beta iota; break_tests; cbn [fst snd]; (split; [reflexivity |]);
    intros pending Hpending; inversion Hpending; reflexivity.
Qed.

Lemma _run10min_try_flags : forall s env,
  _executing (fst (fst (_run10min_try s env))) = _executing s
  /\ forall p, snd (_run10min_try s env) = Awaiting p -> p_granularity p = G10min.
Proof.
  intros s env. unfold _run10min_try, save.
  destruct (save_throws env); cbv beta iota; break_tests; cbn [fst snd]; (split; [reflexivity |]);
    intros pending Hpending; inversion Hpending; reflexivity.
Qed.

Lemma _run1h_try_flags : forall s env,
  _executing (fst (fst (_run1h_try s env))) = _executing s
  /\ forall p, snd (_run1h_try s env) = Awaiting p -> p_granularity p = G1h.
Proof.
  intros s env. unfold _run1h_try, save.
  destruct (save_throws env); cbv beta iota; break_tests; cbn [fst snd]; (split; [reflexivity |]);
    intros pending Hpending; inversion Hpending; reflexivity.
Qed.

Lemma set_false_after_true : forall g (m : per_tier bool),
  get g m = false -> set g false (set g true m) = m.
Proof. intros g m H. rewrite set_set. rewrite <- H. apply set_get. Qed.

Lemma leave_try_flags : forall g s1 evs1 c s' evs o,
  leave_try g (s1, evs1, c) = (s', evs, o) ->
  match c with
  | Awaiting p => o = Suspended p /\ s' = s1 /\ evs = evs1
  | _ => o = Completed /\ _executing s' = set g false (_executing s1)
  end.
Proof.
  intros g s1 evs1 c s' evs o H. unfold leave_try in H.
  destruct c; inversion H; subst; fields; auto.
Qed.

(** What a timer fire does to the flags, by the way it ends. *)
Lemma run_flags : forall g s env s' evs o,
  run g s env = (s', evs, o) ->
  match o with
  | Dropped =>
      s' = s /\ evs = []
      /\ (get g (_executing s) = true \/ _isAllowed s (gate_now env) = false)
  | Completed =>
      get g (_executing s) = false /\ _isAllowed s (gate_now env) = true
      /\ _executing s' = _executing s
  | Suspended p =>
      get g (_executing s) = false /\ _isAllowed s (gate_now env) = true
      /\ p_granularity p = g
      /\ _executing s' = set g true (_executing s)
  end.
Proof.
  intros g s env s' evs o H.
  assert (forall try_block,
            (forall s0, _executing (fst (fst (try_block s0))) = _executing s0
                        /\ forall p, snd (try_block s0) = Awaiting p ->
                                     p_granularity p = g) ->
            (if get g (_executing s) || negb (_isAllowed s (gate_now env))
             then (s, [], Dropped)
             else leave_try g (try_block (with_executing g true s))) = (s', evs, o) ->
            match o with
            | Dropped =>
                s' = s /\ evs = []
                /\ (get g (_executing s) = true \/ _isAllowed s (gate_now env) = false)
            | Completed =>
                get g (_executing s) = false /\ _isAllowed s (gate_now env) = true
                /\ _executing s' = _executing s
            | Suspended p =>
                get g (_executing s) = false /\ _isAllowed s (gate_now env) = true
                /\ p_granularity p = g
                /\ _executing s' = set g true (_executing s)
            end) as Hgen.
  { intros try_block Htry Hrun.
    destruct (get g (_executing s)) eqn:Eflag; cbn [orb] in Hrun.
    { inversion Hrun; subst. auto. }
    destruct (_isAllowed s (gate_now env)) eqn:Egate; cbn [negb] in Hrun.
    2:{ inversion Hrun; subst. auto. }
    destruct (Htry (with_executing g true s)) as [Hflags Htier].
    destruct (try_block (with_executing g true s)) as [[s1 evs1] c].
    cbn [fst snd] in Hflags, Htier. fields.
    apply leave_try_flags in Hrun.
    destruct c as [| e | p].
    - destruct Hrun as [-> Hs']. rewrite Hs', Hflags.
      repeat split. now apply set_false_after_true.
    - destruct Hrun as [-> Hs']. rewrite Hs', Hflags.
      repeat split. now apply set_false_after_true.
    - destruct Hrun as [-> [-> ->]]. repeat split; auto. }
  destruct g; unfold run, SummaryScheduler.run in H.
  - apply (Hgen (fun s0 => _run2min_try Date_parse toLocaleTimeString s0 env));
      [intro s0; apply _run2min_try_flags | exact H].
  - apply (Hgen (fun s0 => _run10min_try s0 env));
      [intro s0; apply _run10min_try_flags | exact H].
  - apply (Hgen (fun s0 => _run1h_try s0 env));
      [intro s0; apply _run1h_try_flags | exact H].
Qed.

Lemma after_generate_flags : forall g write_back s p renv,
  _executing (fst (fst (after_generate JSON_parse g write_back s p renv)))
  = _executing s
  /\ forall q, snd (after_generate JSON_parse g write_back s p renv) <> Awaiting q.
Proof.
  intros g write_back s p renv. unfold after_generate, save.
  destruct (settle_save_throws renv); cbv beta iota; break_tests; cbn [fst snd];
    (split; [reflexivity | intros q Hq; discriminate]).
Qed.

(** The part of a run after its awaited call always ends with the
    finally block. *)
Lemma resumed_flags : forall g s p renv s' evs o,
  resumed g s p renv = (s', evs, o) ->
  o = Completed /\ _executing s' = set g false (_executing s).
Proof.
  intros g s p renv s' evs o H.
  assert (forall write_back,
            leave_try g (after_generate JSON_parse g write_back s p renv)
            = (s', evs, o) ->
            o = Completed /\ _executing s' = set g false (_executing s)) as Hgen.
  { intros write_back Hrun.
    destruct (after_generate_flags g write_back s p renv) as [Hflags Hnot].
    destruct (after_generate JSON_parse g write_back s p renv) as [[s1 evs1] c].
    cbn [fst snd] in Hflags, Hnot. apply leave_try_flags in Hrun.
    destruct c as [| e | q]; [| | now contradiction (Hnot q)];
      destruct Hrun as [-> Hs']; now rewrite Hs', Hflags. }
  destruct g; unfold resumed, SummaryScheduler.resumed in H; eapply Hgen; exact H.
Qed.

End PipelineFacts.

(** ** The event loop: one execution per tier *)

Section LoopFacts.
Import ScreenshotComparer SummaryScheduler EventLoop.

Variable JSON_parse : string -> result json.
Variable Date_parse : string -> option Z.
Variable toLocaleTimeString : Z -> string.

Let step := EventLoop.step JSON_parse Date_parse toLocaleTimeString.
Let reachable := EventLoop.reachable JSON_parse Date_parse toLocaleTimeString.

Lemma start_flags : forall s fresh,
  _executing (fst (start s fresh)) = _executing s
  /\ stats (fst (start s fresh)) = stats s.
Proof.
  intros s fresh. unfold start.
  repeat match goal with
         | |- context [if ?b then _ else _] => destruct b
         end; split; reflexivity.
Qed.

Lemma stop_poll_flags : forall s,
  _executing (fst (fst (stop_poll s))) = _executing s
  /\ stats (fst (fst (stop_poll s))) = stats s.
Proof.
  intro s. unfold stop_poll.
  destruct (get G2min (_executing s) || get G10min (_executing s)
            || get G1h (_executing s)); split; reflexivity.
Qed.

Lemma stop_flags : forall s,
  _executing (fst (fst (stop s))) = _executing s
  /\ stats (fst (fst (stop s))) = stats s.
Proof.
  intro s. unfold stop. destruct (negb (isRunning s)); [split; reflexivity |].
  destruct (stop_poll_flags (with_timers None None None (isRunning s) s)) as [He Hs].
  destruct (stop_poll (with_timers None None None (isRunning s) s)) as [[s' evs] o].
  cbn [fst snd] in *. split; assumption.
Qed.

Lemma same_tier_eq : forall g g', same_tier g g' = true <-> g = g'.
Proof. intros [] []; simpl; split; intro H; try reflexivity; discriminate. Qed.

Lemma count_tier_snoc : forall g l p,
  count_tier g (l ++ [p])%list
  = (count_tier g l + if same_tier (p_granularity p) g then 1 else 0)%nat.
Proof.
  intros g l p. unfold count_tier. rewrite filter_app, length_app. simpl.
  destruct (same_tier (p_granularity p) g); reflexivity.
Qed.

Lemma count_tier_remove : forall g l i p,
  nth_error l i = Some p ->
  count_tier g l
  = (count_tier g (remove_nth i l) + if same_tier (p_granularity p) g then 1 else 0)%nat.
Proof.
  intros g l. unfold count_tier.
  induction l as [| x l IH]; intros i p H.
  - destruct i; discriminate.
  - destruct i as [| i]; simpl in H.
    + inversion H; subst. simpl.
      destruct (same_tier (p_granularity p) g); simpl; lia.
    + simpl. destruct (same_tier (p_granularity x) g); simpl;
        rewrite (IH i p H); lia.
Qed.

Lemma flags_count_step : forall l w w',
  flags_count w -> step l w = Some w' -> flags_count w'.
Proof.
  intros l w w' Hinv Hstep. unfold step, EventLoop.step in Hstep.
  destruct l as [h g env | i renv | | |].
  - destruct (is_live h g (intervals w)); [| discriminate].
    destruct (run Date_parse toLocaleTimeString g (sched w) env) as [[s' evs] o] eqn:Erun.
    apply run_flags in Erun. inversion Hstep; subst; clear Hstep.
    intro g'. cbn [awaiting sched]. specialize (Hinv g') as Hg'.
    destruct o as [| | p].
    + destruct Erun as [-> _]. exact Hg'.
    + destruct Erun as [_ [_ ->]]. exact Hg'.
    + destruct Erun as [Hdown [_ [Htier ->]]].
      rewrite count_tier_snoc, Htier.
      destruct (same_tier g g') eqn:E.
      * apply same_tier_eq in E. subst g'. rewrite get_set_same.
        rewrite Hg', Hdown. reflexivity.
      * assert (g <> g') as Hneq
          by (intro Heq; rewrite Heq in E; destruct g'; discriminate).
        rewrite (get_set_other _ _ _ _ _ Hneq), Hg'. lia.
  - destruct (nth_error (awaiting w) i) as [p |] eqn:Enth; [| discriminate].
    destruct (resumed JSON_parse (p_granularity p) (sched w) p renv)
      as [[s' evs] o] eqn:Eres.
    apply resumed_flags in Eres. destruct Eres as [_ Hflags].
    inversion Hstep; subst; clear Hstep.
    intro g'. cbn [awaiting sched]. specialize (Hinv g') as Hg'.
    rewrite (count_tier_remove g' _ _ _ Enth) in Hg'. rewrite Hflags.
    destruct (same_tier (p_granularity p) g') eqn:E.
    + apply same_tier_eq in E. subst g'. rewrite get_set_same.
      destruct (get (p_granularity p) (_executing (sched w))); lia.
    + assert (p_granularity p <> g') as Hneq
        by (intro Heq; rewrite Heq in E; destruct g'; discriminate).
      rewrite (get_set_other _ _ _ _ _ Hneq). lia.
  - destruct (start_flags (sched w) (next_handle w)) as [Hflags _].
    destruct (start (sched w) (next_handle w)) as [s' evs].
    inversion Hstep; subst; clear Hstep.
    intro g'. cbn [awaiting sched fst] in *. rewrite Hflags. apply Hinv.
  - destruct (stop_flags (sched w)) as [Hflags _].
    destruct (stop (sched w)) as [[s' evs] o].
    inversion Hstep; subst; clear Hstep.
    intro g'. cbn [awaiting sched fst] in *. rewrite Hflags. apply Hinv.
  - destruct (stopping w); [discriminate |].
    destruct (stop_poll_flags (sched w)) as [Hflags _].
    destruct (stop_poll (sched w)) as [[s' evs] o].
    inversion Hstep; subst; clear Hstep.
    intro g'. cbn [awaiting sched fst] in *. rewrite Hflags. apply Hinv.
Qed.

Lemma flags_count_reachable : forall w, reachable w -> flags_count w.
Proof.
  intros w H. induction H as [cfg client tr co pl cm wr | w l w' _ IH Hstep].
  - intros []; reflexivity.
  - eapply flags_count_step; eassumption.
Qed.

(** C3. In every world the process can reach, each tier has at most one
    run in flight, and it has one exactly while its flag is up; a timer
    fire that finds the flag of its tier up leaves the whole world as it
    was: no run is queued or started, nothing is logged, saved or sent. *)
Theorem one_execution_in_flight_per_tier :
  (forall w, reachable w ->
     forall g, (in_flight g w <= 1)%nat
               /\ (in_flight g w = 1%nat <-> get g (_executing (sched w)) = true))
  /\ (forall w h g env,
        is_live h g (intervals w) = true ->
        get g (_executing (sched w)) = true ->
        step (Fire h g env) w = Some w).
Proof.
  split.
  - intros w Hreach g. pose proof (flags_count_reachable w Hreach g) as H.
    unfold in_flight. fold (count_tier g (awaiting w)). rewrite H.
    destruct (get g (_executing (sched w))); split; try lia;
      split; intro; try reflexivity; discriminate.
  - intros w h g env Hlive Hflag. unfold step, EventLoop.step. rewrite Hlive.
    destruct (run Date_parse toLocaleTimeString g (sched w) env) as [[s' evs] o] eqn:Erun.
    assert (s' = sched w /\ evs = [] /\ o = Dropped) as [-> [-> ->]].
    { destruct g; unfold run, _run2min, _run10min, _run1h in Erun;
        rewrite Hflag in Erun; cbn [orb] in Erun; inversion Erun; auto. }
    rewrite app_nil_r. destruct w; reflexivity.
Qed.

End LoopFacts.

(** ** stop: cancel, drain, return *)

Section DrainFacts.
Import ScreenshotComparer SummaryScheduler EventLoop.

Variable JSON_parse : string -> result json.
Variable Date_parse : string -> option Z.
Variable toLocaleTimeString : Z -> string.

Let step := EventLoop.step JSON_parse Date_parse toLocaleTimeString.
Let reachable := EventLoop.reachable JSON_parse Date_parse toLocaleTimeString.







Lemma after_generate_state : forall g write_back s p renv,
  fst (fst (after_generate JSON_parse g write_back s p renv)) = s
  \/ fst (fst (after_generate JSON_parse g write_back s p renv))
     = with_stats g count_incr s.
Proof.
  intros g write_back s p renv. unfold after_generate, save.
  destruct (GeminiClient.generate _ _ _) as [called [generated | err]]; [| now left].
  destruct (_parseResponse _ _) as [parse_logged parsed].
  destruct (settle_save_throws renv); [now left | now right].
Qed.

Lemma resumed_running : forall g s p renv,
  isRunning (fst (fst (resumed JSON_parse g s p renv))) = isRunning s.
Proof.
  intros g s p renv.
  assert (forall write_back,
            isRunning (fst (fst (leave_try g
                                   (after_generate JSON_parse g write_back s p renv))))
            = isRunning s) as Hgen.
  { intro write_back.
    destruct (after_generate_state g write_back s p renv) as [H | H];
      destruct (after_generate JSON_parse g write_back s p renv) as [[s1 evs1] c];
      cbn [fst] in H; subst s1; unfold leave_try; destruct c; reflexivity. }
  destruct g; apply Hgen.
Qed.


End DrainFacts.

(** ** The flag of a tier after a run *)

Section FlagFacts.
Import ScreenshotComparer SummaryScheduler EventLoop.

Variable JSON_parse : string -> result json.
Variable Date_parse : string -> option Z.
Variable toLocaleTimeString : Z -> string.

Let run := SummaryScheduler.run Date_parse toLocaleTimeString.
Let resumed := SummaryScheduler.resumed JSON_parse.
Let reachable := EventLoop.reachable JSON_parse Date_parse toLocaleTimeString.

(** C8. A call of a tier's pipeline that found the flag of its tier down
    and has ended (it was not left suspended at the awaited call: the
    gate was closed, there was no input, the skip path was taken, or the
    try block threw) leaves that flag down; the part of a run that
    follows the awaited call always ends with the flag down, whether the
    call, the parsing or the save succeeded or threw. The flag is up
    after a call only if it was up before or the run is suspended, and a
    run never touches the flag of another tier. Hence, in a reachable
    world with no run suspended, the test of the drain loop of [stop]
    succeeds and [stop] returns. *)
Theorem executing_flag_down_after_run :
  (forall g s env s' evs o,
     run g s env = (s', evs, o) ->
     get g (_executing s) = false ->
     (forall p, o <> Suspended p) ->
     get g (_executing s') = false)
  /\ (forall g s p renv s' evs o,
        resumed g s p renv = (s', evs, o) ->
        o = Completed /\ get g (_executing s') = false)
  /\ (forall g s env s' evs o,
        run g s env = (s', evs, o) ->
        get g (_executing s') = true ->
        get g (_executing s) = true
        \/ exists p, o = Suspended p /\ p_granularity p = g)
  /\ (forall g g' s env s' evs o,
        run g s env = (s', evs, o) ->
        g' <> g ->
        get g' (_executing s') = get g' (_executing s))
  /\ (forall w, reachable w -> awaiting w = [] ->
        snd (stop_poll (sched w)) = StopReturned).
Proof.
  split.
  { intros g s env s' evs o Hrun Hdown Hended.
    apply run_flags in Hrun. destruct o as [| | p].
    - destruct Hrun as [-> _]. exact Hdown.
    - destruct Hrun as [_ [_ ->]]. exact Hdown.
    - now contradiction (Hended p). }
  split.
  { intros g s p renv s' evs o Hres.
    apply resumed_flags in Hres. destruct Hres as [-> ->].
    split; [reflexivity | apply get_set_same]. }
  split.
  { intros g s env s' evs o Hrun Hup.
    apply run_flags in Hrun. destruct o as [| | p].
    - destruct Hrun as [-> _]. now left.
    - destruct Hrun as [_ [_ Heq]]. rewrite Heq in Hup. now left.
    - destruct Hrun as [_ [_ [Htier _]]]. right. now exists p. }
  split.
  { intros g g' s env s' evs o Hrun Hneq.
    apply run_flags in Hrun. destruct o as [| | p].
    - now destruct Hrun as [-> _].
    - destruct Hrun as [_ [_ ->]]. reflexivity.
    - destruct Hrun as [_ [_ [_ ->]]]. apply get_set_other.
      intro Heq. now apply Hneq. }
  intros w Hreach Hnone.
  pose proof (flags_count_reachable JSON_parse Date_parse toLocaleTimeString w Hreach)
    as Hinv.
  unfold stop_poll.
  assert (forall g, get g (_executing (sched w)) = false) as Hdown.
  { intro g. specialize (Hinv g). rewrite Hnone in Hinv.
    destruct (get g (_executing (sched w))); [discriminate | reflexivity]. }
  now rewrite (Hdown G2min), (Hdown G10min), (Hdown G1h).
Qed.

End FlagFacts.

(** ** White space and trim *)

Section TrimFacts.

Lemma append_nil_r : forall s : string, s ++ "" = s.
Proof. induction s as [| c s IH]; simpl; [reflexivity | now rewrite IH]. Qed.

Lemma append_assoc : forall a b c : string, (a ++ b) ++ c = a ++ (b ++ c).
Proof. induction a as [| x a IH]; intros b c; simpl; [reflexivity | now rewrite IH]. Qed.

Lemma length_append : forall a b : string,
  String.length (a ++ b) = (String.length a + String.length b)%nat.
Proof. induction a as [| x a IH]; intro b; simpl; [reflexivity | now rewrite IH]. Qed.

Lemma strip_prefix_Some : forall p s r, strip_prefix p s = Some r <-> s = p ++ r.
Proof.
  induction p as [| a p IH]; intros s r; simpl.
  - split; intro H; [now inversion H | now subst].
  - destruct s as [| b s].
    + split; intro H; discriminate.
    + destruct (Ascii.eqb a b) eqn:E.
      * apply Ascii.eqb_eq in E. subst b. rewrite IH. split; intro H.
        -- now subst.
        -- now inversion H.
      * split; intro H; [discriminate |].
        inversion H; subst. rewrite Ascii.eqb_refl in E. discriminate.
Qed.

Lemma strip_one_Some : forall pats s r,
  strip_one pats s = Some r -> exists p, In p pats /\ s = p ++ r.
Proof.
  induction pats as [| p pats IH]; intros s r H; simpl in H; [discriminate |].
  destruct (strip_prefix p s) as [r' |] eqn:E.
  - inversion H; subst. apply strip_prefix_Some in E. exists p. split; [now left | exact E].
  - destruct (IH s r H) as [q [Hq Hs]]. exists q. split; [now right | exact Hs].
Qed.

Lemma strip_one_None : forall pats s p r,
  strip_one pats s = None -> In p pats -> s <> p ++ r.
Proof.
  induction pats as [| q pats IH]; intros s p r H Hin Hs; [destruct Hin |].
  simpl in H. destruct (strip_prefix q s) eqn:E; [discriminate |].
  destruct Hin as [-> | Hin].
  - apply (proj2 (strip_prefix_Some p s r)) in Hs. rewrite Hs in E. discriminate.
  - exact (IH s p r H Hin Hs).
Qed.

Lemma common_prefix : forall p q r r',
  p ++ r = q ++ r' -> prefixb p q = true \/ prefixb q p = true.
Proof.
  unfold prefixb. induction p as [| a p IH]; intros q r r' H.
  - left. reflexivity.
  - destruct q as [| b q].
    + right. reflexivity.
    + simpl in H. inversion H; subst. simpl. rewrite Ascii.eqb_refl.
      exact (IH q r r' H2).
Qed.

Lemma prefix_free_unique : forall pats p q r r',
  prefix_free pats = true -> In p pats -> In q pats ->
  p ++ r = q ++ r' -> p = q /\ r = r'.
Proof.
  intros pats p q r r' Hfree Hp Hq H.
  unfold prefix_free in Hfree. rewrite forallb_forall in Hfree.
  assert (p = q) as Heq.
  { destruct (common_prefix p q r r' H) as [Hpq | Hqp].
    - pose proof (Hfree p Hp) as Hrow. rewrite forallb_forall in Hrow.
      specialize (Hrow q Hq). rewrite Hpq in Hrow. now apply String.eqb_eq.
    - pose proof (Hfree q Hq) as Hrow. rewrite forallb_forall in Hrow.
      specialize (Hrow p Hp). rewrite Hqp in Hrow. symmetry.
      now apply String.eqb_eq. }
  subst q. split; [reflexivity |].
  clear - H. induction p as [| a p IH]; simpl in H; [exact H |].
  inversion H. now apply IH.
Qed.

Lemma strip_one_shorter : forall pats s r,
  nonempty_all pats = true -> strip_one pats s = Some r ->
  (String.length r < String.length s)%nat.
Proof.
  intros pats s r Hne H. destruct (strip_one_Some pats s r H) as [p [Hp ->]].
  unfold nonempty_all in Hne. rewrite forallb_forall in Hne.
  specialize (Hne p Hp). rewrite length_append.
  destruct p; [discriminate | simpl; lia].
Qed.

(** With enough fuel [strip_many] removes a run of patterns and stops at
    a string that starts with none. *)
Lemma strip_many_spec : forall pats n s,
  nonempty_all pats = true -> (String.length s <= n)%nat ->
  exists ws,
    Forall (fun w => In w pats) ws
    /\ s = sconcat ws ++ strip_many n pats s
    /\ strip_one pats (strip_many n pats s) = None.
Proof.
  intros pats n. induction n as [| n IH]; intros s Hne Hlen.
  - destruct s; [| simpl in Hlen; lia].
    exists []. simpl. repeat split; [constructor |].
    clear - Hne. induction pats as [| p pats IH]; [reflexivity |].
    simpl in *. apply andb_true_iff in Hne. destruct Hne as [Hp Hrest].
    destruct p; [discriminate |]. simpl. now apply IH.
  - simpl. destruct (strip_one pats s) as [r |] eqn:E.
    + pose proof (strip_one_shorter pats s r Hne E) as Hshort.
      destruct (IH r Hne ltac:(lia)) as [ws [Hws [Hr Hstop]]].
      destruct (strip_one_Some pats s r E) as [p [Hp Hs]].
      exists (p :: ws). split; [now constructor |]. split; [| exact Hstop].
      simpl. rewrite append_assoc, <- Hr. exact Hs.
    + exists []. simpl. repeat split; [constructor | exact E].
Qed.

Lemma strip_many_whitespace : forall pats ws n,
  nonempty_all pats = true ->
  prefix_free pats = true -> Forall (fun w => In w pats) ws ->
  (List.length ws <= n)%nat ->
  strip_many n pats (sconcat ws) = EmptyString.
Proof.
  intros pats ws. induction ws as [| w ws IH]; intros n Hne Hfree Hws Hn.
  - destruct n; simpl; [reflexivity |].
    destruct (strip_one pats "") as [r |] eqn:E; [| reflexivity].
    apply (strip_one_shorter pats "" r Hne) in E. simpl in E. lia.
  - inversion Hws as [| ? ? Hw Hrest]; subst.
    destruct n as [| n]; [simpl in Hn; lia |].
    simpl. destruct (strip_one pats (w ++ sconcat ws)) as [r |] eqn:E.
    + destruct (strip_one_Some pats _ r E) as [p [Hp Hs]].
      destruct (prefix_free_unique pats w p _ _ Hfree Hw Hp Hs) as [_ <-].
      apply IH; [assumption | assumption | assumption | simpl in Hn; lia].
    + exfalso. exact (strip_one_None pats _ w (sconcat ws) E Hw eq_refl).
Qed.

End TrimFacts.

Section TrimSpec.

Lemma list_ascii_of_append : forall a b : string,
  list_ascii_of_string (a ++ b)
  = (list_ascii_of_string a ++ list_ascii_of_string b)%list.
Proof. induction a as [| c a IH]; intro b; simpl; [reflexivity | now rewrite IH]. Qed.

Lemma string_of_list_app : forall a b : list ascii,
  string_of_list_ascii (a ++ b)%list
  = string_of_list_ascii a ++ string_of_list_ascii b.
Proof. induction a as [| c a IH]; intro b; simpl; [reflexivity | now rewrite IH]. Qed.

Lemma string_rev_append : forall a b : string,
  string_rev (a ++ b) = string_rev b ++ string_rev a.
Proof.
  intros a b. unfold string_rev.
  now rewrite list_ascii_of_append, rev_app_distr, string_of_list_app.
Qed.

Lemma string_rev_involutive : forall s, string_rev (string_rev s) = s.
Proof.
  intro s. unfold string_rev.
  now rewrite list_ascii_of_string_of_list_ascii, rev_involutive,
    string_of_list_ascii_of_string.
Qed.

Lemma string_length_list : forall s,
  String.length s = List.length (list_ascii_of_string s).
Proof. induction s as [| c s IH]; simpl; [reflexivity | now rewrite IH]. Qed.

Lemma string_rev_length : forall s, String.length (string_rev s) = String.length s.
Proof.
  intro s. unfold string_rev.
  now rewrite !string_length_list, list_ascii_of_string_of_list_ascii, length_rev.
Qed.

Lemma string_rev_empty : forall s, string_rev s = "" -> s = "".
Proof.
  intros s H. pose proof (string_rev_length s) as Hlen. rewrite H in Hlen.
  destruct s; [reflexivity | discriminate].
Qed.

Lemma string_rev_sconcat : forall ws,
  string_rev (sconcat ws) = sconcat (rev (map string_rev ws)).
Proof.
  induction ws as [| w ws IH]; [reflexivity |].
  simpl. rewrite string_rev_append, IH.
  generalize (rev (map string_rev ws)) as l. intro l.
  induction l as [| x l IHl]; simpl; [now rewrite append_nil_r |].
  now rewrite append_assoc, IHl.
Qed.

Lemma whitespace_nonempty : nonempty_all whitespace = true.
Proof. vm_compute. reflexivity. Qed.

Lemma whitespace_prefix_free : prefix_free whitespace = true.
Proof. vm_compute. reflexivity. Qed.

Lemma whitespace_rev_nonempty : nonempty_all (map string_rev whitespace) = true.
Proof. vm_compute. reflexivity. Qed.

Lemma sconcat_length : forall pats ws,
  nonempty_all pats = true -> Forall (fun w => In w pats) ws ->
  (List.length ws <= String.length (sconcat ws))%nat.
Proof.
  intros pats ws Hne Hws. induction Hws as [| w ws Hw _ IH]; [simpl; lia |].
  simpl. rewrite length_append.
  unfold nonempty_all in Hne. rewrite forallb_forall in Hne. specialize (Hne w Hw).
  destruct w; [discriminate | simpl; lia].
Qed.

Lemma trimStart_empty_iff : forall s, trimStart s = "" <-> whitespace_only s.
Proof.
  intro s. unfold trimStart, whitespace_only. split.
  - intro H.
    destruct (strip_many_spec whitespace (String.length s) s whitespace_nonempty
                (le_n _)) as [ws [Hws [Hs _]]].
    rewrite H, append_nil_r in Hs. now exists ws.
  - intros [ws [Hws ->]].
    apply strip_many_whitespace;
      [exact whitespace_nonempty | exact whitespace_prefix_free | exact Hws |].
    now apply (sconcat_length whitespace).
Qed.

Lemma trimStart_fixed : forall s, trimStart (trimStart s) = trimStart s.
Proof.
  intro s.
  destruct (strip_many_spec whitespace (String.length s) s whitespace_nonempty
              (le_n _)) as [ws [_ [_ Hstop]]].
  unfold trimStart at 1. fold (trimStart s) in Hstop |- *.
  destruct (String.length (trimStart s)); cbn [strip_many]; [reflexivity |].
  now rewrite Hstop.
Qed.

(** [trim] gives the empty string exactly on the strings made of white
    space only. *)
Lemma trim_empty_iff : forall s, trim s = "" <-> whitespace_only s.
Proof.
  intro s. unfold trim. split.
  - intro H. apply trimStart_empty_iff.
    set (t := trimStart s) in *.
    unfold trimEnd in H. apply string_rev_empty in H.
    destruct (strip_many_spec (map string_rev whitespace) (String.length t)
                (string_rev t) whitespace_rev_nonempty
                ltac:(rewrite string_rev_length; apply le_n)) as [ws [Hws [Ht _]]].
    rewrite H, append_nil_r in Ht.
    assert (whitespace_only t) as Hwt.
    { exists (rev (map string_rev ws)). split.
      - apply Forall_rev. rewrite Forall_forall in *. intros x Hx.
        apply in_map_iff in Hx. destruct Hx as [y [<- Hy]].
        specialize (Hws y Hy). apply in_map_iff in Hws.
        destruct Hws as [z [<- Hz]]. now rewrite string_rev_involutive.
      - rewrite <- string_rev_sconcat, <- Ht. now rewrite string_rev_involutive. }
    apply trimStart_empty_iff in Hwt. subst t.
    now rewrite trimStart_fixed in Hwt.
  - intro H. apply trimStart_empty_iff in H. rewrite H. reflexivity.
Qed.

End TrimSpec.

(** ** GeminiClient: the retry loop *)

Section GenerateFacts.
Import GeminiClient.

Lemma whitespace_only_empty : whitespace_only "".
Proof. exists []. split; [constructor | reflexivity]. Qed.

Lemma check_response_blank : forall response,
  blank (text response) -> check_response response = Throw empty_response.
Proof.
  intros response H. unfold check_response, blank in *.
  destruct (text response) as [t |]; [| reflexivity].
  apply trim_empty_iff in H. rewrite H. cbn [String.eqb].
  now rewrite orb_true_r.
Qed.

Lemma check_response_text : forall response,
  ~ blank (text response) ->
  exists t, text response = Some t
            /\ check_response response
               = Ret {| g_text := t;
                        g_usageMetadata :=
                          match usageMetadata response with
                          | Some u => if truthy u then Some u else None
                          | None => None
                          end |}.
Proof.
  intros response H. unfold check_response, blank in *.
  destruct (text response) as [t |]; [| now contradiction H].
  exists t. split; [reflexivity |].
  destruct (String.eqb t "") eqn:E1.
  { apply String.eqb_eq in E1. subst t. contradiction H. apply whitespace_only_empty. }
  destruct (String.eqb (trim t) "") eqn:E2.
  { apply String.eqb_eq in E2. apply trim_empty_iff in E2. contradiction. }
  reflexivity.
Qed.

Lemma check_response_Ret : forall response g,
  check_response response = Ret g ->
  text response = Some (g_text g) /\ ~ blank (text response).
Proof.
  intros response g H. unfold check_response in H.
  destruct (text response) as [t |] eqn:Et; [| discriminate].
  destruct (String.eqb t "" || String.eqb (trim t) "") eqn:E; [discriminate |].
  inversion H; subst; clear H. cbn [g_text]. split; [reflexivity |].
  cbn [blank]. intro Hw. apply trim_empty_iff in Hw.
  apply orb_false_iff in E. destruct E as [_ E]. rewrite Hw in E. discriminate.
Qed.

Lemma range_S : forall a n, range a (S n) = a :: range (a + 1) n.
Proof.
  intros a n. unfold range. cbn [seq map]. f_equal; [lia |].
  rewrite <- seq_shift, map_map. apply map_ext. intro i. lia.
Qed.

Lemma range_In : forall a n k,
  In k (range a n) <-> (a <= k < a + Z.of_nat n)%Z.
Proof.
  intros a n k. unfold range. rewrite in_map_iff. split.
  - intros [i [<- Hi]]. apply in_seq in Hi. lia.
  - intro H. exists (Z.to_nat (k - a)). split; [lia |]. apply in_seq. lia.
Qed.

Section Loop.

Variable api : Z -> result Response.
Variable client : t.
Variable c : contents.

Lemma generate_from_all_fail : forall fuel attempt lastError,
  (forall k, In k (range attempt fuel) -> exists e, try_once api k = Throw e) ->
  snd (generate_from api client c fuel attempt lastError)
  = Throw (match fuel with
           | O => exit_error lastError
           | S n => error_of api (attempt + Z.of_nat n)%Z
           end)
  /\ calls_and_waits (fst (generate_from api client c fuel attempt lastError))
     = flat_map (failed_attempt client c) (range attempt fuel).
Proof.
  induction fuel as [| fuel IH]; intros attempt lastError Hfail.
  - cbn [generate_from]. destruct lastError; split; reflexivity.
  - cbn [generate_from].
    destruct (Hfail attempt) as [err Herr]; [apply range_In; lia |].
    rewrite Herr.
    destruct (IH (attempt + 1)%Z (Some err)) as [Hres Hevs].
    { intros k Hk. apply Hfail. rewrite range_S. now right. }
    destruct (generate_from api client c fuel (attempt + 1)%Z (Some err))
      as [later r].
    cbn [fst snd] in *. split.
    + rewrite Hres. f_equal. destruct fuel as [| n].
      * cbn [exit_error]. unfold error_of.
        replace (attempt + Z.of_nat 0)%Z with attempt by lia. now rewrite Herr.
      * f_equal. lia.
    + rewrite range_S. cbn [flat_map]. rewrite <- Hevs.
      rewrite !calls_and_waits_app. unfold failed_attempt.
      destruct (attempt <? maxRetries client)%Z; reflexivity.
Qed.

Lemma generate_from_first_success : forall before attempt lastError rest g,
  (forall k, In k (range attempt before) -> exists e, try_once api k = Throw e) ->
  try_once api (attempt + Z.of_nat before)%Z = Ret g ->
  snd (generate_from api client c (before + S rest) attempt lastError) = Ret g
  /\ calls_and_waits
       (fst (generate_from api client c (before + S rest) attempt lastError))
     = (flat_map (failed_attempt client c) (range attempt before)
        ++ [GenerateContent (attempt + Z.of_nat before)%Z c])%list.
Proof.
  induction before as [| before IH]; intros attempt lastError rest g Hfail Hok.
  - cbn [Nat.add generate_from].
    replace (attempt + Z.of_nat 0)%Z with attempt in * by lia.
    rewrite Hok. cbn [fst snd]. split; [reflexivity |].
    rewrite calls_and_waits_app. reflexivity.
  - cbn [Nat.add generate_from].
    destruct (Hfail attempt) as [err Herr]; [apply range_In; lia |].
    rewrite Herr.
    destruct (IH (attempt + 1)%Z (Some err) rest g) as [Hres Hevs].
    { intros k Hk. apply Hfail. rewrite range_S. now right. }
    { replace (attempt + 1 + Z.of_nat before)%Z
        with (attempt + Z.of_nat (S before))%Z by lia. exact Hok. }
    destruct (generate_from api client c (before + S rest) (attempt + 1)%Z (Some err))
      as [later r].
    cbn [fst snd] in *. split; [exact Hres |].
    rewrite range_S. cbn [flat_map]. rewrite !calls_and_waits_app, Hevs.
    replace (attempt + 1 + Z.of_nat before)%Z
      with (attempt + Z.of_nat (S before))%Z by lia.
    unfold failed_attempt.
    destruct (attempt <? maxRetries client)%Z; reflexivity.
Qed.

Lemma generate_from_requests_bound : forall fuel attempt lastError,
  (List.length (requests (fst (generate_from api client c fuel attempt lastError)))
   <= fuel)%nat.
Proof.
  induction fuel as [| fuel IH]; intros attempt lastError.
  - cbn [generate_from]. destruct lastError; simpl; lia.
  - cbn [generate_from]. destruct (try_once api attempt) as [g | err].
    + cbn [fst]. rewrite requests_app. simpl. lia.
    + specialize (IH (attempt + 1)%Z (Some err)).
      destruct (generate_from api client c fuel (attempt + 1)%Z (Some err))
        as [later r].
      cbn [fst] in *. rewrite !requests_app, !length_app.
      destruct (attempt <? maxRetries client)%Z; simpl; lia.
Qed.

(** Whatever [generate] returns was accepted by one attempt. *)
Lemma generate_from_Ret : forall fuel attempt lastError evs g,
  generate_from api client c fuel attempt lastError = (evs, Ret g) ->
  exists k, In k (range attempt fuel) /\ try_once api k = Ret g.
Proof.
  induction fuel as [| fuel IH]; intros attempt lastError evs g H.
  - cbn [generate_from] in H. destruct lastError; inversion H.
  - cbn [generate_from] in H. destruct (try_once api attempt) as [g' | err] eqn:E.
    + inversion H; subst. exists attempt. split; [apply range_In; lia | exact E].
    + destruct (generate_from api client c fuel (attempt + 1)%Z (Some err))
        as [later r] eqn:Erec.
      inversion H; subst.
      destruct (IH _ _ _ _ Erec) as [k [Hk Hok]].
      exists k. split; [rewrite range_S; now right | exact Hok].
Qed.

End Loop.

End GenerateFacts.

Section RetryFacts.
Import GeminiClient.

Lemma generate_from_ext : forall api api' client c fuel attempt lastError,
  (forall k, try_once api' k = try_once api k) ->
  generate_from api' client c fuel attempt lastError
  = generate_from api client c fuel attempt lastError.
Proof.
  intros api api' client c. induction fuel as [| fuel IH];
    intros attempt lastError H; [reflexivity |].
  cbn [generate_from]. rewrite H. destruct (try_once api attempt); [reflexivity |].
  now rewrite IH.
Qed.

(** C10. Whenever [generate] resolves, the text it returns is not empty
    and not made of white space only, and it is the text of the response
    of one of the attempts allowed; and a response whose text is missing,
    empty or white space only counts as a failed attempt: [generate]
    behaves, event for event, as if that attempt had thrown the error
    Gemini 返回空响应, which is retried like any other failure. *)
Theorem generate_never_resolves_with_blank_text :
  (forall api client c evs g,
     generate api client c = (evs, Ret g) ->
     g_text g <> ""
     /\ ~ whitespace_only (g_text g)
     /\ exists k response,
          (1 <= k <= maxRetries client)%Z
          /\ api k = Ret response
          /\ text response = Some (g_text g))
  /\ (forall api api' client c,
        (forall k,
           api' k = api k
           \/ exists response,
                api k = Ret response /\ blank (text response)
                /\ api' k = Throw empty_response) ->
        generate api' client c = generate api client c)
  /\ (forall api k response,
        api k = Ret response -> blank (text response) ->
        try_once api k = Throw empty_response).
Proof.
  split.
  { intros api client c evs g H. unfold generate in H.
    destruct (generate_from_Ret api client c _ _ _ _ _ H) as [k [Hk Hok]].
    apply range_In in Hk. unfold try_once in Hok.
    destruct (api k) as [response |] eqn:Eapi; [| discriminate].
    apply check_response_Ret in Hok. destruct Hok as [Htext Hnot].
    rewrite Htext in Hnot. cbn [blank] in Hnot.
    split; [| split; [exact Hnot |]].
    - intro Hempty. apply Hnot. rewrite Hempty. apply whitespace_only_empty.
    - exists k, response. split; [lia |]. split; [exact Eapi | exact Htext]. }
  split.
  { intros api api' client c H. unfold generate. apply generate_from_ext.
    intro k. unfold try_once. destruct (H k) as [-> | [response [Ha [Hb ->]]]];
      [reflexivity |].
    rewrite Ha. symmetry. now apply check_response_blank. }
  intros api k response Ha Hb. unfold try_once. rewrite Ha.
  now apply check_response_blank.
Qed.

Lemma timeouts_app : forall a b, timeouts (a ++ b)%list = (timeouts a ++ timeouts b)%list.
Proof.
  induction a as [| e a IH]; intro b; [reflexivity |].
  destruct e; simpl; rewrite IH; reflexivity.
Qed.

Lemma timeouts_calls_and_waits : forall evs,
  timeouts (calls_and_waits evs) = timeouts evs.
Proof.
  induction evs as [| e evs IH]; [reflexivity |].
  destruct e; simpl; rewrite ?IH; reflexivity.
Qed.

Lemma timeouts_failed_attempts : forall client c n a,
  (a + Z.of_nat n - 1 = maxRetries client)%Z ->
  timeouts (flat_map (failed_attempt client c) (range a n))
  = map (fun k => (retryDelay client * k)%Z) (range a (Nat.pred n)).
Proof.
  intros client c. induction n as [| n IH]; intros a Ha; [reflexivity |].
  rewrite range_S. cbn [flat_map]. rewrite timeouts_app.
  unfold failed_attempt at 1. destruct n as [| m].
  - replace (a <? maxRetries client)%Z with false by (symmetry; apply Z.ltb_ge; lia).
    reflexivity.
  - replace (a <? maxRetries client)%Z with true by (symmetry; apply Z.ltb_lt; lia).
    rewrite (IH (a + 1)%Z) by lia.
    cbn [Nat.pred]. rewrite (range_S a m). reflexivity.
Qed.

Lemma flat_map_ext_on : forall (A B : Type) (f g : A -> list B) (l : list A),
  (forall x, In x l -> f x = g x) -> flat_map f l = flat_map g l.
Proof.
  intros A B f g l. induction l as [| x l IH]; intro H; [reflexivity |].
  cbn [flat_map]. rewrite (H x) by now left.
  rewrite IH; [reflexivity |]. intros y Hy. apply H. now right.
Qed.

Lemma delays_increasing : forall d n a,
  (0 < d)%Z -> StronglySorted Z.lt (map (fun k => (d * k)%Z) (range a n)).
Proof.
  intros d. induction n as [| n IH]; intros a Hd; [constructor |].
  rewrite range_S. cbn [map]. constructor; [now apply IH |].
  apply Forall_forall. intros x Hx. apply in_map_iff in Hx.
  destruct Hx as [k [<- Hk]]. apply range_In in Hk. nia.
Qed.

End RetryFacts.

Section RetryAndCount.
Import GeminiClient.

Variable JSON_parse : string -> result json.

Lemma generate_from_no_save : forall api client c fuel attempt lastError,
  saves (fst (generate_from api client c fuel attempt lastError)) = [].
Proof.
  intros api client c. induction fuel as [| fuel IH]; intros attempt lastError.
  - cbn [generate_from]. destruct lastError; reflexivity.
  - cbn [generate_from]. destruct (try_once api attempt) as [g | err];
      [reflexivity |].
    specialize (IH (attempt + 1)%Z (Some err)).
    destruct (generate_from api client c fuel (attempt + 1)%Z (Some err))
      as [later r].
    cbn [fst] in *. rewrite !saves_app, IH.
    destruct (attempt <? maxRetries client)%Z; reflexivity.
Qed.

(** C6. [generate] sends at most [maxRetries] requests. When every
    attempt fails it makes exactly the attempts 1 to [maxRetries], waiting
    [retryDelay * k] after the failed attempt [k] and not at all after the
    last one (so the waits grow when the delay is positive), and throws
    the error of the last attempt; when attempt [k] is the first to
    succeed, the attempts before it were each followed by their wait and
    [k] is the last request. When [generate] throws, the pipeline that
    awaited it counts one more error for its tier, saves nothing, leaves
    the other two counters as they were and ends. The client of a
    configuration whose [max_retries] is not negative allows at least one
    attempt: the configured number, or 3 when it is 0. *)
Theorem failed_analysis_is_retried_then_counted :
  (forall config,
     (0 <= max_retries config)%Z ->
     (1 <= maxRetries (constructor config))%Z
     /\ maxRetries (constructor config)
        = (if (max_retries config =? 0)%Z then 3 else max_retries config)%Z
     /\ retryDelay (constructor config)
        = ((if (retry_delay config =? 0)%Z then 2 else retry_delay config) * 1000)%Z)
  /\ (forall api client c,
     (List.length (requests (fst (generate api client c)))
      <= Z.to_nat (maxRetries client))%nat)
  /\ (forall api client c,
        (1 <= maxRetries client)%Z ->
        (forall k, (1 <= k <= maxRetries client)%Z ->
                   exists e, try_once api k = Throw e) ->
        exists evs e,
          generate api client c = (evs, Throw e)
          /\ try_once api (maxRetries client) = Throw e
          /\ calls_and_waits evs
             = flat_map (failed_attempt client c)
                        (range 1 (Z.to_nat (maxRetries client)))
          /\ timeouts evs
             = map (fun k => (retryDelay client * k)%Z)
                   (range 1 (Nat.pred (Z.to_nat (maxRetries client))))
          /\ ((0 < retryDelay client)%Z -> StronglySorted Z.lt (timeouts evs)))
  /\ (forall api client c k g,
        (1 <= k <= maxRetries client)%Z ->
        (forall j, (1 <= j < k)%Z -> exists e, try_once api j = Throw e) ->
        try_once api k = Ret g ->
        exists evs,
          generate api client c = (evs, Ret g)
          /\ calls_and_waits evs
             = (flat_map (fun j => [GenerateContent j c;
                                    SetTimeout (retryDelay client * j)%Z])
                         (range 1 (Z.to_nat (k - 1)))
                ++ [GenerateContent k c])%list)
  /\ (forall g s p renv called e,
        generate (SummaryScheduler.api renv) (SummaryScheduler.geminiClient s)
                 (SummaryScheduler.p_contents p) = (called, Throw e) ->
        exists evs,
          SummaryScheduler.resumed JSON_parse g s p renv
          = (SummaryScheduler.with_executing g false
               (SummaryScheduler.with_stats g SummaryScheduler.errors_incr s),
             evs, SummaryScheduler.Completed)
          /\ saves evs = []
          /\ SummaryScheduler.get g
               (SummaryScheduler.stats
                  (SummaryScheduler.with_stats g SummaryScheduler.errors_incr s))
             = SummaryScheduler.mkStats
                 (SummaryScheduler.count
                    (SummaryScheduler.get g (SummaryScheduler.stats s)))
                 (SummaryScheduler.errors
                    (SummaryScheduler.get g (SummaryScheduler.stats s)) + 1)
                 (SummaryScheduler.skipped
                    (SummaryScheduler.get g (SummaryScheduler.stats s)))).
Proof.
  split.
  { intros config Hcfg. unfold constructor. cbn [maxRetries retryDelay].
    destruct (max_retries config =? 0)%Z eqn:E; repeat split; lia. }
  split.
  { intros api client c. unfold generate. apply generate_from_requests_bound. }
  split.
  { intros api client c Hmax Hfail. unfold generate.
    destruct (generate_from_all_fail api client c
                (Z.to_nat (maxRetries client)) 1 None) as [Hres Hevs].
    { intros k Hk. apply Hfail. apply range_In in Hk. lia. }
    destruct (generate_from api client c (Z.to_nat (maxRetries client)) 1 None)
      as [evs r] eqn:E.
    cbn [fst snd] in *.
    destruct (Z.to_nat (maxRetries client)) as [| n] eqn:En; [lia |].
    exists evs, (error_of api (1 + Z.of_nat n)). subst r.
    split; [reflexivity |].
    assert (1 + Z.of_nat n = maxRetries client)%Z as Hlast by lia.
    split.
    { rewrite <- Hlast. unfold error_of.
      destruct (Hfail (1 + Z.of_nat n)%Z ltac:(lia)) as [e He]. now rewrite He. }
    split; [exact Hevs |].
    assert (timeouts evs
            = map (fun k => (retryDelay client * k)%Z) (range 1 (Nat.pred (S n))))
      as Ht.
    { rewrite <- timeouts_calls_and_waits, Hevs.
      apply timeouts_failed_attempts. lia. }
    split; [exact Ht |].
    intro Hd. rewrite Ht. now apply delays_increasing. }
  split.
  { intros api client c k g Hk Hfail Hok. unfold generate.
    assert (exists rest, Z.to_nat (maxRetries client)
                         = (Z.to_nat (k - 1) + S rest)%nat) as [rest Hfuel].
    { exists (Z.to_nat (maxRetries client - k)). lia. }
    rewrite Hfuel.
    destruct (generate_from_first_success api client c (Z.to_nat (k - 1)) 1 None rest g)
      as [Hres Hevs].
    { intros j Hj. apply Hfail. apply range_In in Hj. lia. }
    { replace (1 + Z.of_nat (Z.to_nat (k - 1)))%Z with k by lia. exact Hok. }
    destruct (generate_from api client c (Z.to_nat (k - 1) + S rest) 1 None)
      as [evs r].
    cbn [fst snd] in *. subst r. exists evs. split; [reflexivity |].
    rewrite Hevs. replace (1 + Z.of_nat (Z.to_nat (k - 1)))%Z with k by lia.
    f_equal. apply flat_map_ext_on. intros j Hj. apply range_In in Hj.
    unfold failed_attempt.
    replace (j <? maxRetries client)%Z with true by (symmetry; apply Z.ltb_lt; lia).
    reflexivity. }
  intros g s p renv called e Hgen.
  exists (called ++ [Log LError (SummaryScheduler.tag g ++ "总结失败: " ++ message e)])%list.
  split.
  { destruct g; unfold SummaryScheduler.resumed, SummaryScheduler._run2min_resumed,
      SummaryScheduler._run10min_resumed, SummaryScheduler._run1h_resumed,
      SummaryScheduler.after_generate; rewrite Hgen; reflexivity. }
  split.
  { rewrite saves_app. unfold generate in Hgen.
    pose proof (generate_from_no_save (SummaryScheduler.api renv)
                  (SummaryScheduler.geminiClient s) (SummaryScheduler.p_contents p)
                  (Z.to_nat (maxRetries (SummaryScheduler.geminiClient s))) 1 None) as H.
    rewrite Hgen in H. cbn [fst] in H. now rewrite H. }
  unfold SummaryScheduler.with_stats. fields. now rewrite get_set_same.
Qed.

End RetryAndCount.

(** ** Gap detection *)

Section GapFacts.
Import ScreenshotComparer SummaryScheduler.

Variable Date_parse : string -> option Z.
Variable toLocaleTimeString : Z -> string.

Let _detectTimeGap := SummaryScheduler._detectTimeGap Date_parse toLocaleTimeString.

Lemma last_snoc : forall (A : Type) (older : list A) (x : A) (d : option A),
  last (map Some (older ++ [x])%list) d = Some x.
Proof.
  intros A older x d. induction older as [| y older IH]; [reflexivity |].
  change (map Some ((y :: older) ++ [x])%list)
    with (Some y :: map Some (older ++ [x])%list).
  destruct (map Some (older ++ [x])%list) eqn:E.
  - destruct older; discriminate.
  - exact IH.
Qed.

Lemma _detectTimeGap_snoc : forall older r interval now,
  _detectTimeGap (older ++ [r])%list interval now
  = match record_time Date_parse r with
    | None => None
    | Some t =>
        if (Math_round_div (now - t) 60000 >? interval * 2)%Z
        then Some {| gapMinutes := Math_round_div (now - t) 60000;
                     lastSummaryTime := toLocaleTimeString t |}
        else None
    end.
Proof.
  intros older r interval now.
  unfold _detectTimeGap, SummaryScheduler._detectTimeGap, record_time.
  rewrite last_snoc. destruct (obj_get "timestamp" r) as [ts |]; [| reflexivity].
  destruct (truthy ts); [| reflexivity]. cbn [negb].
  destruct (new_Date_getTime Date_parse ts); reflexivity.
Qed.

(** C5. [_detectTimeGap] returns a gap exactly when the history has a
    last record whose timestamp can be read and the minutes elapsed since
    then, rounded to the nearest integer (a tie going up), exceed twice
    the expected interval; the gap then carries those minutes. It returns
    null for an empty history and for a last record without a readable
    timestamp; with an expected interval of 2, exactly 4 minutes give
    null and exactly 5 minutes give a gap of 5. *)
Theorem detectTimeGap_iff_more_than_twice_interval :
  (forall history interval now gap,
     _detectTimeGap history interval now = Some gap
     <-> exists older lastRecord t,
           history = (older ++ [lastRecord])%list
           /\ record_time Date_parse lastRecord = Some t
           /\ (Math_round_div (now - t) 60000 > 2 * interval)%Z
           /\ gap = {| gapMinutes := Math_round_div (now - t) 60000;
                       lastSummaryTime := toLocaleTimeString t |})
  /\ (forall a b, (0 < b)%Z ->
        (2 * b * Math_round_div a b - b <= 2 * a < 2 * b * Math_round_div a b + b)%Z)
  /\ (forall interval now, _detectTimeGap [] interval now = None)
  /\ (forall older lastRecord interval now,
        record_time Date_parse lastRecord = None ->
        _detectTimeGap (older ++ [lastRecord])%list interval now = None)
  /\ (forall older lastRecord t now,
        record_time Date_parse lastRecord = Some t ->
        (now - t = 4 * 60000)%Z ->
        _detectTimeGap (older ++ [lastRecord])%list 2 now = None)
  /\ (forall older lastRecord t now,
        record_time Date_parse lastRecord = Some t ->
        (now - t = 5 * 60000)%Z ->
        _detectTimeGap (older ++ [lastRecord])%list 2 now
        = Some {| gapMinutes := 5; lastSummaryTime := toLocaleTimeString t |}).
Proof.
  split.
  { intros history interval now gap. split.
    - intro H.
      destruct history as [| lastRecord older] using rev_ind; [discriminate |].
      clear IHolder. rewrite _detectTimeGap_snoc in H.
      destruct (record_time Date_parse lastRecord) as [t |] eqn:Et; [| discriminate].
      destruct (Math_round_div (now - t) 60000 >? interval * 2)%Z eqn:E;
        [| discriminate].
      inversion H; subst. exists older, lastRecord, t.
      repeat split; [exact Et | lia].
    - intros [older [lastRecord [t [-> [Ht [Hgt ->]]]]]].
      rewrite _detectTimeGap_snoc, Ht.
      replace (Math_round_div (now - t) 60000 >? interval * 2)%Z with true
        by (symmetry; apply Z.gtb_lt; lia).
      reflexivity. }
  split.
  { intros a b Hb. unfold Math_round_div.
    pose proof (Z.div_mod (2 * a + b) (2 * b) ltac:(lia)) as Hdm.
    pose proof (Z.mod_pos_bound (2 * a + b) (2 * b) ltac:(lia)) as Hm.
    lia. }
  split; [reflexivity |].
  split.
  { intros older lastRecord interval now H. now rewrite _detectTimeGap_snoc, H. }
  split.
  { intros older lastRecord t now Ht Hdiff.
    rewrite _detectTimeGap_snoc, Ht, Hdiff. reflexivity. }
  intros older lastRecord t now Ht Hdiff.
  rewrite _detectTimeGap_snoc, Ht, Hdiff. reflexivity.
Qed.

End GapFacts.

(** ** The skip path and the analysis path *)

Section SkipFacts.
Import ScreenshotComparer SummaryScheduler.

Variable JSON_parse : string -> result json.
Variable Date_parse : string -> option Z.
Variable toLocaleTimeString : Z -> string.

Let run := SummaryScheduler.run Date_parse toLocaleTimeString.
Let resumed := SummaryScheduler.resumed JSON_parse.

(** What the synchronous part of [_run2min] saves: nothing, or the one
    record [buildNoChange2minRecord] built. *)
Lemma _run2min_saves : forall s env,
  saves (snd (fst (_run2min Date_parse toLocaleTimeString s env))) = []
  \/ exists first rest activeWindowText record,
       buildNoChange2minRecord (first :: rest) activeWindowText = Ret record
       /\ saves (snd (fst (_run2min Date_parse toLocaleTimeString s env)))
          = [(G2min, stamp env, record)].
Proof.
  intros s env. unfold _run2min.
  destruct (get G2min (_executing s) || negb (_isAllowed s (gate_now env)));
    [now left |].
  unfold _run2min_try, leave_try. fields.
  destruct (granularity_base (config s)) as [baseConfig |]; [| now left].
  destruct (enabled baseConfig); [| now left]. cbn [negb].
  fold (screenshots_read s env baseConfig).
  destruct (screenshots_read s env baseConfig) as [| first rest]; [now left |].
  destruct (screenshotComparer s && allIdentical (first :: rest)).
  - match goal with
    | |- context [buildNoChange2minRecord (first :: rest) ?txt] =>
        destruct (buildNoChange2minRecord (first :: rest) txt) as [record | e] eqn:Eb;
        [| left; cbn [fst snd]; project_events; reflexivity]
    end.
    unfold save. destruct (save_throws env).
    + left. cbn [fst snd]. project_events; reflexivity.
    + right. do 4 eexists. split; [exact Eb |].
      cbn [fst snd]. project_events; reflexivity.
  - left.
    pose proof (window_step_quiet (with_executing G2min true s) env G2min
                  (baseMinutes * 60 * 1000)%Z) as [Hquiet _].
    destruct (window_step (with_executing G2min true s) env G2min
                (baseMinutes * 60 * 1000)%Z) as [text logged].
    cbn [fst snd] in *. project_events; rewrite ?Hquiet; reflexivity.
Qed.

Lemma buildNoChange2minRecord_Ret : forall first rest activeWindowText,
  exists fields,
    buildNoChange2minRecord (first :: rest) activeWindowText = Ret (JObj fields)
    /\ obj_get "no_change" fields = Some (JBool true)
    /\ obj_get "category_type" fields = Some (JArr [JStr "行为"])
    /\ obj_get "category_name" fields = Some (JArr [JStr "屏幕无变化"])
    /\ obj_get "subtask_name" fields = Some (JArr [JStr ""])
    /\ obj_get "duration_minutes" fields = Some (JNum 2).
Proof.
  intros first rest activeWindowText. unfold buildNoChange2minRecord.
  destruct rest as [| x rest] using rev_ind.
  - eexists. split; [reflexivity |]. repeat split.
  - clear IHrest. change (first :: rest ++ [x])%list with ((first :: rest) ++ [x])%list.
    rewrite last_snoc. eexists. split; [reflexivity |]. repeat split.
Qed.

(** C2, as amended. When the change detector reports no change, a call
    of the tier's pipeline that finds the flag down and the gate open
    builds the no-change record of its tier, sends no request to the
    analysis service and ends without awaiting it. If the store takes the
    write, that record is the one record saved, under the tier and the
    time stamp of the call, and the tier's [skipped] counter goes up by
    one; if the write throws, nothing is saved and the tier's [errors]
    counter goes up by one instead. *)
Theorem no_change_skips_analysis : forall g s env,
  get g (_executing s) = false ->
  _isAllowed s (gate_now env) = true ->
  reports_no_change g s env = true ->
  exists fields evs s',
    no_change_record g s env = Ret (JObj fields)
    /\ obj_get "no_change" fields = Some (JBool true)
    /\ run g s env = (s', evs, Completed)
    /\ requests evs = []
    /\ match save_throws env with
       | None => saves evs = [(g, stamp env, JObj fields)]
                 /\ s' = with_stats g skipped_incr s
       | Some _ => saves evs = []
                   /\ s' = with_stats g errors_incr s
       end.
Proof.
  intros g s env Hflag Hgate Hreport.
  unfold reports_no_change in Hreport. apply andb_true_iff in Hreport.
  destruct Hreport as [Hcomparer Hdetect].
  destruct g.
  - destruct (granularity_base (config s)) as [baseConfig |] eqn:Ebase;
      [| discriminate].
    apply andb_true_iff in Hdetect. destruct Hdetect as [Henabled Hsame].
    destruct (screenshots_read s env baseConfig) as [| first rest] eqn:Eshots;
      [discriminate |].
    destruct (buildNoChange2minRecord_Ret first rest
                (if activeWindowCollector s
                 then snd (window_text env (baseMinutes * 60 * 1000)%Z)
                 else "")) as [fields [Hbuild [Hnc _]]].
    unfold no_change_record. rewrite Ebase, Eshots.
    unfold run, SummaryScheduler.run, _run2min. rewrite Hflag, Hgate. cbn [orb negb].
    unfold _run2min_try. fields. rewrite Ebase, Henabled. cbn [negb].
    fold (screenshots_read s env baseConfig). rewrite Eshots.
    rewrite Hcomparer, Hsame. cbn [andb]. rewrite Hbuild.
    unfold save, leave_try. exists fields.
    destruct (save_throws env) as [e |]; eexists; eexists;
      (split; [reflexivity |]); (split; [exact Hnc |]);
      (split; [reflexivity |]).
    + split; [project_events; reflexivity |].
      split; [project_events; reflexivity |].
      now apply with_executing_stats_cancel.
    + split; [project_events; reflexivity |].
      split; [project_events; reflexivity |].
      now apply with_executing_stats_cancel.
  - cbn [children_read] in Hdetect.
    unfold no_change_record. cbn [children_read].
    unfold run, SummaryScheduler.run, _run10min. rewrite Hflag, Hgate. cbn [orb negb].
    unfold _run10min_try. fields.
    destruct (getRecentSummaries env baseGranularity
                (Z.max 1 (Math_ceil_div 10 baseMinutes))) as [| first rest] eqn:Echildren;
      [discriminate |].
    rewrite Hcomparer, Hdetect. cbn [andb].
    unfold save, leave_try. eexists.
    destruct (save_throws env) as [e |]; eexists; eexists;
      (split; [reflexivity |]); (split; [reflexivity |]);
      (split; [reflexivity |]).
    + split; [project_events; reflexivity |].
      split; [project_events; reflexivity |].
      now apply with_executing_stats_cancel.
    + split; [project_events; reflexivity |].
      split; [project_events; reflexivity |].
      now apply with_executing_stats_cancel.
  - cbn [children_read] in Hdetect.
    unfold no_change_record. cbn [children_read].
    unfold run, SummaryScheduler.run, _run1h. rewrite Hflag, Hgate. cbn [orb negb].
    unfold _run1h_try. fields.
    destruct (getRecentSummaries env G10min
                (granularity_1h_recent_10min_count (config s)))
      as [| first rest] eqn:Echildren; [discriminate |].
    rewrite Hcomparer, Hdetect. cbn [andb].
    unfold save, leave_try. eexists.
    destruct (save_throws env) as [e |]; eexists; eexists;
      (split; [reflexivity |]); (split; [reflexivity |]);
      (split; [reflexivity |]).
    + split; [project_events; reflexivity |].
      split; [project_events; reflexivity |].
      now apply with_executing_stats_cancel.
    + split; [project_events; reflexivity |].
      split; [project_events; reflexivity |].
      now apply with_executing_stats_cancel.
Qed.

(** C9. For a non-empty list of screenshots [buildNoChange2minRecord]
    returns a record whose [no_change] is true, which carries exactly one
    placeholder claim (category type 行为, category name 屏幕无变化, an empty
    subtask) and whose [duration_minutes] is 2. The function reads
    nothing but its two arguments, and a record the 2-minute pipeline
    saves before its awaited call is always such a record, whatever the
    counters of the scheduler and whatever the store already holds: the
    duration stays 2 however many unchanged windows came before. *)
Theorem buildNoChange2minRecord_duration_is_two :
  (forall first rest activeWindowText,
     exists fields,
       buildNoChange2minRecord (first :: rest) activeWindowText = Ret (JObj fields)
       /\ obj_get "no_change" fields = Some (JBool true)
       /\ obj_get "category_type" fields = Some (JArr [JStr "行为"])
       /\ obj_get "category_name" fields = Some (JArr [JStr "屏幕无变化"])
       /\ obj_get "subtask_name" fields = Some (JArr [JStr ""])
       /\ obj_get "duration_minutes" fields = Some (JNum 2))
  /\ (forall s env g ts data,
        In (g, ts, data)
           (saves (snd (fst (_run2min Date_parse toLocaleTimeString s env)))) ->
        exists fields,
          data = JObj fields
          /\ obj_get "no_change" fields = Some (JBool true)
          /\ obj_get "duration_minutes" fields = Some (JNum 2)).
Proof.
  split; [exact buildNoChange2minRecord_Ret |].
  intros s env g ts data Hin.
  destruct (_run2min_saves s env) as [Hnone | [first [rest [txt [record [Hb Hs]]]]]].
  - rewrite Hnone in Hin. destruct Hin.
  - rewrite Hs in Hin. destruct Hin as [Heq | []]. inversion Heq; subst.
    destruct (buildNoChange2minRecord_Ret first rest txt)
      as [fields [Hbuild [Hnc [_ [_ [_ Hd]]]]]].
    rewrite Hbuild in Hb. inversion Hb; subst. now exists fields.
Qed.


End SkipFacts.

Section ParentFacts.
Import ScreenshotComparer SummaryScheduler.

Variable JSON_parse : string -> result json.
Variable Date_parse : string -> option Z.
Variable toLocaleTimeString : Z -> string.

Let run := SummaryScheduler.run Date_parse toLocaleTimeString.
Let resumed := SummaryScheduler.resumed JSON_parse.


End ParentFacts.

(** ** Concrete runs *)

Section Witnesses.
Import ScreenshotComparer SummaryScheduler EventLoop.

Let run := SummaryScheduler.run Sample.Date_parse Sample.toLocaleTimeString.
Let resumed := SummaryScheduler.resumed Sample.JSON_parse.
Let step := EventLoop.step Sample.JSON_parse Sample.Date_parse Sample.toLocaleTimeString.

(** Two identical screenshots, one that differs. *)
Lemma allIdentical_sample :
  allIdentical Sample.unchanged_screenshots = true
  /\ allIdentical Sample.changed_screenshots = false.
Proof.
  split.
  - apply (proj2 (proj1 (proj2 (proj2 allIdentical_iff_all_equal_first)) _ _ _)).
    repeat constructor.
  - apply (proj2 (proj2 (proj2 allIdentical_iff_all_equal_first))
             (Sample.shot [x01; x02; x03] 1770717900000) []
             (Sample.shot [x01; x02; x04] 1770717910000) []).
    discriminate.
Defined.

(** The skip path at the base tier, the store taking the write. *)
Lemma no_change_skips_analysis_sample :
  (get G2min (_executing Sample.scheduler) = false
   /\ _isAllowed Sample.scheduler (gate_now Sample.env_unchanged) = true
   /\ reports_no_change G2min Sample.scheduler Sample.env_unchanged = true)
  /\ exists fields evs s',
       no_change_record G2min Sample.scheduler Sample.env_unchanged = Ret (JObj fields)
       /\ obj_get "no_change" fields = Some (JBool true)
       /\ run G2min Sample.scheduler Sample.env_unchanged = (s', evs, Completed)
       /\ requests evs = []
       /\ match save_throws Sample.env_unchanged with
          | None => saves evs = [(G2min, stamp Sample.env_unchanged, JObj fields)]
                    /\ s' = with_stats G2min skipped_incr Sample.scheduler
          | Some _ => saves evs = []
                      /\ s' = with_stats G2min errors_incr Sample.scheduler
          end.
Proof.
  split; [repeat split |].
  apply (no_change_skips_analysis Sample.Date_parse Sample.toLocaleTimeString
           G2min Sample.scheduler Sample.env_unchanged); reflexivity.
Defined.

(** Against C2 as stated: the change detector reports no change, the
    write to the store throws; no record is saved, [skipped] stays 0 and
    [errors] becomes 1. *)
Lemma unchanged_screen_failed_write_counts_error :
  get G2min (_executing Sample.scheduler) = false
  /\ _isAllowed Sample.scheduler (gate_now Sample.env_disk_full) = true
  /\ reports_no_change G2min Sample.scheduler Sample.env_disk_full = true
  /\ saves (snd (fst (run G2min Sample.scheduler Sample.env_disk_full))) = []
  /\ get G2min (stats (fst (fst (run G2min Sample.scheduler Sample.env_disk_full))))
     = mkStats 0 1 0
  /\ snd (run G2min Sample.scheduler Sample.env_disk_full) = Completed.
Proof. repeat split; vm_compute; reflexivity. Qed.



Lemma world_awaiting_reachable :
  EventLoop.reachable Sample.JSON_parse Sample.Date_parse Sample.toLocaleTimeString
    Sample.world_awaiting.
Proof.
  apply (reach_step _ _ _ Sample.world_started (Fire 0%nat G2min Sample.env_changed));
    [| vm_compute; reflexivity].
  apply (reach_step _ _ _ (init Sample.scheduler) CallStart);
    [| vm_compute; reflexivity].
  apply reach_init.
Qed.

(** One run in flight, and a second fire of the same timer dropped. *)
Lemma one_execution_in_flight_sample :
  ((in_flight G2min Sample.world_awaiting <= 1)%nat
   /\ (in_flight G2min Sample.world_awaiting = 1%nat
       <-> get G2min (_executing (sched Sample.world_awaiting)) = true))
  /\ in_flight G2min Sample.world_awaiting = 1%nat
  /\ step (Fire 0%nat G2min Sample.env_changed) Sample.world_awaiting = Some Sample.world_awaiting.
Proof.
  split.
  - exact (proj1 (one_execution_in_flight_per_tier
                    Sample.JSON_parse Sample.Date_parse Sample.toLocaleTimeString)
             Sample.world_awaiting world_awaiting_reachable G2min).
  - split; [reflexivity |].
    apply (proj2 (one_execution_in_flight_per_tier
                    Sample.JSON_parse Sample.Date_parse Sample.toLocaleTimeString));
      reflexivity.
Defined.


(** The last base record is of 18:04:00; four minutes later no gap, five
    minutes later a gap of five minutes. *)
Lemma detectTimeGap_sample :
  record_time Sample.Date_parse (Sample.child "2026-02-10T10:04:00.000Z")
  = Some 1770717840000%Z
  /\ _detectTimeGap Sample.Date_parse Sample.toLocaleTimeString
       Sample.children 2 (1770717840000 + 240000) = None
  /\ _detectTimeGap Sample.Date_parse Sample.toLocaleTimeString
       Sample.children 2 (1770717840000 + 300000)
     = Some {| gapMinutes := 5; lastSummaryTime := "18:04:00" |}.
Proof.
  pose proof (detectTimeGap_iff_more_than_twice_interval
                Sample.Date_parse Sample.toLocaleTimeString)
    as [_ [_ [_ [_ [Hfour Hfive]]]]].
  split; [reflexivity |]. split.
  - apply (Hfour [Sample.child "2026-02-10T10:02:00.000Z"]
             (Sample.child "2026-02-10T10:04:00.000Z") 1770717840000%Z);
      reflexivity.
  - apply (Hfive [Sample.child "2026-02-10T10:02:00.000Z"]
             (Sample.child "2026-02-10T10:04:00.000Z") 1770717840000%Z);
      reflexivity.
Defined.

(** Three failed attempts, waits of 2 and 4 seconds between them, and the
    error of the third thrown. *)
Lemma failed_analysis_sample :
  exists evs,
    GeminiClient.generate (api Sample.always_fails) Sample.client
      [TextPart "10min prompt"]
    = (evs, Throw (Error "503 Service Unavailable"))
    /\ calls_and_waits evs
       = [GenerateContent 1 [TextPart "10min prompt"]; SetTimeout 2000;
          GenerateContent 2 [TextPart "10min prompt"]; SetTimeout 4000;
          GenerateContent 3 [TextPart "10min prompt"]].
Proof.
  destruct (proj1 (proj2 (proj2 (failed_analysis_is_retried_then_counted
                                   Sample.JSON_parse)))
              (api Sample.always_fails) Sample.client [TextPart "10min prompt"])
    as [evs [e [Hgen [Hlast [Hevs _]]]]].
  - vm_compute. discriminate.
  - intros k _. exists (Error "503 Service Unavailable"). reflexivity.
  - exists evs. inversion Hlast; subst e. split; [exact Hgen | exact Hevs].
Defined.

(** The skip path leaves the flag of the base tier down. *)
Lemma executing_flag_down_sample :
  get G2min (_executing Sample.scheduler) = false
  /\ snd (run G2min Sample.scheduler Sample.env_unchanged) = Completed
  /\ get G2min (_executing (fst (fst (run G2min Sample.scheduler Sample.env_unchanged))))
     = false.
Proof.
  split; [reflexivity |]. split; [reflexivity |].
  apply (proj1 (executing_flag_down_after_run
                  Sample.JSON_parse Sample.Date_parse Sample.toLocaleTimeString)
           G2min Sample.scheduler Sample.env_unchanged _
           (snd (fst (run G2min Sample.scheduler Sample.env_unchanged))) Completed);
    [reflexivity | reflexivity | intros p H; discriminate].
Defined.

(** A white-space-only answer is retried; the text returned is the first
    one that is not blank. *)
Lemma generate_blank_then_text_sample :
  exists evs,
    GeminiClient.generate
      (fun attempt => Ret (GeminiClient.mkResponse
                             (Some (if (attempt =? 1)%Z then "  " else "{}")) None))
      Sample.client [TextPart "2min prompt"]
    = (evs, Ret (GeminiClient.mkGenerated "{}" None))
    /\ GeminiClient.g_text (GeminiClient.mkGenerated "{}" None) <> ""
    /\ requests evs = [(1%Z, [TextPart "2min prompt"]); (2%Z, [TextPart "2min prompt"])].
Proof.
  exists (fst (GeminiClient.generate
                 (fun attempt => Ret (GeminiClient.mkResponse
                                        (Some (if (attempt =? 1)%Z then "  " else "{}"))
                                        None))
                 Sample.client [TextPart "2min prompt"])).
  split; [vm_compute; reflexivity |]. split; [| vm_compute; reflexivity].
  apply (proj1 generate_never_resolves_with_blank_text
           (fun attempt => Ret (GeminiClient.mkResponse
                                  (Some (if (attempt =? 1)%Z then "  " else "{}")) None))
           Sample.client [TextPart "2min prompt"] _ _ eq_refl).
Defined.

End Witnesses.

(* ================================================================== *)
(** * Properties of the collaborators and of the scheduler's helpers   *)
(* ================================================================== *)

Import Js Effects Notions Shapes.

Section LedgerFacts.
Import ScreenshotComparer SummaryScheduler EventLoop.

Variable JSON_parse : string -> result json.
Variable Date_parse : string -> option Z.
Variable toLocaleTimeString : Z -> string.

Let run := SummaryScheduler.run Date_parse toLocaleTimeString.
Let resumed := SummaryScheduler.resumed JSON_parse.
Let step := EventLoop.step JSON_parse Date_parse toLocaleTimeString.
Let reachable := EventLoop.reachable JSON_parse Date_parse toLocaleTimeString.

Lemma written_app : forall g a b, written g (a ++ b)%list = written g a + written g b.
Proof.
  intros g a b. unfold written. rewrite saves_app, filter_app, length_app. lia.
Qed.

Lemma written_quiet : forall g evs, saves evs = [] -> written g evs = 0.
Proof. intros g evs H. unfold written. rewrite H. reflexivity. Qed.

Lemma written_one : forall g g' evs ts data,
  saves evs = [(g, ts, data)] ->
  written g' evs = if same_tier g g' then 1 else 0.
Proof.
  intros g g' evs ts data H. unfold written. rewrite H. cbn [filter fst].
  destruct (same_tier g g'); reflexivity.
Qed.

Lemma booked_2min : forall s env,
  booked G2min s (_run2min_try Date_parse toLocaleTimeString s env).
Proof.
  intros s env. unfold _run2min_try, booked.
  destruct (granularity_base (config s)) as [baseConfig |]; [| now left].
  destruct (enabled baseConfig); [| now left]. cbn [negb].
  match goal with
  | |- context [getRecentScreenshotBuffers env ?a ?b] =>
      destruct (getRecentScreenshotBuffers env a b) as [| first rest]; [now left |]
  end.
  destruct (screenshotComparer s && allIdentical (first :: rest)).
  - match goal with
    | |- context [buildNoChange2minRecord (first :: rest) ?txt] =>
        destruct (buildNoChange2minRecord (first :: rest) txt) as [record | e];
        [| left; split; [reflexivity | project_events; reflexivity]]
    end.
    unfold save. destruct (save_throws env).
    + left. split; [reflexivity | project_events; reflexivity].
    + right. split; [reflexivity |].
      exists (stamp env), record, skipped_incr. split; [now left |].
      split; [reflexivity | project_events; reflexivity].
  - pose proof (window_step_quiet s env G2min (baseMinutes * 60 * 1000)%Z) as [Hquiet _].
    destruct (window_step s env G2min (baseMinutes * 60 * 1000)%Z) as [text logged].
    cbn [fst snd] in *. left. split; [reflexivity |].
    project_events; rewrite ?Hquiet; reflexivity.
Qed.

Lemma booked_10min : forall s env, booked G10min s (_run10min_try s env).
Proof.
  intros s env. unfold _run10min_try, booked.
  match goal with
  | |- context [getRecentSummaries env ?a ?b] =>
      destruct (getRecentSummaries env a b) as [| first rest]; [now left |]
  end.
  destruct (screenshotComparer s && allNoChange (first :: rest)).
  - unfold save. destruct (save_throws env).
    + left. split; [reflexivity | project_events; reflexivity].
    + right. split; [reflexivity |].
      eexists. eexists. exists skipped_incr. split; [now left |].
      split; [reflexivity | project_events; reflexivity].
  - pose proof (window_step_quiet s env G10min (10 * 60 * 1000)%Z) as [Hquiet _].
    destruct (window_step s env G10min (10 * 60 * 1000)%Z) as [text logged].
    cbn [fst snd] in *. left. split; [reflexivity |].
    project_events; rewrite ?Hquiet; reflexivity.
Qed.

Lemma booked_1h : forall s env, booked G1h s (_run1h_try s env).
Proof.
  intros s env. unfold _run1h_try, booked.
  match goal with
  | |- context [getRecentSummaries env ?a ?b] =>
      destruct (getRecentSummaries env a b) as [| first rest]; [now left |]
  end.
  destruct (screenshotComparer s && allNoChange (first :: rest)).
  - unfold save. destruct (save_throws env).
    + left. split; [reflexivity | project_events; reflexivity].
    + right. split; [reflexivity |].
      eexists. eexists. exists skipped_incr. split; [now left |].
      split; [reflexivity | project_events; reflexivity].
  - pose proof (window_step_quiet s env G1h (60 * 60 * 1000)%Z) as [Hquiet _].
    destruct (window_step s env G1h (60 * 60 * 1000)%Z) as [text logged].
    cbn [fst snd] in *. left. split; [reflexivity |].
    project_events; rewrite ?Hquiet; reflexivity.
Qed.

Lemma booked_after_generate : forall g write_back s p renv,
  booked g s (after_generate JSON_parse g write_back s p renv).
Proof.
  intros g write_back s p renv. unfold after_generate, booked.
  pose proof (generate_from_no_save (api renv) (geminiClient s) (p_contents p)
                (Z.to_nat (GeminiClient.maxRetries (geminiClient s))) 1 None) as Hquiet.
  fold (GeminiClient.generate (api renv) (geminiClient s) (p_contents p)) in Hquiet.
  destruct (GeminiClient.generate (api renv) (geminiClient s) (p_contents p))
    as [called [generated | err]]; cbn [fst] in Hquiet; [| now left].
  destruct (_parseResponse JSON_parse (GeminiClient.g_text generated))
    as [parse_logged parsed] eqn:Eparse.
  assert (saves parse_logged = []) as Hparse.
  { unfold _parseResponse in Eparse.
    destruct (JSON_parse _); inversion Eparse; reflexivity. }
  unfold save. destruct (settle_save_throws renv).
  - left. split; [reflexivity |].
    project_events; rewrite ?Hquiet, ?Hparse; reflexivity.
  - right. split; [reflexivity |].
    eexists. eexists. exists count_incr. split; [now right |].
    split; [reflexivity |].
    project_events; rewrite ?Hquiet, ?Hparse; reflexivity.
Qed.

Lemma recorded_set : forall g g' f s s',
  (f = skipped_incr \/ f = count_incr) ->
  stats s' = set g (f (get g (stats s))) (stats s) ->
  recorded g' s' = recorded g' s + if same_tier g g' then 1 else 0.
Proof.
  intros g g' f s s' Hf Hs'. unfold recorded. rewrite Hs'.
  destruct (same_tier g g') eqn:E.
  - apply same_tier_eq in E. subst g'. rewrite get_set_same.
    destruct Hf; subst f; cbn [count skipped count_incr skipped_incr]; lia.
  - assert (g <> g') as Hneq
      by (intro Heq; rewrite Heq in E; destruct g'; discriminate).
    rewrite (get_set_other _ _ _ _ _ Hneq). lia.
Qed.

Lemma recorded_errors : forall g g' s,
  recorded g' (with_executing g false (with_stats g errors_incr s)) = recorded g' s.
Proof.
  intros g g' s. unfold recorded. fields.
  destruct (same_tier g g') eqn:E.
  - apply same_tier_eq in E. subst g'. rewrite get_set_same. reflexivity.
  - assert (g <> g') as Hneq
      by (intro Heq; rewrite Heq in E; destruct g'; discriminate).
    rewrite (get_set_other _ _ _ _ _ Hneq). reflexivity.
Qed.

(** Leaving the try block keeps the books: what the call has counted as
    done is what it has written. *)
Lemma leave_try_booked : forall g s r s' evs o,
  booked g s r ->
  leave_try g r = (s', evs, o) ->
  forall g', recorded g' s' = recorded g' s + written g' evs.
Proof.
  intros g s [[s1 evs1] c] s' evs o Hbooked Hleave g'.
  unfold leave_try in Hleave. unfold booked in Hbooked.
  destruct Hbooked as [[Hstats Hsaves] | [-> [ts [data [f [Hf [Hstats Hsaves]]]]]]].
  - destruct c as [| err | p]; inversion Hleave; subst; clear Hleave.
    + rewrite (written_quiet _ _ Hsaves). unfold recorded. fields.
      rewrite Hstats. lia.
    + rewrite recorded_errors, written_app, (written_quiet _ _ Hsaves).
      unfold recorded, written. rewrite Hstats. cbn. lia.
    + rewrite (written_quiet _ _ Hsaves). unfold recorded. rewrite Hstats. lia.
  - inversion Hleave; subst; clear Hleave.
    rewrite (written_one _ _ _ _ _ Hsaves).
    apply (recorded_set g g' f s); [exact Hf |]. fields. exact Hstats.
Qed.

Lemma booked_flag : forall g b s r,
  booked g (with_executing g b s) r -> booked g s r.
Proof. intros g b s [[s1 evs] c] H. exact H. Qed.

Lemma run_booked : forall g s env s' evs o,
  run g s env = (s', evs, o) ->
  forall g', recorded g' s' = recorded g' s + written g' evs.
Proof.
  intros g s env s' evs o H g'.
  assert (forall r,
            booked g s r ->
            (if get g (_executing s) || negb (_isAllowed s (gate_now env))
             then (s, [], Dropped)
             else leave_try g r) = (s', evs, o) ->
            recorded g' s' = recorded g' s + written g' evs) as Hgen.
  { intros r Hr Hrun.
    destruct (get g (_executing s) || negb (_isAllowed s (gate_now env))).
    - inversion Hrun; subst. unfold written. cbn. lia.
    - eapply leave_try_booked; eassumption. }
  destruct g; unfold run, SummaryScheduler.run in H.
  - eapply Hgen; [| exact H]. eapply booked_flag. apply booked_2min.
  - eapply Hgen; [| exact H]. eapply booked_flag. apply booked_10min.
  - eapply Hgen; [| exact H]. eapply booked_flag. apply booked_1h.
Qed.

Lemma resumed_booked : forall g s p renv s' evs o,
  resumed g s p renv = (s', evs, o) ->
  forall g', recorded g' s' = recorded g' s + written g' evs.
Proof.
  intros g s p renv s' evs o H g'.
  destruct g; unfold resumed, SummaryScheduler.resumed,
    _run2min_resumed, _run10min_resumed, _run1h_resumed in H;
    eapply leave_try_booked; try exact H; apply booked_after_generate.
Qed.

Lemma start_quiet : forall s fresh, saves (snd (start s fresh)) = [].
Proof.
  intros s fresh. unfold start.
  repeat match goal with
         | |- context [if ?b then _ else _] => destruct b
         end; reflexivity.
Qed.

Lemma stop_poll_quiet : forall s, saves (snd (fst (stop_poll s))) = [].
Proof.
  intro s. unfold stop_poll.
  destruct (get G2min (_executing s) || get G10min (_executing s)
            || get G1h (_executing s)); reflexivity.
Qed.

Lemma clear_quiet : forall timer, saves (clear timer) = [].
Proof. intros [h |]; reflexivity. Qed.

Lemma stop_quiet : forall s, saves (snd (fst (stop s))) = [].
Proof.
  intro s. unfold stop. destruct (negb (isRunning s)); [reflexivity |].
  pose proof (stop_poll_quiet (with_timers None None None (isRunning s) s)) as H.
  destruct (stop_poll (with_timers None None None (isRunning s) s)) as [[s' evs] o].
  cbn [fst snd] in *. rewrite !saves_app, !clear_quiet, H. reflexivity.
Qed.

(** The books are kept by every turn of the event loop. *)
Lemma ledger_step : forall l w w',
  (forall g, recorded g (sched w) = written g (trace w)) ->
  step l w = Some w' ->
  forall g, recorded g (sched w') = written g (trace w').
Proof.
  intros l w w' Hinv Hstep g. unfold step, EventLoop.step in Hstep.
  destruct l as [h g0 env | i renv | | |].
  - destruct (is_live h g0 (intervals w)); [| discriminate].
    destruct (SummaryScheduler.run Date_parse toLocaleTimeString g0 (sched w) env)
      as [[s' evs] o] eqn:Erun.
    inversion Hstep; subst; clear Hstep. cbn [sched trace].
    rewrite written_app, <- Hinv. eapply run_booked. exact Erun.
  - destruct (nth_error (awaiting w) i) as [p |]; [| discriminate].
    destruct (SummaryScheduler.resumed JSON_parse (p_granularity p) (sched w) p renv)
      as [[s' evs] o] eqn:Eres.
    inversion Hstep; subst; clear Hstep. cbn [sched trace].
    rewrite written_app, <- Hinv. eapply resumed_booked. exact Eres.
  - pose proof (start_flags (sched w) (next_handle w)) as [_ Hstats].
    pose proof (start_quiet (sched w) (next_handle w)) as Hquiet.
    destruct (start (sched w) (next_handle w)) as [s' evs].
    inversion Hstep; subst; clear Hstep. cbn [sched trace fst snd] in *.
    rewrite written_app, (written_quiet _ _ Hquiet), <- Hinv.
    unfold recorded. rewrite Hstats. lia.
  - pose proof (stop_flags (sched w)) as [_ Hstats].
    pose proof (stop_quiet (sched w)) as Hquiet.
    destruct (stop (sched w)) as [[s' evs] o].
    inversion Hstep; subst; clear Hstep. cbn [sched trace fst snd] in *.
    rewrite written_app, (written_quiet _ _ Hquiet), <- Hinv.
    unfold recorded. rewrite Hstats. lia.
  - destruct (stopping w); [discriminate |].
    pose proof (stop_poll_flags (sched w)) as [_ Hstats].
    pose proof (stop_poll_quiet (sched w)) as Hquiet.
    destruct (stop_poll (sched w)) as [[s' evs] o].
    inversion Hstep; subst; clear Hstep. cbn [sched trace fst snd] in *.
    rewrite written_app, (written_quiet _ _ Hquiet), <- Hinv.
    unfold recorded. rewrite Hstats. lia.
Qed.

(** X1. In every world the process can reach, and for every tier, the
    ticks the scheduler has counted as done ([count] plus [skipped]) are
    as many as the records of that tier written to the store: no record
    is written without being counted, none is counted without being
    written, and an error is never counted as done. *)
Theorem counted_ticks_are_the_records_written : forall w,
  reachable w ->
  forall g, recorded g (sched w) = written g (trace w).
Proof.
  intros w H. induction H as [cfg client tr co pl cm wr | w l w' _ IH Hstep].
  - intros []; reflexivity.
  - eapply ledger_step; eassumption.
Qed.

End LedgerFacts.

(** ** The time gate and the timers *)

Section GateFacts.
Import ScreenshotComparer SummaryScheduler EventLoop.

Variable Date_parse : string -> option Z.
Variable toLocaleTimeString : Z -> string.

Let run := SummaryScheduler.run Date_parse toLocaleTimeString.

(** X2. The allowed window is one interval of a day: with the schedule
    enabled and an end time that lies before the start time (a window
    meant to cross midnight), no instant is allowed, and every timer fire
    of every tier is dropped: it logs, saves and sends nothing and leaves
    the scheduler as it was. *)
Theorem window_ending_before_its_start_drops_every_tick : forall s,
  schedule_enabled (config s) = true ->
  minutes_of (schedule_end_time (config s))
  < minutes_of (schedule_start_time (config s)) ->
  (forall now, _isAllowed s now = false)
  /\ (forall g env, run g s env = (s, [], Dropped)).
Proof.
  intros s Hon Hlt.
  assert (forall now, _isAllowed s now = false) as Hgate.
  { intro now. unfold _isAllowed. rewrite Hon. cbn [negb].
    destruct (includes (schedule_days (config s))
                (nth (Z.to_nat (getDay now)) dayNames "")); [| reflexivity].
    cbn [negb]. unfold minutes_of in Hlt.
    destruct (schedule_start_time (config s)) as [startH startM].
    destruct (schedule_end_time (config s)) as [endH endM].
    cbn [fst snd] in Hlt. apply andb_false_iff.
    destruct (getHours now * 60 + getMinutes now >=? startH * 60 + startM) eqn:E;
      [right | now left].
    apply Z.leb_gt. apply Z.geb_le in E. lia. }
  split; [exact Hgate |].
  intros g env.
  destruct g; unfold run, SummaryScheduler.run, _run2min, _run10min, _run1h;
    rewrite Hgate; cbn [negb]; rewrite orb_true_r; reflexivity.
Qed.

(** X3. [start] on a scheduler that is not running creates one interval
    timer for each enabled tier and none for the others, in the order
    2min, 10min, 1h and with the periods 120 s, 600 s and 3600 s; the
    handles are kept in the timer fields of their tiers and are pairwise
    different. A second [start] creates no timer and changes nothing. *)
Theorem start_sets_one_timer_per_enabled_tier : forall s fresh,
  isRunning s = false ->
  isRunning (fst (start s fresh)) = true
  /\ map (fun x => (snd (fst x), snd x)) (intervals_set (snd (start s fresh)))
     = map (fun g => (g, period g))
           (filter (fun g => tier_enabled g (config s)) [G2min; G10min; G1h])
  /\ NoDup (map (fun x => fst (fst x)) (intervals_set (snd (start s fresh))))
  /\ (forall h g ms,
        In (h, g, ms) (intervals_set (snd (start s fresh))) ->
        timer_of g (fst (start s fresh)) = Some h)
  /\ (forall fresh',
        start (fst (start s fresh)) fresh'
        = (fst (start s fresh), [Log LWarn "总结调度器已在运行中"])).
Proof.
  intros s fresh Hoff. unfold start, tier_enabled. rewrite Hoff.
  destruct (granularity_base (config s)) as [[[] spm hm] |];
    destruct (granularity_10min_enabled (config s));
    destruct (granularity_1h_enabled (config s));
    cbn -[string_of_Z append Z.mul];
    (split; [reflexivity |]); (split; [reflexivity |]);
    (split; [repeat (apply NoDup_cons; [cbn [In]; lia |]); apply NoDup_nil |]);
    (split; [| reflexivity]);
    intros h g ms Hin; cbn [In] in Hin;
    repeat match goal with
           | H : _ \/ _ |- _ => destruct H as [H | H]
           | H : False |- _ => destruct H
           | H : (_, _, _) = (_, _, _) |- _ => inversion H; subst; clear H
           end; reflexivity.
Qed.

End GateFacts.

(** ** Fenced answers *)

Section FenceFacts.
Import ScreenshotComparer SummaryScheduler.

Variable JSON_parse : string -> result json.

Lemma occurs_append : forall c a b, occurs c (a ++ b) = occurs c a || occurs c b.
Proof.
  intros c a b. induction a as [| x a IH]; [reflexivity |].
  simpl. rewrite IH. now rewrite orb_assoc.
Qed.

Lemma after_fence_skips : forall pre r,
  occurs backtick pre = false -> after_fence (pre ++ fence ++ r) = Some r.
Proof.
  induction pre as [| c pre IH]; intros r H.
  - reflexivity.
  - simpl in H. apply orb_false_iff in H. destruct H as [Hc Hpre].
    change ((String c pre) ++ fence ++ r) with (String c (pre ++ fence ++ r)).
    cbn [after_fence]. unfold fence at 1. cbn [strip_prefix].
    change (Ascii.eqb "`" c) with (Ascii.eqb backtick c).
    rewrite Ascii.eqb_sym, Hc. now apply IH.
Qed.

Lemma before_fence_stops : forall body r,
  occurs backtick body = false -> before_fence (body ++ fence ++ r) = Some body.
Proof.
  induction body as [| c body IH]; intros r H.
  - reflexivity.
  - simpl in H. apply orb_false_iff in H. destruct H as [Hc Hbody].
    change ((String c body) ++ fence ++ r) with (String c (body ++ fence ++ r)).
    cbn [before_fence]. unfold fence at 1. cbn [strip_prefix].
    change (Ascii.eqb "`" c) with (Ascii.eqb backtick c).
    rewrite Ascii.eqb_sym, Hc. now rewrite IH.
Qed.

(** A pattern that does not match [a] and holds no backtick does not
    match [a] followed by a backtick either. *)
Lemma strip_prefix_before_backtick : forall p a r,
  strip_prefix p a = None -> occurs backtick p = false ->
  strip_prefix p (a ++ String backtick r) = None.
Proof.
  induction p as [| x p IH]; intros a r Hnone Hp; [discriminate |].
  simpl in Hp. apply orb_false_iff in Hp. destruct Hp as [Hx Hp].
  destruct a as [| y a]; simpl.
  - rewrite Hx. reflexivity.
  - simpl in Hnone. destruct (Ascii.eqb x y); [now apply IH | reflexivity].
Qed.

Lemma strip_one_before_backtick : forall pats a r,
  forallb (fun p => negb (occurs backtick p)) pats = true ->
  strip_one pats a = None ->
  strip_one pats (a ++ String backtick r) = None.
Proof.
  induction pats as [| p pats IH]; intros a r Hpats Hnone; [reflexivity |].
  simpl in *. apply andb_true_iff in Hpats. destruct Hpats as [Hp Hrest].
  destruct (strip_prefix p a) eqn:E; [discriminate |].
  rewrite (strip_prefix_before_backtick p a r E); [now apply IH |].
  now apply negb_true_iff.
Qed.

(** Stripping a run of patterns in front of a string that starts with
    none of them. *)
Lemma strip_many_run : forall pats ws n s,
  prefix_free pats = true -> Forall (fun w => In w pats) ws ->
  (List.length ws <= n)%nat -> strip_one pats s = None ->
  strip_many n pats (sconcat ws ++ s) = s.
Proof.
  intros pats ws. induction ws as [| w ws IH]; intros n s Hfree Hws Hn Hstop.
  - simpl. destruct n; simpl; [reflexivity | now rewrite Hstop].
  - inversion Hws as [| ? ? Hw Hrest]; subst.
    destruct n as [| n]; [simpl in Hn; lia |].
    cbn [sconcat strip_many]. rewrite append_assoc.
    destruct (strip_one pats (w ++ sconcat ws ++ s)) as [r |] eqn:E.
    + destruct (strip_one_Some pats _ r E) as [p [Hp Hs]].
      destruct (prefix_free_unique pats w p _ _ Hfree Hw Hp Hs) as [_ <-].
      apply IH; [assumption | assumption | simpl in Hn; lia | assumption].
    + exfalso. exact (strip_one_None pats _ w (sconcat ws ++ s) E Hw eq_refl).
Qed.

Lemma trimStart_before_backtick : forall a r,
  trimStart (a ++ String backtick r) = trimStart a ++ String backtick r.
Proof.
  intros a r.
  destruct (strip_many_spec whitespace (String.length a) a whitespace_nonempty
              (le_n _)) as [ws [Hws [Ha Hstop]]].
  fold (trimStart a) in Ha, Hstop.
  remember (trimStart a) as t eqn:Et. clear Et.
  unfold trimStart. subst a. rewrite append_assoc.
  apply strip_many_run.
  - exact whitespace_prefix_free.
  - exact Hws.
  - rewrite !length_append.
    pose proof (sconcat_length whitespace ws whitespace_nonempty Hws). lia.
  - apply strip_one_before_backtick; [vm_compute; reflexivity | exact Hstop].
Qed.

Lemma occurs_trimStart : forall c s, occurs c s = false -> occurs c (trimStart s) = false.
Proof.
  intros c s H.
  destruct (strip_many_spec whitespace (String.length s) s whitespace_nonempty
              (le_n _)) as [ws [_ [Hs _]]].
  fold (trimStart s) in Hs. rewrite Hs, occurs_append in H.
  now apply orb_false_iff in H.
Qed.

(** X4. An answer that holds a fenced block is parsed from the inside of
    the first fence: when the trimmed text is some text without a
    backtick, a fence with or without the tag json, a body without a
    backtick, a closing fence and anything after it, [_parseResponse]
    gives what [JSON.parse] makes of the trimmed body, whatever stands
    before the opening fence and after the closing one; when that does not
    parse, the whole response text is kept as [raw_response]. *)
Theorem fenced_answer_is_parsed_from_inside_the_fence :
  forall responseText pre lang body tail,
    trim responseText = pre ++ fence ++ lang ++ body ++ fence ++ tail ->
    occurs backtick pre = false ->
    occurs backtick body = false ->
    lang = "json" \/ (lang = "" /\ strip_prefix "json" body = None) ->
    _parseResponse JSON_parse responseText
    = match JSON_parse (trim body) with
      | Ret v => ([], v)
      | Throw err =>
          ([Log LWarn ("响应解析为JSON失败，保存原始文本: " ++ message err)],
           JObj [("raw_response", JStr responseText)])
      end.
Proof.
  intros responseText pre lang body tail Htext Hpre Hbody Hlang.
  unfold _parseResponse. rewrite Htext.
  assert (fenced_body (pre ++ fence ++ lang ++ body ++ fence ++ tail)
          = Some (trimStart body)) as Hfenced.
  { unfold fenced_body. rewrite (after_fence_skips pre _ Hpre).
    assert (match strip_prefix "json" (lang ++ body ++ fence ++ tail) with
            | Some r' => r'
            | None => lang ++ body ++ fence ++ tail
            end = body ++ fence ++ tail) as ->.
    { destruct Hlang as [-> | [-> Hnot]].
      - reflexivity.
      - cbn [append]. unfold fence.
        change ("```" ++ tail) with (String backtick ("``" ++ tail)).
        rewrite (strip_prefix_before_backtick "json" body _ Hnot); reflexivity. }
    unfold fence at 1.
    change ("```" ++ tail) with (String backtick ("``" ++ tail)).
    rewrite trimStart_before_backtick.
    change (String backtick ("``" ++ tail)) with (fence ++ tail).
    apply before_fence_stops. now apply occurs_trimStart. }
  rewrite Hfenced. unfold trim at 1. rewrite trimStart_fixed.
  fold (trim body). reflexivity.
Qed.

End FenceFacts.

(** Splits a hypothesis that a character occurs in a concatenation. *)
Ltac split_occurs H :=
  repeat match type of H with
         | occurs _ (_ ++ _) = true => rewrite occurs_append in H
         | (_ || _) = true => apply orb_true_iff in H; destruct H as [H | H]
         | occurs _ (String _ _) = true => cbn [occurs] in H
         | occurs _ EmptyString = true => discriminate H
         | Ascii.eqb _ _ = true => apply Ascii.eqb_eq in H
         | false = true => discriminate H
         end.

(** ** ActiveWindowCollector *)

Section CollectorFacts.
Import SummaryScheduler ActiveWindowCollector Text.
Local Open Scope Z_scope.

(** X5. The timeline of closed entries is bounded: whatever the monitor
    reports and however often the collector is stopped, it never holds
    more entries than the configured bound (5000 when none is
    configured), and none at all when the bound is negative. *)
Theorem timeline_never_exceeds_its_bound : forall maxHistorySize inputs,
  let c := drive (constructor maxHistorySize) inputs in
  _maxTimelineSize c = (if maxHistorySize =? 0 then 5000 else maxHistorySize)
  /\ Z.of_nat (List.length (_timeline c)) <= Z.max 0 (_maxTimelineSize c).
Proof.
  intros maxHistorySize inputs.
  assert (forall c0,
            Z.of_nat (List.length (_timeline c0)) <= Z.max 0 (_maxTimelineSize c0) ->
            _maxTimelineSize (drive c0 inputs) = _maxTimelineSize c0
            /\ Z.of_nat (List.length (_timeline (drive c0 inputs)))
               <= Z.max 0 (_maxTimelineSize (drive c0 inputs))) as Hgen.
  { unfold drive. induction inputs as [| i inputs IH]; intros c0 H0; [now split |].
    cbn [fold_left].
    assert (_maxTimelineSize (handle c0 i) = _maxTimelineSize c0
            /\ Z.of_nat (List.length (_timeline (handle c0 i)))
               <= Z.max 0 (_maxTimelineSize c0)) as [Hmax Hlen].
    { assert (_maxTimelineSize (_closeCurrentEntry c0) = _maxTimelineSize c0
              /\ Z.of_nat (List.length (_timeline (_closeCurrentEntry c0)))
                 <= Z.max 0 (_maxTimelineSize c0)) as Hclose.
      { unfold _closeCurrentEntry. destruct (_currentEntry c0) as [cur |]; [| now split].
        cbn [_maxTimelineSize _timeline]. split; [reflexivity |].
        destruct (Z.of_nat (List.length (_timeline c0 ++ [cur])) >? _maxTimelineSize c0)
          eqn:E.
        - destruct (_timeline c0) as [| x l]; simpl in *; [lia |].
          rewrite length_app in *. simpl in *. lia.
        - rewrite Z.gtb_ltb in E. apply Z.ltb_ge in E. lia. }
      destruct i as [w | w |]; cbn [handle].
      - unfold _onPoll. destruct (_currentEntry c0); cbn [_maxTimelineSize _timeline];
          now split.
      - unfold _onChange. cbn [_maxTimelineSize _timeline]. exact Hclose.
      - exact Hclose. }
    destruct (IH (handle c0 i)) as [Hmax' Hlen']; [now rewrite Hmax |].
    split; [now rewrite Hmax' | exact Hlen']. }
  destruct (Hgen (constructor maxHistorySize)) as [Hmax Hlen].
  { cbn [constructor _timeline List.length]. lia. }
  cbv zeta. split; [now rewrite Hmax | exact Hlen].
Qed.

Lemma in_order_from_weaken : forall l t0 t1,
  t1 <= t0 -> in_order_from t0 l -> in_order_from t1 l.
Proof.
  intros [| e l] t0 t1 Hle H; [exact I |].
  cbn [in_order_from] in *. destruct H as [H1 [H2 H3]]. repeat split; [lia | lia | exact H3].
Qed.

Lemma in_order_from_snoc : forall l t0 x,
  in_order_from t0 l ->
  Forall (fun e => endTime e <= startTime x) l ->
  t0 <= startTime x -> startTime x <= endTime x ->
  in_order_from t0 (l ++ [x]).
Proof.
  induction l as [| e l IH]; intros t0 x Hin Hall Ht0 Hx.
  - cbn [app in_order_from]. repeat split; assumption.
  - cbn [app in_order_from] in *. destruct Hin as [H1 [H2 H3]].
    inversion Hall as [| ? ? He Hrest]; subst.
    repeat split; [assumption | assumption |].
    apply IH; assumption.
Qed.

Lemma in_order_from_snoc_inv : forall l t0 x,
  in_order_from t0 (l ++ [x]) ->
  in_order_from t0 l
  /\ Forall (fun e => endTime e <= startTime x) l
  /\ t0 <= startTime x /\ startTime x <= endTime x.
Proof.
  induction l as [| e l IH]; intros t0 x H.
  - cbn [app in_order_from] in H. destruct H as [H1 [H2 _]].
    repeat split; [constructor | assumption | assumption].
  - cbn [app in_order_from] in H. destruct H as [H1 [H2 H3]].
    destruct (IH _ _ H3) as [Hl [Hall [Hx1 Hx2]]].
    cbn [in_order_from]. repeat split; try assumption; [| lia].
    constructor; [exact Hx1 | exact Hall].
Qed.

Lemma in_order_from_tl : forall l t0,
  in_order_from t0 l -> exists t1, in_order_from t1 (tl l).
Proof.
  intros [| e l] t0 H; [now exists t0 |].
  cbn [tl in_order_from] in *. exists (endTime e). apply H.
Qed.

Lemma Forall_tl : forall (A : Type) (P : A -> Prop) l, Forall P l -> Forall P (tl l).
Proof. intros A P [| x l] H; [constructor | now inversion H]. Qed.

Lemma Forall_le_trans : forall (l : list WindowEntry) a b,
  a <= b -> Forall (fun e => endTime e <= a) l -> Forall (fun e => endTime e <= b) l.
Proof.
  intros l a b Hab H. rewrite Forall_forall in *. intros e He.
  specialize (H e He). cbn beta in *. lia.
Qed.

Lemma close_kept : forall c tnow,
  kept_in_order c tnow -> kept_in_order (_closeCurrentEntry c) tnow.
Proof.
  intros c tnow [[t0 Hord] Hends]. unfold _closeCurrentEntry, kept_in_order, all_entries in *.
  destruct (_currentEntry c) as [cur |] eqn:Ecur.
  - cbn [_timeline _currentEntry]. rewrite app_nil_r.
    destruct (Z.of_nat (List.length (_timeline c ++ [cur])) >? _maxTimelineSize c).
    + split; [now apply (in_order_from_tl _ t0) | now apply Forall_tl].
    + split; [now exists t0 | exact Hends].
  - rewrite Ecur. split; [now exists t0 | exact Hends].
Qed.

Lemma open_kept : forall c w tnow,
  kept_in_order c tnow -> _currentEntry c = None -> tnow <= info_timestamp w ->
  kept_in_order {| _timeline := _timeline c;
                   _maxTimelineSize := _maxTimelineSize c;
                   _currentEntry := Some (entry_of w) |} (info_timestamp w).
Proof.
  intros c w tnow [[t0 Hord] Hends] Hnone Hts.
  unfold kept_in_order, all_entries in *. rewrite Hnone in *. rewrite app_nil_r in *.
  cbn [_timeline _currentEntry]. split.
  - exists (Z.min t0 (info_timestamp w)). apply in_order_from_snoc.
    + apply (in_order_from_weaken _ t0); [lia | exact Hord].
    + cbn [entry_of startTime]. now apply (Forall_le_trans _ tnow).
    + cbn [entry_of startTime]. lia.
    + cbn [entry_of startTime endTime]. lia.
  - apply Forall_app. split; [now apply (Forall_le_trans _ tnow) |].
    constructor; [cbn [entry_of endTime]; lia | constructor].
Qed.

Lemma handle_kept : forall c i tnow,
  kept_in_order c tnow ->
  match i with
  | Poll w | Change w =>
      tnow <= info_timestamp w -> kept_in_order (handle c i) (info_timestamp w)
  | Stop => kept_in_order (handle c i) tnow
  end.
Proof.
  intros c i tnow Hkept. destruct i as [w | w |]; cbn [handle].
  - intro Hts. unfold _onPoll. destruct (_currentEntry c) as [cur |] eqn:Ecur.
    + destruct Hkept as [[t0 Hord] Hends].
      unfold kept_in_order, all_entries in *. rewrite Ecur in *.
      cbn [_timeline _currentEntry].
      apply in_order_from_snoc_inv in Hord. destruct Hord as [Hl [Hall [Hx1 Hx2]]].
      apply Forall_app in Hends. destruct Hends as [Hends Hcur].
      inversion Hcur as [| ? ? Hcur' _]; subst. split.
      * exists t0. apply in_order_from_snoc; try assumption.
        cbn [with_endTime startTime endTime]. lia.
      * apply Forall_app. split; [now apply (Forall_le_trans _ tnow) |].
        constructor; [cbn [with_endTime endTime]; lia | constructor].
    + now apply (open_kept c w tnow).
  - intro Hts. unfold _onChange.
    apply (open_kept (_closeCurrentEntry c) w tnow); [now apply close_kept | | exact Hts].
    unfold _closeCurrentEntry. destruct (_currentEntry c) eqn:E; [reflexivity | exact E].
  - now apply close_kept.
Qed.

Lemma drive_kept : forall inputs c tnow,
  kept_in_order c tnow ->
  Sorted Z.le (tnow :: timestamps inputs) ->
  exists tlast, kept_in_order (drive c inputs) tlast.
Proof.
  unfold drive. induction inputs as [| i inputs IH]; intros c tnow Hkept Hsorted.
  - now exists tnow.
  - cbn [fold_left]. pose proof (handle_kept c i tnow Hkept) as Hstep.
    destruct i as [w | w |]; cbn [timestamps flat_map app] in Hsorted.
    + fold (timestamps inputs) in Hsorted.
      apply Sorted_inv in Hsorted. destruct Hsorted as [Hrest Hhd].
      apply HdRel_inv in Hhd.
      apply (IH _ (info_timestamp w)); [now apply Hstep | exact Hrest].
    + fold (timestamps inputs) in Hsorted.
      apply Sorted_inv in Hsorted. destruct Hsorted as [Hrest Hhd].
      apply HdRel_inv in Hhd.
      apply (IH _ (info_timestamp w)); [now apply Hstep | exact Hrest].
    + fold (timestamps inputs) in Hsorted.
      apply (IH _ tnow); [exact Hstep | exact Hsorted].
Qed.

Lemma closed_in_range_app : forall a b startMs endMs,
  closed_in_range (a ++ b) startMs endMs
  = (closed_in_range a startMs endMs ++ closed_in_range b startMs endMs)%list.
Proof.
  induction a as [| e a IH]; intros b startMs endMs; [reflexivity |].
  simpl. destruct ((endTime e >=? startMs) && (startTime e <=? endMs)); simpl;
    now rewrite IH.
Qed.

(** With a range that is not empty, the entry in progress is treated as
    the closed ones are. *)
Lemma getTimelineInRange_all : forall c startMs endMs,
  startMs <= endMs ->
  getTimelineInRange c startMs endMs = closed_in_range (all_entries c) startMs endMs.
Proof.
  intros c startMs endMs Hrange. unfold getTimelineInRange, all_entries.
  rewrite closed_in_range_app.
  destruct (_currentEntry c) as [cur |]; [| now rewrite app_nil_r].
  cbn [closed_in_range with_endTime with_startTime startTime endTime app title].
  destruct (startTime cur <=? endMs) eqn:E1;
    destruct (endTime cur >=? startMs) eqn:E2;
    destruct (Z.min (endTime cur) endMs >=? startMs) eqn:E3;
    cbn [andb]; rewrite ?app_nil_r; try reflexivity; exfalso;
    rewrite ?Z.geb_le, ?Z.leb_le, ?Z.leb_gt in *;
    try (apply Z.leb_le in E1); try (apply Z.leb_gt in E1);
    lia.
Qed.

Lemma closed_in_range_ordered : forall l t0 t1 startMs endMs,
  startMs <= endMs ->
  in_order_from t0 l -> t1 <= Z.max t0 startMs ->
  in_order_from t1 (closed_in_range l startMs endMs)
  /\ Forall (fun r => endTime r <= endMs) (closed_in_range l startMs endMs).
Proof.
  induction l as [| e l IH]; intros t0 t1 startMs endMs Hrange Hord Ht1.
  - split; [exact I | constructor].
  - cbn [in_order_from] in Hord. destruct Hord as [H1 [H2 H3]].
    cbn [closed_in_range].
    destruct (endTime e >=? startMs) eqn:E1;
      destruct (startTime e <=? endMs) eqn:E2; cbn [andb].
    + apply Z.geb_le in E1. apply Z.leb_le in E2.
      destruct (IH (endTime e) (Z.min (endTime e) endMs) startMs endMs Hrange H3
                  ltac:(lia)) as [Hrec Hends].
      split.
      * cbn [in_order_from startTime endTime]. repeat split; [lia | lia | exact Hrec].
      * constructor; [cbn [endTime]; lia | exact Hends].
    + apply (IH (endTime e)); [assumption | assumption | lia].
    + apply (IH (endTime e)); [assumption | assumption | lia].
    + apply (IH (endTime e)); [assumption | assumption | lia].
Qed.

(** X6. When the time stamps the monitor hands over never go back, a
    query over a range that is not empty returns entries that lie within
    the range, each starting no later than it ends, and each starting no
    earlier than the one before it ends: they are in the order of
    time. *)
Theorem range_query_is_clipped_and_in_order :
  forall maxHistorySize inputs startMs endMs,
    Sorted Z.le (timestamps inputs) ->
    startMs <= endMs ->
    in_order_from startMs
      (getTimelineInRange (drive (constructor maxHistorySize) inputs) startMs endMs)
    /\ Forall (fun r => endTime r <= endMs)
         (getTimelineInRange (drive (constructor maxHistorySize) inputs) startMs endMs).
Proof.
  intros maxHistorySize inputs startMs endMs Hsorted Hrange.
  assert (exists tlast,
            kept_in_order (drive (constructor maxHistorySize) inputs) tlast)
    as [tlast [[t0 Hord] _]].
  { destruct (timestamps inputs) as [| ts rest] eqn:E.
    - apply (drive_kept inputs _ 0).
      + split; [exists 0; exact I | constructor].
      + rewrite E. repeat constructor.
    - apply (drive_kept inputs _ ts).
      + split; [exists 0; exact I | constructor].
      + rewrite E. constructor; [exact Hsorted | constructor; lia]. }
  rewrite (getTimelineInRange_all _ _ _ Hrange).
  apply (closed_in_range_ordered _ t0); [exact Hrange | exact Hord | lia].
Qed.

Lemma merge_from_head : forall rest last,
  exists e rest',
    merge_from last rest = e :: rest'
    /\ app e = app last /\ title e = title last /\ startTime e = startTime last.
Proof.
  induction rest as [| current rest IH]; intro last.
  - exists last, []. repeat split.
  - cbn [merge_from].
    destruct (isSameWindow current last && (startTime current - endTime last <=? 2000)).
    + destruct (IH (with_endTime last (endTime current))) as [e [rest' [H [Ha [Ht Hs]]]]].
      exists e, rest'. repeat split; assumption.
    + exists last, (merge_from current rest). repeat split.
Qed.

Lemma merge_from_settled : forall rest last,
  no_mergeable_neighbours (merge_from last rest).
Proof.
  induction rest as [| current rest IH]; intro last.
  - cbn. split; exact I.
  - cbn [merge_from].
    destruct (isSameWindow current last && (startTime current - endTime last <=? 2000))
      eqn:E.
    + apply IH.
    + destruct (merge_from_head rest current) as [e [rest' [H [Ha [Ht Hs]]]]].
      specialize (IH current). rewrite H in *.
      cbn [no_mergeable_neighbours]. split; [| exact IH].
      unfold mergeable, isSameWindow in *. now rewrite Ha, Ht, Hs.
Qed.

Lemma merge_from_fixed : forall rest last,
  no_mergeable_neighbours (last :: rest) -> merge_from last rest = last :: rest.
Proof.
  induction rest as [| current rest IH]; intros last H; [reflexivity |].
  cbn [no_mergeable_neighbours] in H. destruct H as [Hpair Hrest].
  cbn [merge_from]. unfold mergeable in Hpair. rewrite Hpair.
  f_equal. apply IH. exact Hrest.
Qed.

Lemma merge_from_length : forall rest last,
  (List.length (merge_from last rest) <= S (List.length rest))%nat.
Proof.
  induction rest as [| current rest IH]; intro last; [cbn; lia |].
  cbn [merge_from].
  destruct (isSameWindow current last && (startTime current - endTime last <=? 2000)).
  - specialize (IH (with_endTime last (endTime current))). cbn [List.length]. lia.
  - specialize (IH current). cbn [List.length]. lia.
Qed.

(** X7. [_mergeConsecutiveEntries] leaves nothing to merge: no two
    neighbours of its result are the same window within two seconds of
    each other, so that merging a second time changes nothing; the result
    is never longer than the timeline and is empty only for the empty
    timeline. *)
Theorem merging_leaves_nothing_to_merge : forall timeline,
  no_mergeable_neighbours (_mergeConsecutiveEntries timeline)
  /\ _mergeConsecutiveEntries (_mergeConsecutiveEntries timeline)
     = _mergeConsecutiveEntries timeline
  /\ (List.length (_mergeConsecutiveEntries timeline) <= List.length timeline)%nat
  /\ (_mergeConsecutiveEntries timeline = [] <-> timeline = []).
Proof.
  intros [| first rest].
  - cbn. repeat split; auto.
  - cbn [_mergeConsecutiveEntries].
    pose proof (merge_from_settled rest first) as Hsettled.
    destruct (merge_from_head rest first) as [e [rest' [H _]]].
    split; [exact Hsettled |]. split.
    + rewrite H in *. cbn [_mergeConsecutiveEntries]. now apply merge_from_fixed.
    + split; [apply merge_from_length |].
      rewrite H. split; intro; discriminate.
Qed.

(** *** The text of the prompt *)

Lemma occurs_In : forall c s, occurs c s = true <-> In c (list_ascii_of_string s).
Proof.
  intros c s. induction s as [| x s IH]; simpl.
  - split; [discriminate | intros []].
  - rewrite orb_true_iff, IH, Ascii.eqb_eq. reflexivity.
Qed.

Lemma uint_chars : forall d c,
  occurs c (NilEmpty.string_of_uint d) = true -> In c decimal_chars.
Proof.
  induction d; intros c H; cbn [NilEmpty.string_of_uint occurs] in H;
    try discriminate;
    apply orb_true_iff in H; destruct H as [H | H]; try (now apply IHd);
    apply Ascii.eqb_eq in H; subst c; vm_compute; tauto.
Qed.

Lemma string_of_Z_chars : forall n c,
  occurs c (string_of_Z n) = true -> In c decimal_chars.
Proof.
  intros n c H. unfold string_of_Z, NilZero.string_of_int in H.
  assert (forall d, occurs c (NilZero.string_of_uint d) = true -> In c decimal_chars)
    as Huint.
  { intros d Hd. unfold NilZero.string_of_uint in Hd.
    destruct d; cbv iota beta in Hd; try (eapply uint_chars; exact Hd).
    cbn [occurs] in Hd. apply orb_true_iff in Hd. destruct Hd as [Hd | Hd];
      [| discriminate].
    apply Ascii.eqb_eq in Hd. subst c. vm_compute. tauto. }
  destruct (Z.to_int n) as [d | d]; cbv iota beta in H; [exact (Huint d H) |].
  cbn [occurs] in H. apply orb_true_iff in H. destruct H as [H | H];
    [| exact (Huint d H)].
  apply Ascii.eqb_eq in H. subst c. vm_compute. tauto.
Qed.

Lemma occurs_repeat_char : forall c x n,
  occurs c (repeat_char x n) = true -> c = x.
Proof.
  intros c x n. induction n as [| n IH]; cbn [repeat_char occurs]; [discriminate |].
  intro H. apply orb_true_iff in H. destruct H as [H | H]; [| now apply IH].
  apply Ascii.eqb_eq in H. now subst.
Qed.

Lemma padStart_chars : forall n c,
  occurs c (padStart 2 "0" (string_of_Z n)) = true -> In c decimal_chars.
Proof.
  intros n c H. unfold padStart in H. rewrite occurs_append in H.
  apply orb_true_iff in H. destruct H as [H | H].
  - apply occurs_repeat_char in H. subst c. vm_compute. tauto.
  - exact (string_of_Z_chars n c H).
Qed.

Lemma strip_many_suffix : forall pats n s,
  nonempty_all pats = true -> (String.length s <= n)%nat ->
  exists pre, s = pre ++ strip_many n pats s.
Proof.
  intros pats n s Hne Hlen.
  destruct (strip_many_spec pats n s Hne Hlen) as [ws [_ [Hs _]]].
  now exists (sconcat ws).
Qed.

Lemma occurs_string_rev : forall c s, occurs c (string_rev s) = occurs c s.
Proof.
  intros c s. apply eq_true_iff_eq. rewrite !occurs_In. unfold string_rev.
  rewrite list_ascii_of_string_of_list_ascii. symmetry. apply in_rev.
Qed.

Lemma occurs_trimEnd : forall c s, occurs c s = false -> occurs c (trimEnd s) = false.
Proof.
  intros c s H. unfold trimEnd. rewrite occurs_string_rev.
  destruct (strip_many_suffix (map string_rev whitespace) (String.length s)
              (string_rev s) whitespace_rev_nonempty
              ltac:(rewrite string_rev_length; apply le_n)) as [pre Hpre].
  rewrite <- occurs_string_rev, Hpre, occurs_append in H.
  now apply orb_false_iff in H.
Qed.

Lemma occurs_trim : forall c s, occurs c s = false -> occurs c (trim s) = false.
Proof.
  intros c s H. unfold trim. apply occurs_trimEnd. now apply occurs_trimStart.
Qed.

Lemma strip_one_suffix : forall c pats s r,
  strip_one pats s = Some r -> occurs c s = false -> occurs c r = false.
Proof.
  intros c pats s r H Hc. destruct (strip_one_Some pats s r H) as [p [_ ->]].
  rewrite occurs_append in Hc. now apply orb_false_iff in Hc.
Qed.

(** [collapse] brings in no character but the space. *)
Lemma collapse_keeps_out : forall c n s,
  c <> " "%char -> occurs c s = false -> occurs c (collapse n s) = false.
Proof.
  intros c n. induction n as [| n IH]; intros s Hc H; [exact H |].
  cbn [collapse]. destruct (strip_one whitespace s) as [r |] eqn:E.
  - cbn [occurs]. apply orb_false_iff. split.
    + apply Ascii.eqb_neq. intro Heq. now apply Hc.
    + apply IH; [exact Hc |].
      pose proof (strip_one_suffix c _ _ _ E H) as Hr.
      destruct (strip_many_suffix whitespace (String.length r) r whitespace_nonempty
                  (le_n _)) as [pre Hpre].
      rewrite Hpre, occurs_append in Hr. now apply orb_false_iff in Hr.
  - destruct s as [| x rest]; [reflexivity |].
    cbn [occurs] in *. apply orb_false_iff in H. destruct H as [Hx Hrest].
    rewrite Hx. now apply IH.
Qed.

Lemma strip_many_length : forall pats n s,
  nonempty_all pats = true -> (String.length s <= n)%nat ->
  (String.length (strip_many n pats s) <= String.length s)%nat.
Proof.
  intros pats n s Hne Hlen.
  destruct (strip_many_suffix pats n s Hne Hlen) as [pre Hpre].
  rewrite Hpre at 2. rewrite length_append. lia.
Qed.

(** With enough fuel [collapse] leaves no line feed. *)
Lemma collapse_no_linefeed : forall n s,
  (String.length s <= n)%nat -> occurs linefeed (collapse n s) = false.
Proof.
  induction n as [| n IH]; intros s Hlen.
  - destruct s; [reflexivity | simpl in Hlen; lia].
  - cbn [collapse]. destruct (strip_one whitespace s) as [r |] eqn:E.
    + cbn [occurs]. apply orb_false_iff. split; [reflexivity |].
      apply IH.
      pose proof (strip_one_shorter whitespace s r whitespace_nonempty E).
      pose proof (strip_many_length whitespace (String.length r) r
                    whitespace_nonempty (le_n _)).
      lia.
    + destruct s as [| x rest]; [reflexivity |].
      cbn [occurs]. apply orb_false_iff. split.
      * apply Ascii.eqb_neq. intro Hx. subst x.
        vm_compute in E. discriminate.
      * apply IH. simpl in Hlen. lia.
Qed.

Lemma _escapeQuotedText_no_linefeed : forall text,
  occurs linefeed (_escapeQuotedText text) = false.
Proof.
  intro text. unfold _escapeQuotedText. apply occurs_trim.
  apply collapse_no_linefeed. apply le_n.
Qed.

Lemma split_lines_line : forall s,
  occurs linefeed s = false -> split_lines s = [s].
Proof.
  induction s as [| c s IH]; intro H; [reflexivity |].
  cbn [occurs] in H. apply orb_false_iff in H. destruct H as [Hc Hs].
  cbn [split_lines]. rewrite Hc, (IH Hs). reflexivity.
Qed.

Lemma split_lines_append : forall s r,
  occurs linefeed s = false ->
  split_lines (s ++ String linefeed r) = s :: split_lines r.
Proof.
  induction s as [| c s IH]; intros r H.
  - cbn [append split_lines]. now rewrite Ascii.eqb_refl.
  - cbn [occurs] in H. apply orb_false_iff in H. destruct H as [Hc Hs].
    cbn [append split_lines]. rewrite Hc, (IH r Hs). reflexivity.
Qed.

Lemma split_join_lines : forall ls,
  ls <> [] -> Forall (fun l => occurs linefeed l = false) ls ->
  split_lines (join_strings (String linefeed EmptyString) ls) = ls.
Proof.
  induction ls as [| x ls IH]; intros Hne Hall; [now contradiction Hne |].
  inversion Hall as [| ? ? Hx Hrest]; subst.
  destruct ls as [| y ls].
  - cbn [join_strings]. now apply split_lines_line.
  - cbn [join_strings]. cbn [append].
    rewrite (split_lines_append x _ Hx). f_equal.
    apply IH; [discriminate | exact Hrest].
Qed.

(** *** Escaped names *)

Lemma strip_one_matches : forall pats p s r,
  In p pats -> strip_prefix p s = Some r -> strip_one pats s <> None.
Proof.
  intros pats p s r Hin Hp Hnone. apply strip_prefix_Some in Hp.
  exact (strip_one_None pats s p r Hnone Hin Hp).
Qed.

Lemma strip_prefix_longer : forall p a b r,
  strip_prefix p a = Some r -> strip_prefix p (a ++ b) = Some (r ++ b).
Proof.
  intros p a b r H. apply strip_prefix_Some in H. subst a.
  apply strip_prefix_Some. now rewrite append_assoc.
Qed.

(** A pattern that does not match [a] and does not hold [c] does not
    match [a] followed by [c] either. *)
Lemma strip_prefix_before_char : forall c p a r,
  strip_prefix p a = None -> occurs c p = false ->
  strip_prefix p (a ++ String c r) = None.
Proof.
  intros c. induction p as [| x p IH]; intros a r Hnone Hp; [discriminate |].
  cbn [occurs] in Hp. apply orb_false_iff in Hp. destruct Hp as [Hx Hp].
  destruct a as [| y a]; cbn [append strip_prefix].
  - rewrite Hx. reflexivity.
  - cbn [strip_prefix] in Hnone. destruct (Ascii.eqb x y); [now apply IH | reflexivity].
Qed.

(** White space is a single space or holds none. *)
Lemma whitespace_spaces :
  forallb (fun p => String.eqb p " " || negb (occurs " " p)) whitespace = true.
Proof. vm_compute. reflexivity. Qed.

Lemma whitespace_plain :
  forallb (fun p => negb (occurs backslash p) && negb (occurs dquote p)) whitespace
  = true.
Proof. vm_compute. reflexivity. Qed.

Lemma starts_plain_before_space : forall a r,
  starts_plain a -> starts_plain (a ++ String " " r).
Proof.
  intros a r [Hne Hnone]. split; [destruct a; [now contradiction Hne | discriminate] |].
  destruct (strip_one whitespace (a ++ String " " r)) as [t |] eqn:E; [| reflexivity].
  exfalso. destruct (strip_one_Some _ _ _ E) as [p [Hp Hs]].
  pose proof whitespace_spaces as Hsp. rewrite forallb_forall in Hsp.
  specialize (Hsp p Hp). apply orb_true_iff in Hsp.
  assert (strip_prefix p a = None) as Hpa.
  { destruct (strip_prefix p a) as [t' |] eqn:Ea; [| reflexivity].
    exfalso. exact (strip_one_matches _ _ _ _ Hp Ea Hnone). }
  destruct Hsp as [Hsp | Hsp].
  - apply String.eqb_eq in Hsp. subst p.
    destruct a as [| x a]; [now contradiction Hne |].
    cbn [append] in Hs. inversion Hs; subst. cbn [strip_prefix] in Hpa.
    rewrite Ascii.eqb_refl in Hpa. discriminate.
  - apply negb_true_iff in Hsp.
    pose proof (strip_prefix_before_char " " p a r Hpa Hsp) as Hno.
    apply (proj2 (strip_prefix_Some _ _ _)) in Hs. rewrite Hs in Hno. discriminate.
Qed.

Lemma trimEnd_prefix : forall s, exists suffix, s = trimEnd s ++ suffix.
Proof.
  intro s. unfold trimEnd.
  destruct (strip_many_suffix (map string_rev whitespace) (String.length s)
              (string_rev s) whitespace_rev_nonempty
              ltac:(rewrite string_rev_length; apply le_n)) as [pre Hpre].
  exists (string_rev pre).
  rewrite <- string_rev_append, <- Hpre. now rewrite string_rev_involutive.
Qed.

(** A string that [trim] does not empty starts plain once trimmed. *)
Lemma trim_starts_plain : forall s, trim s <> "" -> starts_plain (trim s).
Proof.
  intros s Hne. split; [exact Hne |].
  destruct (strip_one whitespace (trim s)) as [t |] eqn:E; [| reflexivity].
  exfalso. destruct (strip_one_Some _ _ _ E) as [p [Hp Hs]].
  apply (proj2 (strip_prefix_Some _ _ _)) in Hs.
  unfold trim in Hs. destruct (trimEnd_prefix (trimStart s)) as [suffix Hsuffix].
  pose proof (strip_prefix_longer _ _ suffix _ Hs) as Hlong.
  rewrite <- Hsuffix in Hlong.
  destruct (strip_many_spec whitespace (String.length s) s whitespace_nonempty
              (le_n _)) as [ws [_ [_ Hstop]]].
  fold (trimStart s) in Hstop.
  exact (strip_one_matches _ _ _ _ Hp Hlong Hstop).
Qed.

Lemma starts_plain_not_blank : forall s, starts_plain s -> trim s <> "".
Proof.
  intros s [Hne Hnone] Hblank. apply trim_empty_iff in Hblank.
  destruct Hblank as [ws [Hws Hs]]. destruct ws as [| w ws].
  - now apply Hne.
  - inversion Hws as [| ? ? Hw _]; subst.
    exact (strip_one_None whitespace _ w (sconcat ws) Hnone Hw eq_refl).
Qed.

Lemma trimStart_plain : forall s, strip_one whitespace s = None -> trimStart s = s.
Proof.
  intros s H. unfold trimStart. destruct (String.length s); cbn [strip_many];
    [reflexivity | now rewrite H].
Qed.

Lemma _buildFullWindowName_plain : forall entry,
  starts_plain (_buildFullWindowName entry).
Proof.
  intro entry. unfold _buildFullWindowName. cbv zeta.
  assert (starts_plain (if (trim (app entry) =? "")%string then "未知应用"
                        else trim (app entry))) as Happ.
  { destruct (trim (app entry) =? "")%string eqn:E.
    - split; [discriminate | vm_compute; reflexivity].
    - apply trim_starts_plain. now apply String.eqb_neq. }
  destruct (trim (title entry) =? "")%string; [exact Happ |].
  match goal with
  | |- context [if ?b then _ else _] => destruct b; [exact Happ |]
  end.
  now apply (starts_plain_before_space _ ("- " ++ trim (title entry))).
Qed.

(** A pattern without [c] and without the first character of the
    replacement that matches the replaced text matches the text. *)
Lemma replace_char_prefix : forall c r0 replacement p s t,
  occurs c p = false -> occurs r0 p = false ->
  strip_prefix p (replace_char c (String r0 replacement) s) = Some t ->
  exists t', strip_prefix p s = Some t'.
Proof.
  intros c r0 replacement. induction p as [| a p IH]; intros s t Hc Hr H.
  - now exists s.
  - cbn [occurs] in Hc, Hr. apply orb_false_iff in Hc. apply orb_false_iff in Hr.
    destruct Hc as [Hac Hc]. destruct Hr as [Har Hr].
    destruct s as [| x s]; [discriminate |].
    cbn [replace_char] in H. destruct (Ascii.eqb x c) eqn:Exc.
    + cbn [append strip_prefix] in H. rewrite Har in H. discriminate.
    + cbn [strip_prefix] in *. destruct (Ascii.eqb a x); [| discriminate].
      now apply (IH s t).
Qed.

Lemma replace_char_plain : forall c r0 replacement s,
  (c = backslash \/ c = dquote) -> r0 = backslash ->
  starts_plain s -> starts_plain (replace_char c (String r0 replacement) s).
Proof.
  intros c r0 replacement s Hc -> [Hne Hnone]. split.
  - destruct s as [| x s]; [now contradiction Hne |].
    cbn [replace_char]. destruct (Ascii.eqb x c); discriminate.
  - destruct (strip_one whitespace (replace_char c (String backslash replacement) s))
      as [t |] eqn:E; [| reflexivity].
    exfalso. destruct (strip_one_Some _ _ _ E) as [p [Hp Hs]].
    apply (proj2 (strip_prefix_Some _ _ _)) in Hs.
    pose proof whitespace_plain as Hpl. rewrite forallb_forall in Hpl.
    specialize (Hpl p Hp). apply andb_true_iff in Hpl.
    destruct Hpl as [Hb Hq]. apply negb_true_iff in Hb. apply negb_true_iff in Hq.
    destruct (replace_char_prefix c backslash replacement p s t) as [t' Ht'];
      [destruct Hc; now subst c | exact Hb | exact Hs |].
    exact (strip_one_matches _ _ _ _ Hp Ht' Hnone).
Qed.

(** A pattern without a space that matches the collapsed text matches
    the text. *)
Lemma collapse_prefix : forall p n s t,
  occurs " " p = false ->
  strip_prefix p (collapse n s) = Some t ->
  exists t', strip_prefix p s = Some t'.
Proof.
  induction p as [| a p IH]; intros n s t Hp H.
  - now exists s.
  - cbn [occurs] in Hp. apply orb_false_iff in Hp. destruct Hp as [Ha Hp].
    destruct n as [| n]; [now exists t |].
    cbn [collapse] in H. destruct (strip_one whitespace s) as [r |].
    + cbn [strip_prefix] in H. rewrite Ha in H. discriminate.
    + destruct s as [| x s]; [discriminate |].
      cbn [strip_prefix] in *. destruct (Ascii.eqb a x); [| discriminate].
      now apply (IH n s t).
Qed.

Lemma collapse_plain : forall s,
  starts_plain s -> starts_plain (collapse_whitespace s).
Proof.
  intros s [Hne Hnone]. unfold collapse_whitespace.
  destruct s as [| x s]; [now contradiction Hne |].
  split.
  - cbn [String.length collapse]. rewrite Hnone. discriminate.
  - destruct (strip_one whitespace (collapse (String.length (String x s)) (String x s)))
      as [t |] eqn:E; [| reflexivity].
    exfalso. destruct (strip_one_Some _ _ _ E) as [p [Hp Hs]].
    apply (proj2 (strip_prefix_Some _ _ _)) in Hs.
    pose proof whitespace_spaces as Hsp. rewrite forallb_forall in Hsp.
    specialize (Hsp p Hp). apply orb_true_iff in Hsp. destruct Hsp as [Hsp | Hsp].
    + apply String.eqb_eq in Hsp. subst p.
      cbn [String.length collapse] in Hs. rewrite Hnone in Hs.
      cbn [strip_prefix] in Hs. destruct (Ascii.eqb " " x) eqn:Ex; [| discriminate].
      apply Ascii.eqb_eq in Ex. subst x.
      apply (strip_one_matches whitespace " " (String " " s) s Hp); [| exact Hnone].
      cbn [strip_prefix]. now rewrite Ascii.eqb_refl.
    + apply negb_true_iff in Hsp.
      destruct (collapse_prefix p _ _ t Hsp Hs) as [t' Ht'].
      exact (strip_one_matches _ _ _ _ Hp Ht' Hnone).
Qed.

Lemma _escapeQuotedText_not_empty : forall text,
  starts_plain text -> _escapeQuotedText text <> "".
Proof.
  intros text H. unfold _escapeQuotedText. apply starts_plain_not_blank.
  apply collapse_plain. apply replace_char_plain; [now right | reflexivity |].
  apply replace_char_plain; [now left | reflexivity | exact H].
Qed.

(** *** Escaped quotes *)

Lemma quotes_escaped_replace : forall s b,
  quotes_escaped_after b
    (replace_char dquote (String backslash (String dquote EmptyString)) s) = true.
Proof.
  induction s as [| x s IH]; intro b; [reflexivity |].
  cbn [replace_char]. destruct (Ascii.eqb x dquote) eqn:E.
  - cbn [append quotes_escaped_after].
    change (Ascii.eqb backslash dquote) with false.
    change (Ascii.eqb backslash backslash) with true.
    change (Ascii.eqb dquote dquote) with true. cbn [andb]. apply IH.
  - cbn [quotes_escaped_after]. rewrite E. cbn [andb]. apply IH.
Qed.

Lemma quotes_escaped_prefix : forall a r b,
  quotes_escaped_after b (a ++ r) = true -> quotes_escaped_after b a = true.
Proof.
  induction a as [| x a IH]; intros r b H; [reflexivity |].
  cbn [append quotes_escaped_after] in *. apply andb_true_iff in H.
  destruct H as [Hx Hrest]. rewrite Hx. cbn [andb]. now apply (IH r).
Qed.

(** What follows a text without backslash and double quote is escaped
    whatever stood before the text, unless the text is empty. *)
Lemma quotes_escaped_suffix : forall a r b,
  occurs backslash a = false ->
  quotes_escaped_after b (a ++ r) = true ->
  quotes_escaped_after (match a with EmptyString => b | _ => false end) r = true.
Proof.
  induction a as [| x a IH]; intros r b Ha H; [exact H |].
  cbn [occurs] in Ha. apply orb_false_iff in Ha. destruct Ha as [Hx Ha].
  cbn [append quotes_escaped_after] in H. apply andb_true_iff in H.
  destruct H as [_ Hrest]. rewrite Hx in Hrest.
  specialize (IH r false Ha Hrest). destruct a; exact IH.
Qed.

Lemma quotes_escaped_weaken : forall s b,
  quotes_escaped_after false s = true -> quotes_escaped_after b s = true.
Proof.
  intros [| x s] b H; [reflexivity |].
  cbn [quotes_escaped_after] in *. apply andb_true_iff in H. destruct H as [Hx Hrest].
  rewrite Hrest, andb_true_r. destruct (Ascii.eqb x dquote); [discriminate | reflexivity].
Qed.

Lemma quotes_escaped_after_run : forall ws r b,
  Forall (fun w => In w whitespace) ws ->
  quotes_escaped_after b (sconcat ws ++ r) = true ->
  quotes_escaped_after (match ws with [] => b | _ => false end) r = true.
Proof.
  induction ws as [| w ws IH]; intros r b Hws H; [exact H |].
  inversion Hws as [| ? ? Hw Hrest]; subst.
  cbn [sconcat] in H. rewrite append_assoc in H.
  pose proof whitespace_plain as Hpl. rewrite forallb_forall in Hpl.
  specialize (Hpl w Hw). apply andb_true_iff in Hpl. destruct Hpl as [Hb _].
  apply negb_true_iff in Hb.
  pose proof whitespace_nonempty as Hne. unfold nonempty_all in Hne.
  rewrite forallb_forall in Hne. specialize (Hne w Hw).
  apply quotes_escaped_suffix in H; [| exact Hb].
  destruct w; [discriminate |].
  specialize (IH r false Hrest H). destruct ws; exact IH.
Qed.

Lemma quotes_escaped_collapse : forall n s b,
  quotes_escaped_after b s = true -> quotes_escaped_after b (collapse n s) = true.
Proof.
  induction n as [| n IH]; intros s b H; [exact H |].
  cbn [collapse]. destruct (strip_one whitespace s) as [r |] eqn:E.
  - cbn [quotes_escaped_after].
    change (Ascii.eqb " " dquote) with false.
    change (Ascii.eqb " " backslash) with false. cbn [andb].
    apply IH.
    destruct (strip_one_Some _ _ _ E) as [p [Hp Hs]]. subst s.
    destruct (strip_many_spec whitespace (String.length r) r whitespace_nonempty
                (le_n _)) as [ws [Hws [Hr _]]].
    rewrite Hr in H. rewrite <- append_assoc in H.
    change (p ++ sconcat ws) with (sconcat (p :: ws)) in H.
    apply quotes_escaped_after_run in H; [exact H | now constructor].
  - destruct s as [| x s]; [reflexivity |].
    cbn [quotes_escaped_after] in *. apply andb_true_iff in H.
    destruct H as [Hx Hrest]. rewrite Hx. cbn [andb]. now apply IH.
Qed.

Lemma _escapeQuotedText_escaped : forall text,
  quotes_escaped_after false (_escapeQuotedText text) = true.
Proof.
  intro text. unfold _escapeQuotedText, trim.
  set (y := replace_char dquote _ _).
  assert (quotes_escaped_after false (collapse_whitespace y) = true) as Hx.
  { apply quotes_escaped_collapse. apply quotes_escaped_replace. }
  set (x := collapse_whitespace y) in *.
  destruct (trimEnd_prefix (trimStart x)) as [suffix Hsuffix].
  apply (quotes_escaped_prefix _ suffix). rewrite <- Hsuffix.
  destruct (strip_many_spec whitespace (String.length x) x whitespace_nonempty
              (le_n _)) as [ws [Hws [Hs _]]].
  fold (trimStart x) in Hs. rewrite Hs in Hx.
  apply quotes_escaped_after_run in Hx; [| exact Hws].
  destruct ws; exact Hx.
Qed.

(** *** Reading a name back *)

Lemma first_line_line : forall s, occurs linefeed s = false -> first_line s = s.
Proof.
  induction s as [| c s IH]; intro H; [reflexivity |].
  cbn [occurs] in H. apply orb_false_iff in H. destruct H as [Hc Hs].
  cbn [first_line]. change (ascii_of_N 10) with linefeed. rewrite Hc, (IH Hs).
  reflexivity.
Qed.

Lemma first_line_append : forall s r,
  occurs linefeed s = false -> first_line (s ++ String linefeed r) = s.
Proof.
  induction s as [| c s IH]; intros r H.
  - cbn [append first_line]. change (ascii_of_N 10) with linefeed.
    now rewrite Ascii.eqb_refl.
  - cbn [occurs] in H. apply orb_false_iff in H. destruct H as [Hc Hs].
    cbn [append first_line]. change (ascii_of_N 10) with linefeed.
    rewrite Hc, (IH r Hs). reflexivity.
Qed.

(** The name read before a closing quote is the text up to its first
    double quote. *)
Lemma span_not_quote_closed : forall s r,
  exists rest,
    span_not_quote (s ++ String dquote r)
    = (fst (span_not_quote s), String dquote rest).
Proof.
  induction s as [| c s IH]; intro r.
  - exists r. reflexivity.
  - cbn [append span_not_quote]. change (ascii_of_N 34) with dquote.
    destruct (Ascii.eqb c dquote) eqn:E.
    + apply Ascii.eqb_eq in E. subst c. eexists. reflexivity.
    + destruct (IH r) as [rest Hrest]. rewrite Hrest.
      destruct (span_not_quote s) as [a b]. exists rest. reflexivity.
Qed.

Lemma span_not_quote_plain : forall s,
  occurs dquote s = false -> span_not_quote s = (s, EmptyString).
Proof.
  induction s as [| c s IH]; intro H; [reflexivity |].
  cbn [occurs] in H. apply orb_false_iff in H. destruct H as [Hc Hs].
  cbn [span_not_quote]. change (ascii_of_N 34) with dquote.
  rewrite Hc, (IH Hs). reflexivity.
Qed.

Lemma span_not_quote_escaped : forall s,
  s <> "" -> quotes_escaped_after false s = true -> fst (span_not_quote s) <> "".
Proof.
  intros [| c s] Hne H; [now contradiction Hne |].
  cbn [quotes_escaped_after] in H. apply andb_true_iff in H. destruct H as [Hc _].
  cbn [span_not_quote]. change (ascii_of_N 34) with dquote.
  destruct (Ascii.eqb c dquote); [discriminate |].
  destruct (span_not_quote s). discriminate.
Qed.

Lemma replace_char_absent : forall c replacement s,
  occurs c s = false -> replace_char c replacement s = s.
Proof.
  intros c replacement. induction s as [| x s IH]; intro H; [reflexivity |].
  cbn [occurs] in H. apply orb_false_iff in H. destruct H as [Hx Hs].
  cbn [replace_char]. rewrite Hx, (IH Hs). reflexivity.
Qed.

Lemma replace_char_keeps_out : forall c x replacement s,
  occurs c replacement = false -> occurs c s = false ->
  occurs c (replace_char x replacement s) = false.
Proof.
  intros c x replacement. induction s as [| y s IH]; intros Hr H; [reflexivity |].
  cbn [occurs] in H. apply orb_false_iff in H. destruct H as [Hy Hs].
  cbn [replace_char]. destruct (Ascii.eqb y x).
  - rewrite occurs_append, Hr. now apply IH.
  - cbn [occurs]. rewrite Hy. now apply IH.
Qed.

Lemma _buildFullWindowName_no_quote : forall entry,
  occurs dquote (app entry) = false -> occurs dquote (title entry) = false ->
  occurs dquote (_buildFullWindowName entry) = false.
Proof.
  intros entry Ha Ht. unfold _buildFullWindowName. cbv zeta.
  assert (occurs dquote (if (trim (app entry) =? "")%string then "未知应用"
                         else trim (app entry)) = false) as Happ.
  { destruct (trim (app entry) =? "")%string; [vm_compute; reflexivity |].
    now apply occurs_trim. }
  destruct (trim (title entry) =? "")%string; [exact Happ |].
  match goal with
  | |- context [if ?b then _ else _] => destruct b; [exact Happ |]
  end.
  rewrite !occurs_append, Happ, (occurs_trim _ _ Ht). reflexivity.
Qed.

Lemma _escapeQuotedText_no_quote : forall text,
  occurs dquote text = false -> occurs dquote (_escapeQuotedText text) = false.
Proof.
  intros text H. unfold _escapeQuotedText. apply occurs_trim.
  apply collapse_keeps_out; [discriminate |].
  rewrite replace_char_absent; apply replace_char_keeps_out;
    try reflexivity; exact H.
Qed.

Lemma _buildFullWindowName_same : forall e e',
  app e = app e' -> title e = title e' ->
  _buildFullWindowName e = _buildFullWindowName e'.
Proof. intros e e' Ha Ht. unfold _buildFullWindowName. now rewrite Ha, Ht. Qed.

Section Clock.

Variable local_hours : Z -> Z.
Variable local_minutes : Z -> Z.
Variable local_seconds : Z -> Z.

Let _formatTimestamp := ActiveWindowCollector._formatTimestamp
                          local_hours local_minutes local_seconds.
Let format_entry := ActiveWindowCollector.format_entry
                      local_hours local_minutes local_seconds.
Let formatForPrompt := ActiveWindowCollector.formatForPrompt
                         local_hours local_minutes local_seconds.

Lemma _formatTimestamp_chars : forall ms c,
  occurs c (_formatTimestamp ms) = true -> In c (":"%char :: decimal_chars).
Proof.
  intros ms c H. unfold _formatTimestamp, ActiveWindowCollector._formatTimestamp in H.
  cbv zeta in H. split_occurs H;
    try (right; eapply padStart_chars; exact H); subst c; now left.
Qed.

Lemma format_entry_starts : forall entry,
  exists t, format_entry entry = String dquote t.
Proof. intro entry. eexists. reflexivity. Qed.

Lemma format_entry_no_linefeed : forall entry,
  occurs linefeed (format_entry entry) = false.
Proof.
  intro entry. apply not_true_is_false. intro H.
  unfold format_entry, ActiveWindowCollector.format_entry in H. cbv zeta in H.
  fold _formatTimestamp in H.
  change (String dquote ?a ++ ?b) with (String dquote (a ++ b)) in H.
  cbn [occurs] in H. split_occurs H;
    try (apply _formatTimestamp_chars in H; vm_compute in H;
         repeat (destruct H as [H | H]; [discriminate |]); now destruct H);
    try discriminate.
  rewrite _escapeQuotedText_no_linefeed in H. discriminate.
Qed.

(** X8. The text [formatForPrompt] builds has one line for each merged
    entry and no other: splitting it at its line feeds gives back the
    lines of the merged entries, whatever the names of the windows hold
    (line feeds and other white space in a name become single spaces). The
    text is empty exactly for the empty timeline. *)
Theorem prompt_text_has_one_line_per_merged_entry : forall timeline,
  (formatForPrompt timeline = "" <-> timeline = [])
  /\ (timeline <> [] ->
      split_lines (formatForPrompt timeline)
      = map format_entry (_mergeConsecutiveEntries timeline)).
Proof.
  intro timeline. destruct timeline as [| first rest].
  - split; [split; reflexivity | intro H; now contradiction H].
  - unfold formatForPrompt, ActiveWindowCollector.formatForPrompt. cbv zeta.
    fold format_entry. cbn [_mergeConsecutiveEntries].
    destruct (merge_from_head rest first) as [e [rest' [Hm _]]]. rewrite Hm.
    split.
    + split; [| discriminate]. intro H. exfalso.
      cbn [map join_strings] in H.
      destruct (format_entry_starts e) as [t Ht]. rewrite Ht in H.
      destruct (map format_entry rest'); discriminate H.
    + intros _. apply split_join_lines; [discriminate |].
      apply Forall_forall. intros l Hl. apply in_map_iff in Hl.
      destruct Hl as [x [<- _]]. apply format_entry_no_linefeed.
Qed.

(** The first line of the text is the line of the first window. *)
Lemma formatForPrompt_first_line : forall first rest,
  exists e,
    app e = app first /\ title e = title first
    /\ formatForPrompt (first :: rest) <> ""
    /\ first_line (formatForPrompt (first :: rest)) = format_entry e.
Proof.
  intros first rest.
  unfold formatForPrompt, ActiveWindowCollector.formatForPrompt. cbv zeta.
  fold format_entry. cbn [_mergeConsecutiveEntries].
  destruct (merge_from_head rest first) as [e [rest' [Hm [Ha [Ht _]]]]]. rewrite Hm.
  exists e. split; [exact Ha |]. split; [exact Ht |].
  cbn [map join_strings]. destruct (format_entry_starts e) as [t Hstart].
  destruct (map format_entry rest') as [| l ls].
  - split; [rewrite Hstart; discriminate |].
    apply first_line_line. apply format_entry_no_linefeed.
  - split; [rewrite Hstart; discriminate |].
    cbn [append]. apply first_line_append. apply format_entry_no_linefeed.
Qed.

(** X9. What [_extractWindowNameFromWindowText] reads back from the text
    [formatForPrompt] builds is the escaped name of the first window of
    the timeline, up to its first double quote; it is never empty, and it
    is the whole escaped name when the application name and the title of
    that window hold no double quote. So the [context] of the no-change
    record of the 2-minute tier names the window that was in focus first
    in the window of time, not the last one. *)
Theorem skip_context_is_the_first_window_name : forall first rest shot shots,
  let name := _escapeQuotedText (_buildFullWindowName first) in
  let read := fst (span_not_quote name) in
  ScreenshotComparer._extractWindowNameFromWindowText (formatForPrompt (first :: rest))
  = read
  /\ read <> ""
  /\ (occurs dquote (app first) = false -> occurs dquote (title first) = false ->
      read = name)
  /\ exists fields,
       ScreenshotComparer.buildNoChange2minRecord (shot :: shots)
         (formatForPrompt (first :: rest)) = Ret (JObj fields)
       /\ obj_get "context" fields = Some (JStr read).
Proof.
  intros first rest shot shots name read.
  destruct (formatForPrompt_first_line first rest) as [e [Ha [Ht [Hne Hline]]]].
  assert (name <> "") as Hname
    by (apply _escapeQuotedText_not_empty; apply _buildFullWindowName_plain).
  pose proof (_escapeQuotedText_escaped (_buildFullWindowName first)) as Hesc.
  fold name in Hesc.
  assert (read <> "") as Hread by (now apply span_not_quote_escaped).
  assert (ScreenshotComparer._extractWindowNameFromWindowText
            (formatForPrompt (first :: rest)) = read) as Hextract.
  { unfold ScreenshotComparer._extractWindowNameFromWindowText.
    destruct (formatForPrompt (first :: rest) =? "")%string eqn:E;
      [apply String.eqb_eq in E; now contradiction Hne |].
    cbv zeta. rewrite Hline.
    unfold format_entry, ActiveWindowCollector.format_entry. cbv zeta.
    rewrite (_buildFullWindowName_same e first Ha Ht). fold name.
    change (String dquote name ++ ?b) with (String dquote (name ++ b)).
    change (String dquote " " ++ ?b) with (String dquote (" " ++ b)).
    unfold match_leading_quoted.
    change (Ascii.eqb dquote (ascii_of_N 34)) with true. cbv iota.
    match goal with
    | |- context [span_not_quote (name ++ String dquote ?r)] =>
        destruct (span_not_quote_closed name r) as [rest' Hspan]; rewrite Hspan
    end.
    fold read. destruct read; [now contradiction Hread | reflexivity]. }
  split; [exact Hextract |]. split; [exact Hread |]. split.
  - intros Hqa Hqt. unfold read. rewrite span_not_quote_plain; [reflexivity |].
    apply _escapeQuotedText_no_quote. now apply _buildFullWindowName_no_quote.
  - unfold ScreenshotComparer.buildNoChange2minRecord.
    destruct shots as [| x shots] using rev_ind.
    + eexists. split; [reflexivity |].
      cbn [obj_get String.eqb Ascii.eqb Bool.eqb].
      destruct (formatForPrompt (first :: rest) =? "")%string eqn:E;
        [apply String.eqb_eq in E; now contradiction Hne |].
      now rewrite Hextract.
    + clear IHshots.
      change (shot :: shots ++ [x])%list with ((shot :: shots) ++ [x])%list.
      rewrite last_snoc.
      eexists. split; [reflexivity |].
      cbn [obj_get String.eqb Ascii.eqb Bool.eqb].
      destruct (formatForPrompt (first :: rest) =? "")%string eqn:E;
        [apply String.eqb_eq in E; now contradiction Hne |].
      now rewrite Hextract.
Qed.

End Clock.

End CollectorFacts.

(** ** SummaryStore *)

Section StoreFacts.
Import SummaryStore.
Local Open Scope Z_scope.

Variable sort : list string -> list string.
Variable JSON_parse : string -> result json.

Let read_selected := SummaryStore.read_selected JSON_parse.
Let json_files := SummaryStore.json_files sort.
Let getRecentSummaries := SummaryStore.getRecentSummaries sort JSON_parse.
Let getEarlierSummaries := SummaryStore.getEarlierSummaries sort JSON_parse.

Lemma read_selected_app : forall dir a b,
  snd (read_selected dir (a ++ b))
  = (snd (read_selected dir a) ++ snd (read_selected dir b))%list.
Proof.
  intros dir a b. induction a as [| file a IH]; [reflexivity |].
  unfold read_selected in *. cbn [app SummaryStore.read_selected].
  destruct (SummaryStore.read_selected JSON_parse dir (a ++ b)) as [later summaries].
  destruct (SummaryStore.read_selected JSON_parse dir a) as [later' summaries'].
  cbn [snd] in IH. subst summaries.
  destruct (readFileSync dir file) as [content | err]; [| reflexivity].
  destruct (JSON_parse content); reflexivity.
Qed.

Lemma read_selected_length : forall dir selected,
  (List.length (snd (read_selected dir selected)) <= List.length selected)%nat.
Proof.
  intros dir selected. induction selected as [| file selected IH]; [cbn; lia |].
  unfold read_selected in *. cbn [SummaryStore.read_selected].
  destruct (SummaryStore.read_selected JSON_parse dir selected) as [later summaries].
  cbn [snd] in IH.
  destruct (readFileSync dir file) as [content | err]; [| cbn [snd List.length]; lia].
  destruct (JSON_parse content); cbn [snd List.length]; lia.
Qed.

(** The last [n] elements. *)
Lemma slice_last : forall (A : Type) (l : list A) n,
  1 <= n ->
  slice l (- n) None = skipn (Z.to_nat (Z.max (Z.of_nat (List.length l) - n) 0)) l.
Proof.
  intros A l n Hn. unfold slice, relative_index.
  destruct (- n <? 0) eqn:E; [| apply Z.ltb_ge in E; lia].
  replace (Z.of_nat (List.length l) + - n) with (Z.of_nat (List.length l) - n) by lia.
  apply firstn_all2. rewrite length_skipn.
  destruct (Z.max_spec (Z.of_nat (List.length l) - n) 0) as [[_ ->] | [_ ->]]; lia.
Qed.

Lemma slice_between : forall (A : Type) (l : list A) s e,
  0 <= s <= e -> e <= Z.of_nat (List.length l) ->
  slice l s (Some e)
  = firstn (Z.to_nat e - Z.to_nat s) (skipn (Z.to_nat s) l).
Proof.
  intros A l s e Hse He. unfold slice, relative_index.
  destruct (s <? 0) eqn:Es; [apply Z.ltb_lt in Es; lia |].
  destruct (e <? 0) eqn:Ee; [apply Z.ltb_lt in Ee; lia |].
  rewrite !Z.min_l by lia. f_equal. lia.
Qed.

(** X10. The records [getEarlierSummaries] returns for [count] and [skip]
    followed by those [getRecentSummaries] returns for [skip] are the
    records [getRecentSummaries] returns for [count + skip], when both
    look at the same directory and [skip] is 1 or more: the earlier and
    the recent children of the 1-hour prompt neither overlap nor leave a
    record out between them. *)
Theorem earlier_then_recent_is_recent_of_the_sum : forall dir count skip,
  0 <= count -> 1 <= skip ->
  (snd (getEarlierSummaries dir count skip)
   ++ snd (getRecentSummaries dir skip))%list
  = snd (getRecentSummaries dir (count + skip)).
Proof.
  intros dir count skip Hcount Hskip.
  unfold getEarlierSummaries, getRecentSummaries,
    SummaryStore.getEarlierSummaries, SummaryStore.getRecentSummaries.
  destruct (existsSync dir); [| reflexivity]. cbn [negb]. cbv zeta.
  fold json_files. fold read_selected.
  rewrite <- read_selected_app. f_equal.
  set (files := json_files dir). set (n := Z.of_nat (List.length files)).
  rewrite (slice_last _ files skip Hskip).
  rewrite (slice_last _ files (count + skip)) by lia. fold n.
  rewrite slice_between by (fold n; lia). fold n.
  set (e := Z.max 0 (n - skip)). set (s := Z.max 0 (e - count)).
  replace (Z.max (n - skip) 0) with e by (unfold e; lia).
  replace (Z.max (n - (count + skip)) 0) with s by (unfold s, e; lia).
  rewrite <- (firstn_skipn (Z.to_nat e - Z.to_nat s) (skipn (Z.to_nat s) files)) at 2.
  f_equal. rewrite skipn_skipn. f_equal.
  assert (0 <= s <= e) as Hse by (unfold s, e; lia).
  clearbody s e.
  replace (Z.to_nat e - Z.to_nat s + Z.to_nat s)%nat with (Z.to_nat e) by lia.
  reflexivity.
Qed.

(** X11. For a [count] of 1 or more [getRecentSummaries] returns at most
    [count] records. For a [count] of 0 it selects every file of the
    directory, not none ([slice(-0)] is [slice(0)]), while
    [getEarlierSummaries] returns no record for a [count] of 0. *)
Theorem recent_summaries_of_count_zero_are_all : forall dir,
  (forall count,
     1 <= count ->
     Z.of_nat (List.length (snd (getRecentSummaries dir count))) <= count)
  /\ (existsSync dir = true ->
      getRecentSummaries dir 0 = read_selected dir (json_files dir))
  /\ (forall skip, snd (getEarlierSummaries dir 0 skip) = []).
Proof.
  intro dir. split; [| split].
  - intros count Hcount.
    unfold getRecentSummaries, SummaryStore.getRecentSummaries.
    destruct (existsSync dir); cbn [negb]; [| cbn; lia]. cbv zeta.
    fold json_files. fold read_selected.
    pose proof (read_selected_length dir (slice (json_files dir) (- count) None)) as H.
    rewrite (slice_last _ _ count Hcount) in *. rewrite length_skipn in H. lia.
  - intro Hexists. unfold getRecentSummaries, SummaryStore.getRecentSummaries.
    rewrite Hexists. cbn [negb]. cbv zeta. fold json_files. fold read_selected.
    f_equal. unfold slice, relative_index. cbn [Z.opp Z.ltb Z.compare].
    rewrite Z.min_l by lia. cbn [Z.to_nat skipn]. rewrite Z.sub_0_r, Nat2Z.id.
    apply firstn_all.
  - intro skip. unfold getEarlierSummaries, SummaryStore.getEarlierSummaries.
    destruct (existsSync dir); cbn [negb]; [| reflexivity]. cbv zeta.
    fold json_files.
    set (e := Z.max 0 (Z.of_nat (List.length (json_files dir)) - skip)).
    replace (Z.max 0 (e - 0)) with e by (unfold e; lia).
    unfold slice. now rewrite Z.sub_diag.
Qed.

Lemma obj_get_set : forall k k' v fields,
  obj_get k (obj_set k' v fields)
  = if String.eqb k k' then Some v else obj_get k fields.
Proof.
  intros k k' v fields. induction fields as [| [k0 v0] fields IH].
  - cbn [obj_set obj_get]. destruct (String.eqb k k'); reflexivity.
  - cbn [obj_set]. destruct (String.eqb k' k0) eqn:E0.
    + apply String.eqb_eq in E0. subst k0. cbn [obj_get].
      destruct (String.eqb k k'); reflexivity.
    + cbn [obj_get]. rewrite IH. destruct (String.eqb k k0) eqn:E1; [| reflexivity].
      apply String.eqb_eq in E1. subst k0.
      destruct (String.eqb k k') eqn:E2; [| reflexivity].
      apply String.eqb_eq in E2. subst k'. rewrite String.eqb_refl in E0. discriminate.
Qed.

Lemma obj_get_absent : forall k (fields : list (string * json)),
  ~ In k (map fst fields) -> obj_get k fields = None.
Proof.
  intros k fields. induction fields as [| [k0 v0] fields IH]; intro H; [reflexivity |].
  cbn [map fst In obj_get] in *. destruct (String.eqb k k0) eqn:E.
  - apply String.eqb_eq in E. subst k0. exfalso. apply H. now left.
  - apply IH. intro Hin. apply H. now right.
Qed.

Lemma spread_get : forall k data base,
  NoDup (map fst data) ->
  obj_get k (fold_left (fun fields kv => obj_set (fst kv) (snd kv) fields) data base)
  = match obj_get k data with
    | Some v => Some v
    | None => obj_get k base
    end.
Proof.
  intros k data. induction data as [| [k1 v1] data IH]; intros base Hnodup;
    [reflexivity |].
  cbn [map fst] in Hnodup. inversion Hnodup as [| ? ? Hnotin Hrest]; subst.
  cbn [fold_left fst snd obj_get]. rewrite (IH _ Hrest), obj_get_set.
  destruct (String.eqb k k1) eqn:E; [| reflexivity].
  apply String.eqb_eq in E. subst k1. now rewrite (obj_get_absent k data Hnotin).
Qed.

(** X12. The record [save] writes holds every field of the data it is
    given, with the value the data gives it; [timestamp] and
    [granularity] are the store's own only when the data has no field of
    that name. An answer of the analysis service that carries a
    [timestamp] of its own is therefore saved under that time. *)
Theorem saved_record_keeps_the_fields_of_the_data : forall iso granularity data,
  NoDup (map fst data) ->
  (forall k,
     obj_get k (record_of iso granularity data)
     = match obj_get k data with
       | Some v => Some v
       | None => if String.eqb k "timestamp" then Some (JStr iso)
                 else if String.eqb k "granularity" then Some (JStr granularity)
                 else None
       end)
  /\ (forall ts,
        obj_get "timestamp" data = Some ts ->
        obj_get "timestamp" (record_of iso granularity data) = Some ts).
Proof.
  intros iso granularity data Hnodup.
  assert (forall k,
            obj_get k (record_of iso granularity data)
            = match obj_get k data with
              | Some v => Some v
              | None => if String.eqb k "timestamp" then Some (JStr iso)
                        else if String.eqb k "granularity" then Some (JStr granularity)
                        else None
              end) as Hget.
  { intro k. unfold record_of. rewrite (spread_get k data _ Hnodup). reflexivity. }
  split; [exact Hget |].
  intros ts Hts. now rewrite Hget, Hts.
Qed.

End StoreFacts.

(** ** Storage and ScreenshotReader: the names of the screenshot files *)

Section NamingFacts.
Import ScreenshotComparer Text Storage ScreenshotReader.
Local Open Scope Z_scope.

Variable getFullYear : Date -> Z.
Variable getMonth : Date -> Z.
Variable getDate : Date -> Z.
Variable getSeconds : Date -> Z.
Variable Date_local : Z -> Z -> Z -> Z -> Z -> Z -> Date.

Let getCurrentDate := Storage.getCurrentDate getFullYear getMonth getDate.
Let getCurrentTime := Storage.getCurrentTime getSeconds.
Let generateFileName :=
  Storage.generateFileName getFullYear getMonth getDate getSeconds.
Let _parseTimestamp := ScreenshotReader._parseTimestamp Date_local.

Lemma two_digits_all : forall n, 0 <= n <= 99 -> two_digits n = true.
Proof.
  intros n Hn.
  assert (forallb two_digits (map Z.of_nat (seq 0 100)) = true) as Hall
    by (vm_compute; reflexivity).
  rewrite forallb_forall in Hall. apply Hall.
  apply in_map_iff. exists (Z.to_nat n). split; [lia |].
  apply in_seq. lia.
Qed.

Lemma four_digits_all : forall n, 1000 <= n <= 9999 -> four_digits n = true.
Proof.
  intros n Hn.
  assert (forallb four_digits
            (map (fun i => 1000 + Z.of_nat i) (seq 0 (Z.to_nat 9000))) = true) as Hall
    by (vm_compute; reflexivity).
  rewrite forallb_forall in Hall. apply Hall.
  apply in_map_iff. exists (Z.to_nat (n - 1000)). split; [lia |].
  apply in_seq. lia.
Qed.

Lemma take_two_digits : forall n rest,
  0 <= n <= 99 ->
  take_digits 2 (padStart 2 "0" (string_of_Z n) ++ rest)
  = Some (padStart 2 "0" (string_of_Z n), rest)
  /\ Number (padStart 2 "0" (string_of_Z n)) = n.
Proof.
  intros n rest Hn. pose proof (two_digits_all n Hn) as H. unfold two_digits in H.
  destruct (padStart 2 "0" (string_of_Z n)) as [| a [| b [| c s]]]; try discriminate.
  apply andb_true_iff in H. destruct H as [H Hnum].
  apply andb_true_iff in H. destruct H as [Ha Hb].
  split.
  - cbn [append take_digits]. rewrite Ha, Hb. reflexivity.
  - now apply Z.eqb_eq.
Qed.

Lemma take_four_digits : forall n rest,
  1000 <= n <= 9999 ->
  take_digits 4 (string_of_Z n ++ rest) = Some (string_of_Z n, rest)
  /\ Number (string_of_Z n) = n.
Proof.
  intros n rest Hn. pose proof (four_digits_all n Hn) as H. unfold four_digits in H.
  destruct (string_of_Z n) as [| a [| b [| c [| d [| e s]]]]]; try discriminate.
  apply andb_true_iff in H. destruct H as [H Hnum].
  apply andb_true_iff in H. destruct H as [H Hd].
  apply andb_true_iff in H. destruct H as [H Hc].
  apply andb_true_iff in H. destruct H as [Ha Hb].
  split.
  - cbn [append take_digits]. rewrite Ha, Hb, Hc, Hd. reflexivity.
  - now apply Z.eqb_eq.
Qed.

Lemma uint_digits : forall d, all_chars is_digit (NilEmpty.string_of_uint d) = true.
Proof.
  induction d; cbn [NilEmpty.string_of_uint all_chars]; try reflexivity;
    rewrite IHd; reflexivity.
Qed.

(** The numeral of a number that is not negative: digits, one or more. *)
Lemma string_of_Z_digits : forall n,
  0 <= n ->
  all_chars is_digit (string_of_Z n) = true /\ string_of_Z n <> "".
Proof.
  intros n Hn. unfold string_of_Z.
  destruct n as [| p | p]; [split; [reflexivity | discriminate] | | lia].
  cbn [Z.to_int NilZero.string_of_int]. unfold NilZero.string_of_uint.
  pose proof (uint_digits (Pos.to_uint p)) as Hd.
  destruct (Pos.to_uint p) eqn:E; (split; [try exact Hd; reflexivity |]);
    cbn [NilEmpty.string_of_uint]; discriminate.
Qed.

Lemma span_digits_stop : forall ds c rest,
  all_chars is_digit ds = true -> is_digit c = false ->
  span_digits (ds ++ String c rest) = (ds, String c rest).
Proof.
  induction ds as [| x ds IH]; intros c rest Hds Hc.
  - cbn [append span_digits]. now rewrite Hc.
  - cbn [all_chars] in Hds. apply andb_true_iff in Hds. destruct Hds as [Hx Hds].
    cbn [append span_digits]. rewrite Hx, (IH c rest Hds Hc). reflexivity.
Qed.

Lemma replace_first_skip : forall c pattern replacement a b,
  occurs c a = false ->
  replace_first (String c pattern) replacement (a ++ b)
  = a ++ replace_first (String c pattern) replacement b.
Proof.
  intros c pattern replacement. induction a as [| x a IH]; intros b H; [reflexivity |].
  cbn [occurs] in H. apply orb_false_iff in H. destruct H as [Hx Ha].
  cbn [append]. cbn [replace_first strip_prefix].
  rewrite Ascii.eqb_sym, Hx. now rewrite IH.
Qed.

Lemma replace_first_absent : forall c pattern replacement a,
  occurs c a = false -> replace_first (String c pattern) replacement a = a.
Proof.
  intros c pattern replacement a H.
  rewrite <- (append_nil_r a) at 1. rewrite replace_first_skip by exact H.
  cbn [replace_first strip_prefix]. now rewrite append_nil_r.
Qed.

Lemma decimal_no_brace : forall s,
  (forall c, occurs c s = true -> In c (":"%char :: decimal_chars)) ->
  occurs "{" s = false.
Proof.
  intros s H. apply not_true_is_false. intro Hocc. specialize (H _ Hocc).
  vm_compute in H. repeat (destruct H as [H | H]; [discriminate |]). destruct H.
Qed.

Lemma getCurrentDate_chars : forall now c,
  occurs c (getCurrentDate now) = true -> In c (":"%char :: decimal_chars).
Proof.
  intros now c H. unfold getCurrentDate, Storage.getCurrentDate in H. cbv zeta in H.
  right. split_occurs H;
    try (eapply padStart_chars; exact H);
    try (eapply string_of_Z_chars; exact H); subst c; vm_compute; tauto.
Qed.

Lemma getCurrentTime_chars : forall now c,
  occurs c (getCurrentTime now) = true -> In c (":"%char :: decimal_chars).
Proof.
  intros now c H. unfold getCurrentTime, Storage.getCurrentTime in H. cbv zeta in H.
  right. split_occurs H;
    try (eapply padStart_chars; exact H); subst c; vm_compute; tauto.
Qed.

(** The name [generateFileName] makes with the default pattern. *)
Lemma generateFileName_default : forall format date_now time_now Date_now monitorIndex,
  generateFileName default_pattern format date_now time_now Date_now monitorIndex
  = getCurrentDate date_now ++ "_" ++ getCurrentTime time_now ++ "_"
    ++ string_of_Z monitorIndex ++ "." ++ format.
Proof.
  intros format date_now time_now Date_now monitorIndex.
  unfold generateFileName, Storage.generateFileName. cbv zeta.
  fold getCurrentDate. fold getCurrentTime.
  set (date := getCurrentDate date_now). set (time := getCurrentTime time_now).
  set (monitor := string_of_Z monitorIndex).
  assert (occurs "{" date = false) as Hdate
    by (apply decimal_no_brace; apply getCurrentDate_chars).
  assert (occurs "{" time = false) as Htime
    by (apply decimal_no_brace; apply getCurrentTime_chars).
  assert (occurs "{" monitor = false) as Hmonitor.
  { apply decimal_no_brace. intros c Hc. right. eapply string_of_Z_chars. exact Hc. }
  assert (replace_first "{date}" date default_pattern
          = date ++ "_{time}_{monitor}") as -> by reflexivity.
  rewrite (replace_first_skip "{" "time}" time date _ Hdate).
  assert (replace_first "{time}" time "_{time}_{monitor}"
          = "_" ++ time ++ "_{monitor}") as -> by reflexivity.
  rewrite (replace_first_skip "{" "monitor}" monitor date _ Hdate).
  change ("_" ++ time ++ "_{monitor}") with (String "_" (time ++ "_{monitor}")).
  assert (forall t, replace_first "{monitor}" monitor (String "_" t)
                    = String "_" (replace_first "{monitor}" monitor t)) as Hskip
    by reflexivity.
  rewrite Hskip. rewrite (replace_first_skip "{" "monitor}" monitor time _ Htime).
  assert (replace_first "{monitor}" monitor "_{monitor}" = "_" ++ monitor) as ->
    by (cbn; now rewrite append_nil_r).
  rewrite (replace_first_absent "{" "timestamp}").
  - change (String "_" (time ++ "_" ++ monitor)) with ("_" ++ time ++ "_" ++ monitor).
    rewrite !append_assoc. reflexivity.
  - rewrite !occurs_append, Hdate. cbn [occurs orb].
    change (Ascii.eqb "_" "{") with false. cbn [orb].
    rewrite occurs_append, Htime. cbn [orb append occurs].
    change (Ascii.eqb "_" "{") with false. cbn [orb]. exact Hmonitor.
Qed.

Lemma endsWith_right : forall a b suffix,
  SummaryStore.endsWith b suffix = true -> SummaryStore.endsWith (a ++ b) suffix = true.
Proof.
  intros a b suffix H. unfold SummaryStore.endsWith in *. rewrite string_rev_append.
  destruct (strip_prefix (string_rev suffix) (string_rev b)) as [r |] eqn:E;
    [| discriminate].
  now rewrite (strip_prefix_longer _ _ (string_rev a) _ E).
Qed.

(** X13. A file name the screenshot service writes with its default naming
    pattern is read back by the summary service: for a date with a year
    of four digits and a monitor index that is not negative,
    [_parseTimestamp] accepts the name [generateFileName] makes and gives
    the date of its year, month, day, hour, minute and second, and the
    name ends with the extension the reader looks for under the same
    configured format. *)
Theorem names_written_by_storage_are_read_back :
  forall format date_now time_now Date_now monitorIndex,
    1000 <= getFullYear date_now <= 9999 ->
    0 <= getMonth date_now <= 11 ->
    1 <= getDate date_now <= 31 ->
    0 <= getHours time_now <= 23 ->
    0 <= getMinutes time_now <= 59 ->
    0 <= getSeconds time_now <= 59 ->
    0 <= monitorIndex ->
    let name := generateFileName default_pattern (constructor_format format)
                  date_now time_now Date_now monitorIndex in
    _parseTimestamp name
    = Some (Date_local (getFullYear date_now) (getMonth date_now) (getDate date_now)
              (getHours time_now) (getMinutes time_now) (getSeconds time_now))
    /\ SummaryStore.endsWith name
         (if String.eqb format "png" then ".png" else ".jpeg") = true.
Proof.
  intros format date_now time_now Date_now monitorIndex Hy Hmo Hd Hh Hmi Hs Hidx name.
  unfold name. rewrite generateFileName_default. split.
  - unfold getCurrentDate, getCurrentTime, Storage.getCurrentDate,
      Storage.getCurrentTime. cbv zeta. rewrite !append_assoc.
    unfold _parseTimestamp, ScreenshotReader._parseTimestamp.
    rewrite (proj1 (take_four_digits (getFullYear date_now) _ Hy)).
    cbn [append expect Ascii.eqb Bool.eqb]. cbv iota.
    rewrite (proj1 (take_two_digits (getMonth date_now + 1) _ ltac:(lia))).
    cbn [append expect Ascii.eqb Bool.eqb]. cbv iota.
    rewrite (proj1 (take_two_digits (getDate date_now) _ ltac:(lia))).
    cbn [append expect Ascii.eqb Bool.eqb]. cbv iota.
    rewrite (proj1 (take_two_digits (getHours time_now) _ ltac:(lia))).
    cbn [append expect Ascii.eqb Bool.eqb]. cbv iota.
    rewrite (proj1 (take_two_digits (getMinutes time_now) _ ltac:(lia))).
    cbn [append expect Ascii.eqb Bool.eqb]. cbv iota.
    rewrite (proj1 (take_two_digits (getSeconds time_now) _ ltac:(lia))).
    cbn [append expect Ascii.eqb Bool.eqb]. cbv iota.
    destruct (string_of_Z_digits monitorIndex Hidx) as [Hdigits Hne].
    rewrite (span_digits_stop _ "." _ Hdigits eq_refl).
    destruct (string_of_Z monitorIndex) as [| x xs]; [now contradiction Hne |].
    cbn [expect Ascii.eqb Bool.eqb]. cbv iota.
    assert (negb (constructor_format format =? "")%string
            && all_chars is_word (constructor_format format) = true) as ->.
    { unfold constructor_format. destruct (format =? "png")%string; reflexivity. }
    rewrite (proj2 (take_four_digits (getFullYear date_now) "" Hy)).
    rewrite (proj2 (take_two_digits (getMonth date_now + 1) "" ltac:(lia))).
    rewrite (proj2 (take_two_digits (getDate date_now) "" ltac:(lia))).
    rewrite (proj2 (take_two_digits (getHours time_now) "" ltac:(lia))).
    rewrite (proj2 (take_two_digits (getMinutes time_now) "" ltac:(lia))).
    rewrite (proj2 (take_two_digits (getSeconds time_now) "" ltac:(lia))).
    repeat f_equal. lia.
  - unfold constructor_format.
    destruct (format =? "png")%string; do 5 apply endsWith_right; reflexivity.
Qed.

End NamingFacts.

(** ** ScreenshotReader: the screenshots of a window of time *)

Section ReaderFacts.
Import ScreenshotComparer Text ScreenshotReader.
Local Open Scope Z_scope.

Variable Date_local : Z -> Z -> Z -> Z -> Z -> Z -> Date.
Variable path_join : string -> string -> string.

Let in_range := ScreenshotReader.in_range Date_local path_join.
Let getRecentScreenshotBuffers :=
  ScreenshotReader.getRecentScreenshotBuffers Date_local path_join.

Let time_of (f : ShotFile) : Z := getTime (shot_timestamp f).

Lemma in_range_within : forall format dir files startTime endTime,
  Forall (fun f => startTime <= time_of f <= endTime)
    (in_range format dir files startTime endTime).
Proof.
  intros format dir files startTime endTime.
  induction files as [| file files IH]; [constructor |].
  unfold in_range in *. cbn [ScreenshotReader.in_range]. cbv zeta.
  destruct (negb (SummaryStore.endsWith file _)); [exact IH |].
  destruct (ScreenshotReader._parseTimestamp Date_local file) as [ts |]; [| exact IH].
  destruct (getTime ts >=? startTime) eqn:E1; [| exact IH].
  destruct (getTime ts <=? endTime) eqn:E2; [| exact IH].
  cbn [andb]. constructor; [| exact IH].
  unfold time_of. cbn [shot_timestamp]. apply Z.geb_le in E1. apply Z.leb_le in E2. lia.
Qed.

Lemma insert_by_time_Forall : forall (P : ShotFile -> Prop) x l,
  P x -> Forall P l -> Forall P (insert_by_time x l).
Proof.
  intros P x l Hx Hl. induction Hl as [| y l Hy Hl IH]; cbn [insert_by_time].
  - now constructor.
  - destruct (getTime (shot_timestamp x) <=? getTime (shot_timestamp y));
      repeat constructor; assumption.
Qed.

Lemma sort_by_time_Forall : forall (P : ShotFile -> Prop) l,
  Forall P l -> Forall P (sort_by_time l).
Proof.
  intros P l H. induction H as [| x l Hx Hl IH]; [constructor |].
  cbn [sort_by_time fold_right]. now apply insert_by_time_Forall.
Qed.

Lemma insert_by_time_sorted : forall x l,
  StronglySorted (fun a b => time_of a <= time_of b) l ->
  StronglySorted (fun a b => time_of a <= time_of b) (insert_by_time x l).
Proof.
  intros x l H. induction H as [| y l Hl IH Hy]; cbn [insert_by_time].
  - repeat constructor.
  - destruct (getTime (shot_timestamp x) <=? getTime (shot_timestamp y)) eqn:E.
    + apply Z.leb_le in E. constructor; [now constructor |].
      constructor; [exact E |].
      rewrite Forall_forall in *. intros z Hz. specialize (Hy z Hz).
      unfold time_of in *. lia.
    + apply Z.leb_gt in E. constructor; [exact IH |].
      apply insert_by_time_Forall; [unfold time_of; lia | exact Hy].
Qed.

Lemma sort_by_time_sorted : forall l,
  StronglySorted (fun a b => time_of a <= time_of b) (sort_by_time l).
Proof.
  induction l as [| x l IH]; [constructor |].
  cbn [sort_by_time fold_right]. now apply insert_by_time_sorted.
Qed.

Lemma skipn_Forall : forall (A : Type) (P : A -> Prop) n l,
  Forall P l -> Forall P (skipn n l).
Proof.
  intros A P n. induction n as [| n IH]; intros l H; [exact H |].
  destruct H as [| x l Hx Hl]; [constructor | now apply IH].
Qed.

Lemma skipn_sorted : forall (A : Type) (R : A -> A -> Prop) n l,
  StronglySorted R l -> StronglySorted R (skipn n l).
Proof.
  intros A R n. induction n as [| n IH]; intros l H; [exact H |].
  destruct H as [| x l Hl Hx]; [constructor | now apply IH].
Qed.

Lemma read_buffers_subsequence : forall dir selected,
  (forall P : Date -> Prop,
     Forall (fun f => P (shot_timestamp f)) selected ->
     Forall (fun s => P (timestamp s)) (snd (read_buffers dir selected)))
  /\ (StronglySorted (fun a b => time_of a <= time_of b) selected ->
      StronglySorted not_later (snd (read_buffers dir selected)))
  /\ (List.length (snd (read_buffers dir selected)) <= List.length selected)%nat.
Proof.
  intros dir selected. induction selected as [| shot selected IH].
  - split; [| split]; [intros; constructor | intros; constructor | cbn; lia].
  - destruct IH as [IHall [IHsorted IHlen]].
    cbn [read_buffers]. destruct (read_buffers dir selected) as [later results].
    cbn [snd] in *. split; [| split].
    + intros P H. inversion H as [| ? ? Hshot Hrest]; subst.
      specialize (IHall P Hrest).
      destruct (readFileSync dir (path shot)); cbn [snd]; [| exact IHall].
      constructor; [exact Hshot | exact IHall].
    + intro H. inversion H as [| ? ? Hrest Hshot]; subst.
      specialize (IHsorted Hrest).
      destruct (readFileSync dir (path shot)); cbn [snd]; [| exact IHsorted].
      constructor; [exact IHsorted |].
      apply (IHall (fun d => getTime (shot_timestamp shot) <= getTime d)).
      exact Hshot.
    + destruct (readFileSync dir (path shot)); cbn [snd List.length]; lia.
Qed.

(** X14. For a [maxCount] of 1 or more, [getRecentScreenshotBuffers]
    returns at most [maxCount] screenshots; each was taken, by its file
    name, within the [minutes] before [now] and not after [now]; and they
    are in the order of time, whatever the order in which the directory
    lists its files and whichever files cannot be read. *)
Theorem recent_screenshots_are_few_recent_and_in_order :
  forall format dir now minutes maxCount,
    1 <= maxCount ->
    let results := snd (getRecentScreenshotBuffers format dir now minutes maxCount) in
    Z.of_nat (List.length results) <= maxCount
    /\ Forall (fun s => now - minutes * 60 * 1000 <= getTime (timestamp s) <= now)
         results
    /\ StronglySorted not_later results.
Proof.
  intros format dir now minutes maxCount Hmax results. subst results.
  unfold getRecentScreenshotBuffers, ScreenshotReader.getRecentScreenshotBuffers,
    getRecentScreenshots, getScreenshotsInRange.
  set (startTime := now - minutes * 60 * 1000).
  assert (exists found screenshots,
            (if negb (existsSync dir)
             then ([Log LWarn ("截图目录不存在: " ++ dateDir dir)], [])
             else ([], sort_by_time
                         (ScreenshotReader.in_range Date_local path_join format dir
                            (readdirSync dir) startTime now)))
            = (found, screenshots)
            /\ Forall (fun f => startTime <= time_of f <= now) screenshots
            /\ StronglySorted (fun a b => time_of a <= time_of b) screenshots)
    as [found [screenshots [-> [Hwithin Hsorted]]]].
  { destruct (existsSync dir); cbn [negb].
    - eexists. eexists. split; [reflexivity |]. split.
      + apply sort_by_time_Forall. apply in_range_within.
      + apply sort_by_time_sorted.
    - eexists. eexists. split; [reflexivity |]. split; constructor. }
  cbv zeta. rewrite (slice_last _ screenshots maxCount Hmax).
  set (selected := skipn _ screenshots).
  assert (Forall (fun f => startTime <= time_of f <= now) selected) as Hsel
    by (now apply skipn_Forall).
  assert (StronglySorted (fun a b => time_of a <= time_of b) selected) as Hsels
    by (now apply skipn_sorted).
  assert (Z.of_nat (List.length selected) <= maxCount) as Hlen.
  { unfold selected. rewrite length_skipn.
    destruct (Z.max_spec (Z.of_nat (List.length screenshots) - maxCount) 0)
      as [[Hcase ->] | [Hcase ->]]; lia. }
  destruct (read_buffers_subsequence dir selected) as [Hall [Hsort Hle]].
  destruct (read_buffers dir selected) as [read results]. cbn [snd] in *.
  split; [lia |]. split.
  - apply (Hall (fun d => startTime <= getTime d <= now)). exact Hsel.
  - now apply Hsort.
Qed.

End ReaderFacts.

(* ------------------------------------------------------------------ *)

Section TokenFacts.

Import TokenTracker.
Local Open Scope Z_scope.

Variable toISOString : Date -> string.
Variable getFullYear : Date -> Z.
Variable getMonth : Date -> Z.
Variable getDate : Date -> Z.

Let record := TokenTracker.record toISOString getFullYear getMonth getDate.
Let after_calls := Shapes.after_calls toISOString getFullYear getMonth getDate.












End TokenFacts.

(* ------------------------------------------------------------------ *)

Section EscapeFacts.

Import Text PromptBuilder.

Lemma replace_char_append (c : ascii) (replacement a b : string) :
  replace_char c replacement (a ++ b) =
  replace_char c replacement a ++ replace_char c replacement b.
Proof.
  induction a as [| x a IH]; cbn [append replace_char].
  - reflexivity.
  - destruct (Ascii.eqb x c).
    + rewrite IH, append_assoc. reflexivity.
    + rewrite IH. reflexivity.
Qed.

Lemma replaced_each (s : string) :
  replace_char "'" "&apos;"
    (replace_char dquote "&quot;"
       (replace_char ">" "&gt;"
          (replace_char "<" "&lt;"
             (replace_char "&" "&amp;" s)))) = each_escaped s.
Proof.
  induction s as [| x s IH].
  - reflexivity.
  - cbn [each_escaped]. rewrite <- IH. clear IH.
    change (String x s) with (String x EmptyString ++ s).
    rewrite !replace_char_append. f_equal.
    unfold entity_of, dquote.
    destruct x as [[] [] [] [] [] [] [] []]; reflexivity.
Qed.

Lemma entity_of_clean (c x : ascii) :
  In x ["<"%char; ">"%char; ascii_of_N 34; "'"%char] ->
  occurs x (entity_of c) = false.
Proof.
  intros Hx. cbn [In] in Hx.
  destruct Hx as [<- | [<- | [<- | [<- | []]]]];
    destruct c as [[] [] [] [] [] [] [] []]; reflexivity.
Qed.

Lemma each_escaped_clean (x : ascii) (s : string) :
  In x ["<"%char; ">"%char; ascii_of_N 34; "'"%char] ->
  occurs x (each_escaped s) = false.
Proof.
  intros Hx. induction s as [| c s IH]; cbn [each_escaped].
  - reflexivity.
  - rewrite occurs_append, IH, (entity_of_clean c x Hx). reflexivity.
Qed.

Lemma entity_of_cases (c : ascii) :
  (c = "&"%char /\ entity_of c = "&amp;") \/
  (c = "<"%char /\ entity_of c = "&lt;") \/
  (c = ">"%char /\ entity_of c = "&gt;") \/
  (c = ascii_of_N 34 /\ entity_of c = "&quot;") \/
  (c = "'"%char /\ entity_of c = "&apos;") \/
  (c <> "&"%char /\ entity_of c = String c EmptyString).
Proof.
  unfold entity_of.
  destruct (Ascii.eqb c "&") eqn:E1;
    [apply Ascii.eqb_eq in E1; left; split; [exact E1 | reflexivity] | right].
  destruct (Ascii.eqb c "<") eqn:E2;
    [apply Ascii.eqb_eq in E2; left; split; [exact E2 | reflexivity] | right].
  destruct (Ascii.eqb c ">") eqn:E3;
    [apply Ascii.eqb_eq in E3; left; split; [exact E3 | reflexivity] | right].
  destruct (Ascii.eqb c (ascii_of_N 34)) eqn:E4;
    [apply Ascii.eqb_eq in E4; left; split; [exact E4 | reflexivity] | right].
  destruct (Ascii.eqb c "'") eqn:E5;
    [apply Ascii.eqb_eq in E5; left; split; [exact E5 | reflexivity] | right].
  split; [| reflexivity].
  intros ->. discriminate E1.
Qed.

Lemma entity_of_unique (a b : ascii) (s t : string) :
  entity_of a ++ s = entity_of b ++ t -> a = b /\ s = t.
Proof.
  destruct (entity_of_cases a) as [[Ha ->] | [[Ha ->] | [[Ha ->] | [[Ha ->] | [[Ha ->] | [Ha ->]]]]]];
    destruct (entity_of_cases b) as [[Hb ->] | [[Hb ->] | [[Hb ->] | [[Hb ->] | [[Hb ->] | [Hb ->]]]]]];
    cbn [append]; intros H;
    try discriminate H;
    try (injection H as H1 H2; subst; try contradiction; split; reflexivity);
    try (injection H as H2; subst; split; reflexivity).
Qed.

Lemma entity_of_not_empty (c : ascii) (s : string) : entity_of c ++ s <> "".
Proof.
  destruct (entity_of_cases c) as [[_ ->] | [[_ ->] | [[_ ->] | [[_ ->] | [[_ ->] | [_ ->]]]]]];
    discriminate.
Qed.

Lemma each_escaped_injective (s t : string) :
  each_escaped s = each_escaped t -> s = t.
Proof.
  revert t. induction s as [| a s IH]; intros [| b t] H.
  - reflexivity.
  - exfalso. cbn [each_escaped] in H. symmetry in H.
    exact (entity_of_not_empty _ _ H).
  - exfalso. cbn [each_escaped] in H.
    exact (entity_of_not_empty _ _ H).
  - cbn [each_escaped] in H. apply entity_of_unique in H as [-> H].
    f_equal. apply IH, H.
Qed.

Lemma _escapeXml_each (s : string) : _escapeXml (Some s) = each_escaped s.
Proof.
  unfold _escapeXml. destruct (String.eqb s "") eqn:E.
  - apply String.eqb_eq in E. subst s. reflexivity.
  - apply replaced_each.
Qed.

(** X16. The five replacements of _escapeXml escape each character of the
    text once, the ampersand of an entity they wrote is not escaped
    again; the escaped text holds none of the characters that would end
    an attribute or open a tag; two different texts are never escaped
    to the same text; and a missing text is escaped to the empty
    text. *)
Theorem escaped_text_is_clean_and_escaped_once :
  forall s,
    _escapeXml (Some s) = each_escaped s /\
    (forall x, In x ["<"%char; ">"%char; ascii_of_N 34; "'"%char] ->
               occurs x (_escapeXml (Some s)) = false) /\
    (forall t, _escapeXml (Some s) = _escapeXml (Some t) -> s = t) /\
    _escapeXml None = "".
Proof.
  intros s. split; [| split; [| split]].
  - apply _escapeXml_each.
  - intros x Hx. rewrite _escapeXml_each. apply each_escaped_clean, Hx.
  - intros t H. rewrite !_escapeXml_each in H. apply each_escaped_injective, H.
  - reflexivity.
Qed.

End EscapeFacts.

(* ------------------------------------------------------------------ *)

Section TodoFacts.

Import Text TodoWriter.
Local Open Scope nat_scope.
Local Open Scope list_scope.

Variable path_join : string -> string -> string.
Variable uuidv4 : nat -> string.
Variable now_toISOString : nat -> string.
Variable write_throws : nat -> option error.



Lemma count_named_app (key value : string) (a b : list json) :
  count_named key value (a ++ b) = count_named key value a + count_named key value b.
Proof. unfold count_named. rewrite filter_app, length_app. reflexivity. Qed.

Lemma has_field_named (key value : string) (item : json) (b : bool) :
  has_field key value item = Ret b -> named key value item = b.
Proof.
  destruct item; cbn [has_field named]; intros H; try discriminate H;
    injection H as <-; reflexivity.
Qed.


Lemma find_index_some (key value : string) (items : list json) (i : nat) :
  find_index key value items = Ret (Some i) ->
  exists fields, nth_error items i = Some (JObj fields) /\
                 named key value (JObj fields) = true.
Proof.
  revert i. induction items as [| item items IH]; intros i H; [discriminate H |].
  cbn [find_index] in H.
  destruct (has_field key value item) as [[] |] eqn:Ef; try discriminate H.
  - injection H as <-. apply has_field_named in Ef.
    destruct item; try discriminate Ef. exists fields. split; [reflexivity | exact Ef].
  - destruct (find_index key value items) as [[j |] |]; try discriminate H.
    injection H as <-. apply (IH j). reflexivity.
Qed.

Lemma find_array (expr key value : string) (v : option json) (found : option nat) :
  find expr key value v = Ret found ->
  exists items, v = Some (JArr items) /\ find_index key value items = Ret found.
Proof.
  destruct v as [[] |]; cbn [find]; intros H; try discriminate H.
  exists items. split; [reflexivity | exact H].
Qed.

Lemma nth_replace_at (i j : nat) (x d : json) (l : list json) :
  nth j (replace_at i x l) d =
  if (j =? i) && (i <? List.length l) then x else nth j l d.
Proof.
  revert i j. induction l as [| y l IH]; intros i j.
  - cbn [replace_at List.length]. rewrite andb_false_r. reflexivity.
  - destruct i as [| i]; destruct j as [| j]; cbn [replace_at nth List.length]; try reflexivity.
    rewrite IH. reflexivity.
Qed.





Lemma children_with_child (fields : list (string * json))
    (children : list json) (child : json) (stamp : string) :
  children_of (JObj (with_child fields children child stamp)) = children ++ [child].
Proof.
  unfold with_child, children_of. rewrite !obj_get_set. reflexivity.
Qed.







(** What a read gives is the array the file holds, when [find] accepts
    it. *)
Lemma read_entries (filePath : string) (f : file) (key value : string)
    (expr : string) (found : option nat) :
  find expr key value (Some (fst (_readJSON filePath f (JArr [])))) = Ret found ->
  items_of (fst (_readJSON filePath f (JArr []))) = entries f /\
  find_index key value (entries f) = Ret found.
Proof.
  intros H. apply find_array in H as (items & Hv & Hfound).
  injection Hv as Hv.
  destruct f as [| err | data]; cbn [_readJSON fst] in *.
  - injection Hv as <-. split; [reflexivity | exact Hfound].
  - injection Hv as <-. split; [reflexivity | exact Hfound].
  - subst data. split; [reflexivity | exact Hfound].
Qed.






Lemma write_todos_world (w : World) (data : json) :
  let w' := fst (write_todos write_throws w data) in
  behaviors_json w' = behaviors_json w /\
  (todos_json w' = todos_json w \/
   (snd (write_todos write_throws w data) = None /\ todos_json w' = Content data)).
Proof.
  unfold write_todos. destruct (write_throws (calls w)); cbn; auto.
Qed.

Lemma write_behaviors_world (w : World) (data : json) :
  let w' := fst (write_behaviors write_throws w data) in
  todos_json w' = todos_json w /\
  (behaviors_json w' = behaviors_json w \/
   (snd (write_behaviors write_throws w data) = None /\ behaviors_json w' = Content data)).
Proof.
  unfold write_behaviors. destruct (write_throws (calls w)); cbn; auto.
Qed.











Lemma find_index_found (key value : string) (items : list json) (i : nat) :
  find_index key value items = Ret (Some i) -> 1 <= count_named key value items.
Proof.
  revert i. induction items as [| item items IH]; intros i H; [discriminate H |].
  cbn [find_index] in H. unfold count_named in *. cbn [filter].
  destruct (has_field key value item) as [[] |] eqn:Ef; try discriminate H;
    apply has_field_named in Ef; rewrite Ef.
  - cbn [List.length]. lia.
  - destruct (find_index key value items) as [[j |] |]; try discriminate H.
    apply (IH j). reflexivity.
Qed.

Lemma find_index_added (key value : string) (items : list json) (x : json) :
  find_index key value items = Ret None ->
  has_field key value x = Ret true ->
  find_index key value (items ++ [x]) = Ret (Some (List.length items)).
Proof.
  intros Hnone Hx. induction items as [| item items IH]; cbn [app find_index List.length].
  - rewrite Hx. reflexivity.
  - cbn [find_index] in Hnone.
    destruct (has_field key value item) as [[] |]; try discriminate Hnone.
    destruct (find_index key value items) as [[j |] |]; try discriminate Hnone.
    rewrite IH by reflexivity. reflexivity.
Qed.

Lemma find_index_replaced (key value : string) (items : list json) (i : nat) (x : json) :
  find_index key value items = Ret (Some i) ->
  has_field key value x = Ret true ->
  find_index key value (replace_at i x items) = Ret (Some i).
Proof.
  revert i. induction items as [| item items IH]; intros i H Hx; [discriminate H |].
  cbn [find_index] in H.
  destruct (has_field key value item) as [[] |] eqn:Ef; try discriminate H.
  - injection H as <-. cbn [replace_at find_index]. rewrite Hx. reflexivity.
  - destruct (find_index key value items) as [[j |] |] eqn:Ej; try discriminate H.
    injection H as <-. cbn [replace_at find_index]. rewrite Ef.
    rewrite (IH j eq_refl Hx). reflexivity.
Qed.

Lemma find_index_has_field (key value : string) (items : list json) (i : nat) :
  find_index key value items = Ret (Some i) ->
  has_field key value (nth i items JNull) = Ret true.
Proof.
  revert i. induction items as [| item items IH]; intros i H; [discriminate H |].
  cbn [find_index] in H.
  destruct (has_field key value item) as [[] |] eqn:Ef; try discriminate H.
  - injection H as <-. exact Ef.
  - destruct (find_index key value items) as [[j |] |] eqn:Ej; try discriminate H.
    injection H as <-. cbn [nth]. apply IH. reflexivity.
Qed.

Lemma has_field_with_child (key value : string) (fields : list (string * json))
    (children : list json) (child : json) (stamp : string) :
  key <> "updatedAt"%string -> key <> "children"%string ->
  has_field key value (JObj (with_child fields children child stamp)) =
  has_field key value (JObj fields).
Proof.
  intros H1 H2. unfold with_child, has_field.
  rewrite !obj_get_set.
  destruct (String.eqb key "updatedAt") eqn:E1;
    [apply String.eqb_eq in E1; contradiction |].
  destruct (String.eqb key "children") eqn:E2;
    [apply String.eqb_eq in E2; contradiction |].
  reflexivity.
Qed.

Lemma write_todos_returned (w : World) (data : json) :
  snd (write_todos write_throws w data) = None ->
  todos_json (fst (write_todos write_throws w data)) = Content data.
Proof.
  unfold write_todos. destruct (write_throws (calls w)); cbn; [discriminate | reflexivity].
Qed.

(** X18. When _ensureTask is called with a title and returns, the todos
    file holds an array with a task of that title, and when a subtask
    title is given too, the first task of that title has a subtask of
    that title. *)
Theorem ensured_task_is_in_the_file :
  forall tw w taskName subtaskName,
    let done := _ensureTask uuidv4 now_toISOString write_throws tw w
                  taskName subtaskName in
    taskName <> ""%string ->
    snd done = None ->
    exists items i,
      todos_json (fst (fst done)) = Content (JArr items) /\
      find_index "title" taskName items = Ret (Some i) /\
      (subtaskName <> ""%string ->
       1 <= count_named "title" subtaskName (children_of (nth i items JNull))).
Proof.
  intros tw w taskName subtaskName. cbv zeta. unfold _ensureTask.
  intros Hname.
  destruct (String.eqb taskName "") eqn:Ename;
    [apply String.eqb_eq in Ename; contradiction |].
  pose proof (read_entries (todosFile tw) (todos_json w) "title" taskName "todos")
    as Hread.
  destruct (_readJSON (todosFile tw) (todos_json w) (JArr [])) as [todos read_logged].
  cbn [fst] in Hread.
  destruct (find "todos" "title" taskName (Some todos)) as [found | e];
    [| discriminate].
  destruct (Hread found eq_refl) as [Hitems Hfound]. rewrite Hitems. clear Hread Hitems.
  assert (Htail : forall (w1 : World) (items : list json) (index : nat)
                         (fields : list (string * json)) (created : list event),
             find_index "title" taskName items = Ret (Some index) ->
             nth_error items index = Some (JObj fields) ->
             let done :=
               let task := fields_of (nth_error items index) in
               let added :=
                 if String.eqb subtaskName "" then Ret None
                 else
                   match find "task.children" "title" subtaskName
                           (obj_get "children" task) with
                   | Throw e => Throw e
                   | Ret (Some _) => Ret None
                   | Ret None => Ret (Some (elements (obj_get "children" task)))
                   end in
               match added with
               | Throw e => (w1, read_logged ++ created, Some e)
               | Ret None =>
                   let '(w2, thrown) := write_todos write_throws w1 (JArr items) in
                   (w2, read_logged ++ created, thrown)
               | Ret (Some children) =>
                   let n := calls w1 in
                   let child := new_subtask uuidv4 now_toISOString n subtaskName in
                   let task' :=
                     JObj (with_child task children child (now_toISOString (n + 3))) in
                   let '(w2, thrown) :=
                     write_todos write_throws (after_calls 4 w1)
                       (JArr (replace_at index task' items)) in
                   (w2, read_logged ++ created
                        ++ [subtask_created taskName subtaskName], thrown)
               end in
             snd done = None ->
             exists items' i,
               todos_json (fst (fst done)) = Content (JArr items') /\
               find_index "title" taskName items' = Ret (Some i) /\
               (subtaskName <> ""%string ->
                1 <= count_named "title" subtaskName (children_of (nth i items' JNull)))).
  { intros w1 items index fields created Hindex Hnth. cbv zeta.
    rewrite Hnth. cbn [fields_of].
    destruct (String.eqb subtaskName "") eqn:Esub.
    - pose proof (write_todos_returned w1 (JArr items)) as Hw.
      destruct (write_todos write_throws w1 (JArr items)) as [w2 thrown].
      cbn [fst snd] in *. intros Hret.
      exists items, index. split; [apply Hw, Hret |]. split; [exact Hindex |].
      intros Hsub. apply String.eqb_neq in Hsub. congruence.
    - destruct (find "task.children" "title" subtaskName (obj_get "children" fields))
        as [[j |] | e] eqn:Efind.
      + pose proof (write_todos_returned w1 (JArr items)) as Hw.
        destruct (write_todos write_throws w1 (JArr items)) as [w2 thrown].
        cbn [fst snd] in *. intros Hret.
        exists items, index. split; [apply Hw, Hret |]. split; [exact Hindex |].
        intros _. rewrite (nth_error_nth _ _ _ Hnth).
        apply find_array in Efind as (children & Hch & Hj).
        unfold children_of. rewrite Hch. apply (find_index_found _ _ _ j), Hj.
      + apply find_array in Efind as (children & Hch & Hnone).
        rewrite Hch. cbn [elements].
        match goal with
        | |- context [write_todos _ ?w0 (JArr ?items')] =>
            pose proof (write_todos_returned w0 (JArr items')) as Hw;
            destruct (write_todos write_throws w0 (JArr items')) as [w2 thrown];
            cbn [fst snd] in *; intros Hret;
            exists items', index
        end.
        assert (Hlt : index < List.length items)
          by (apply nth_error_Some; rewrite Hnth; discriminate).
        split; [apply Hw, Hret |]. split.
        * apply find_index_replaced; [exact Hindex |].
          rewrite has_field_with_child by discriminate.
          rewrite <- (nth_error_nth _ _ JNull Hnth).
          apply find_index_has_field, Hindex.
        * intros _. rewrite nth_replace_at, Nat.eqb_refl.
          apply Nat.ltb_lt in Hlt. rewrite Hlt. cbn [andb].
          rewrite children_with_child, count_named_app.
          unfold count_named at 2. cbn [filter new_subtask named obj_get String.eqb
                                         Ascii.eqb Bool.eqb].
          rewrite String.eqb_refl. cbn [List.length]. lia.
      + cbn [snd]. discriminate. }
  destruct found as [index |].
  - pose proof Hfound as Hfields.
    apply find_index_some in Hfields as (fields & Hnth & _).
    apply (Htail w (entries (todos_json w)) index fields nil Hfound Hnth).
  - eapply (Htail (after_calls 3 w) _ (List.length (entries (todos_json w))) _ _).
    + apply find_index_added; [exact Hfound |].
      cbn [has_field obj_get String.eqb Ascii.eqb Bool.eqb].
      rewrite String.eqb_refl. reflexivity.
    + rewrite nth_error_app2 by lia. rewrite Nat.sub_diag. reflexivity.
Qed.

End TodoFacts.

(* ================================================================== *)
(** * Further concrete runs                                            *)
(* ================================================================== *)

(** After a start and one fire that found the screen unchanged, the one
    record written is the one tick counted. *)
Lemma counted_ticks_sample :
  recorded G2min (EventLoop.sched Fixture.world_skipped)
  = written G2min (EventLoop.trace Fixture.world_skipped)
  /\ written G2min (EventLoop.trace Fixture.world_skipped) = 1.
Proof.
  split; [| vm_compute; reflexivity].
  apply (counted_ticks_are_the_records_written
           Sample.JSON_parse Sample.Date_parse Sample.toLocaleTimeString).
  apply (EventLoop.reach_step _ _ _ Sample.world_started
           (EventLoop.Fire 0%nat G2min Sample.env_unchanged));
    [| vm_compute; reflexivity].
  apply (EventLoop.reach_step _ _ _ (EventLoop.init Sample.scheduler) EventLoop.CallStart);
    [| vm_compute; reflexivity].
  apply EventLoop.reach_init.
Defined.

(** A schedule from 22:00 to 06:00 allows no instant. *)
Lemma night_window_sample :
  (forall now, SummaryScheduler._isAllowed Fixture.night_scheduler now = false)
  /\ (forall g env,
        SummaryScheduler.run Sample.Date_parse Sample.toLocaleTimeString
          g Fixture.night_scheduler env
        = (Fixture.night_scheduler, [], SummaryScheduler.Dropped)).
Proof.
  apply (window_ending_before_its_start_drops_every_tick
           Sample.Date_parse Sample.toLocaleTimeString Fixture.night_scheduler).
  - reflexivity.
  - vm_compute. reflexivity.
Defined.

(** [start] on the sample scheduler sets its three timers. *)
Lemma start_timers_sample :
  map (fun x => (snd (fst x), snd x))
      (intervals_set (snd (SummaryScheduler.start Sample.scheduler 0%nat)))
  = [(G2min, 120000); (G10min, 600000); (G1h, 3600000)].
Proof.
  exact (proj1 (proj2 (start_sets_one_timer_per_enabled_tier
                         Sample.scheduler 0%nat eq_refl))).
Defined.

(** The fenced answer of the sample is parsed from the inside of its
    fence. *)
Lemma fenced_answer_sample :
  SummaryScheduler._parseResponse Sample.JSON_parse Fixture.fenced_text
  = ([], JObj []).
Proof.
  apply (fenced_answer_is_parsed_from_inside_the_fence Sample.JSON_parse
           Fixture.fenced_text "结果如下 " "json" " {} " " 以上。").
  - vm_compute. reflexivity.
  - reflexivity.
  - reflexivity.
  - left. reflexivity.
Defined.

(** A query over the middle of the sample reports. *)
Lemma range_query_sample :
  in_order_from 1500
    (ActiveWindowCollector.getTimelineInRange
       (ActiveWindowCollector.drive (ActiveWindowCollector.constructor 0) Fixture.inputs)
       1500 2500)
  /\ Forall (fun r => SummaryScheduler.endTime r <= 2500)
       (ActiveWindowCollector.getTimelineInRange
          (ActiveWindowCollector.drive (ActiveWindowCollector.constructor 0) Fixture.inputs)
          1500 2500).
Proof.
  apply (range_query_is_clipped_and_in_order 0 Fixture.inputs 1500 2500).
  - change (Sorted Z.le [1000; 2000; 3000]).
    apply Sorted_cons; [| apply HdRel_cons; lia].
    apply Sorted_cons; [| apply HdRel_cons; lia].
    apply Sorted_cons; [apply Sorted_nil | apply HdRel_nil].
  - lia.
Defined.

(** One earlier record and then the most recent one are the two most
    recent records of the sample directory. *)
Lemma earlier_then_recent_sample :
  (snd (SummaryStore.getEarlierSummaries Fixture.sort Sample.JSON_parse
          Fixture.summaries 1 1)
   ++ snd (SummaryStore.getRecentSummaries Fixture.sort Sample.JSON_parse
             Fixture.summaries 1))%list
  = [Sample.timeline_value; JObj []].
Proof.
  exact (earlier_then_recent_is_recent_of_the_sum Fixture.sort Sample.JSON_parse
           Fixture.summaries 1 1 ltac:(lia) ltac:(lia)).
Defined.

(** The time of the sample answer is the time of its record. *)
Lemma saved_record_sample :
  obj_get "timestamp"
    (SummaryStore.record_of "2026-02-10T10:06:00.000Z" "2min" Fixture.answer)
  = Some (JStr "2026-02-10T09:00:00.000Z").
Proof.
  apply (proj2 (saved_record_keeps_the_fields_of_the_data
                  "2026-02-10T10:06:00.000Z" "2min" Fixture.answer
                  ltac:(repeat (apply NoDup_cons;
                                [cbn [In map fst Fixture.answer]; intuition discriminate |]);
                        apply NoDup_nil))).
  reflexivity.
Defined.

(** The name written at 18:05:07 on 10 February 2026 for the first
    monitor is read back as that instant. *)
Lemma names_read_back_sample :
  Storage.generateFileName Fixture.getFullYear Fixture.getMonth Fixture.getDate
    Fixture.getSeconds Storage.default_pattern (Storage.constructor_format "jpeg")
    Fixture.local_now Fixture.local_now 1770717907000 0
  = "2026-02-10_18-05-07_0.jpeg"
  /\ ScreenshotReader._parseTimestamp Fixture.Date_local "2026-02-10_18-05-07_0.jpeg"
     = Some Fixture.local_now.
Proof.
  split; [vm_compute; reflexivity |].
  exact (proj1 (names_written_by_storage_are_read_back
                  Fixture.getFullYear Fixture.getMonth Fixture.getDate Fixture.getSeconds
                  Fixture.Date_local "jpeg" Fixture.local_now Fixture.local_now
                  1770717907000 0
                  ltac:(cbv [Fixture.getFullYear]; lia)
                  ltac:(cbv [Fixture.getMonth]; lia)
                  ltac:(cbv [Fixture.getDate]; lia)
                  ltac:(cbv [Fixture.local_now getHours]; lia)
                  ltac:(cbv [Fixture.local_now getMinutes]; lia)
                  ltac:(cbv [Fixture.getSeconds]; lia)
                  ltac:(lia))).
Defined.

(** Of the three screenshots of the last minute, the two most recent are
    selected and the one that can be read is returned. *)
Lemma recent_screenshots_sample :
  let results :=
    snd (ScreenshotReader.getRecentScreenshotBuffers Fixture.Date_local Fixture.path_join
           "jpeg" Fixture.screenshots Fixture.reader_now 1 2) in
  (Z.of_nat (List.length results) <= 2
   /\ Forall (fun s => Fixture.reader_now - 1 * 60 * 1000
                       <= getTime (ScreenshotComparer.timestamp s) <= Fixture.reader_now)
        results
   /\ StronglySorted not_later results)
  /\ List.length results = 1%nat.
Proof.
  split; [| vm_compute; reflexivity].
  apply (recent_screenshots_are_few_recent_and_in_order
           Fixture.Date_local Fixture.path_join
           "jpeg" Fixture.screenshots Fixture.reader_now 1 2).
  lia.
Defined.

(** On an empty disk, a task and its subtask are created. *)
Lemma ensured_task_sample :
  exists items i,
    TodoWriter.todos_json
      (fst (fst (TodoWriter._ensureTask Fixture.uuidv4 Fixture.now_toISOString
                   Fixture.write_throws Fixture.writer Fixture.empty_disk
                   "写周报" "收集数据")))
    = TodoWriter.Content (JArr items)
    /\ TodoWriter.find_index "title" "写周报" items = Ret (Some i)
    /\ ("收集数据" <> "" ->
        (1 <= count_named "title" "收集数据" (children_of (nth i items JNull)))%nat).
Proof.
  apply (ensured_task_is_in_the_file Fixture.uuidv4 Fixture.now_toISOString
           Fixture.write_throws Fixture.writer Fixture.empty_disk "写周报" "收集数据").
  - discriminate.
  - vm_compute. reflexivity.
Defined.
